(** * Brew-file: the manifest model and the reconciliation engine

    A shallow embedding of [BrewFile.py] (classes [BrewInfo] and [BrewFile])
    and the properties of its manifest parser, serializer, discovery
    clean-up, removal plan and installation plan.

    Conventions of the embedding.
    - A Python [str] is a [string]; its characters are the 256 code points
      of [ascii] (the Latin-1 range), and [str.isspace], [str.isdigit] and
      [str.lower] are given on that range.
    - A Python [list] of strings is a [list string]; a [dict] from strings
      to strings is a [gmap string string].
    - The attributes of a [BrewInfo] are reached through [list_dic] in the
      source; the embedding indexes them by the same names.
    - Exceptions and [sys.exit] are results of the computation, next to the
      state reached when they happen.
    - What the source asks of the machine (the file system, [brew], [mas],
      the platform) is a field of [Env]. *)

From Stdlib Require Import ZArith Ascii String Bool.
From stdpp Require Import base gmap strings list.

Local Open Scope Z_scope.
#[local] Set Warnings "-clear-no-such-hyp".

(** ** Python strings *)

Module Py.

Definition nl : string := String "010"%char "".

(** [str.isspace] on one character. *)
Definition is_space (c : ascii) : bool :=
  let n := N_of_ascii c in
  (((9 <=? n) && (n <=? 13)) || ((28 <=? n) && (n <=? 32))
   || (n =? 133) || (n =? 160))%N.

(** One character of [str.isdigit]: the decimal digits and the three
    superscript digits of Latin-1. *)
Definition is_digit_char (c : ascii) : bool :=
  let n := N_of_ascii c in
  (((48 <=? n) && (n <=? 57)) || (n =? 178) || (n =? 179) || (n =? 185))%N.

(** One character of the regular expression class [\d]. *)
Definition is_decimal (c : ascii) : bool :=
  let n := N_of_ascii c in ((48 <=? n) && (n <=? 57))%N.

Fixpoint forallb_str (p : ascii -> bool) (s : string) : bool :=
  match s with
  | EmptyString => true
  | String c s' => p c && forallb_str p s'
  end.

Fixpoint existsb_str (p : ascii -> bool) (s : string) : bool :=
  match s with
  | EmptyString => false
  | String c s' => p c || existsb_str p s'
  end.

Definition is_empty (s : string) : bool :=
  match s with EmptyString => true | _ => false end.

(** [s.isdigit()] *)
Definition isdigit (s : string) : bool :=
  negb (is_empty s) && forallb_str is_digit_char s.

Definition lower_char (c : ascii) : ascii :=
  let n := N_of_ascii c in
  if (((65 <=? n) && (n <=? 90))
      || ((192 <=? n) && (n <=? 222) && negb (n =? 215)))%N
  then ascii_of_N (n + 32) else c.

Fixpoint map_str (f : ascii -> ascii) (s : string) : string :=
  match s with
  | EmptyString => EmptyString
  | String c s' => String (f c) (map_str f s')
  end.

(** [s.lower()] *)
Definition lower (s : string) : string := map_str lower_char s.

(** [s.split()]: the maximal runs of characters that are not white space.
    [tok] is the run being read. *)
Fixpoint split_go (tok s : string) : list string :=
  match s with
  | EmptyString => if is_empty tok then [] else [tok]
  | String c s' =>
      if is_space c
      then (if is_empty tok then split_go "" s' else tok :: split_go "" s')
      else split_go (tok +:+ String c "") s'
  end.

Definition split (s : string) : list string := split_go "" s.

(** [sep.join(l)] *)
Definition join (sep : string) (l : list string) : string :=
  String.concat sep l.

Fixpoint lstrip_of (p : ascii -> bool) (s : string) : string :=
  match s with
  | EmptyString => EmptyString
  | String c s' => if p c then lstrip_of p s' else s
  end.

Fixpoint rstrip_of (p : ascii -> bool) (s : string) : string :=
  match s with
  | EmptyString => EmptyString
  | String c s' =>
      let r := rstrip_of p s' in
      if p c && is_empty r then EmptyString else String c r
  end.

Definition strip_of (p : ascii -> bool) (s : string) : string :=
  rstrip_of p (lstrip_of p s).

(** [s.strip()] *)
Definition strip (s : string) : string := strip_of is_space s.

(** [s.strip(c)] for a one-character argument. *)
Definition strip_char (c : ascii) (s : string) : string :=
  strip_of (Ascii.eqb c) s.

(** [s.replace(c, new)] for a one-character [c]. *)
Fixpoint replace (c : ascii) (new s : string) : string :=
  match s with
  | EmptyString => EmptyString
  | String d s' =>
      if Ascii.eqb c d then new +:+ replace c new s'
      else String d (replace c new s')
  end.

(** [c in s] for a character. *)
Definition has_char (c : ascii) (s : string) : bool :=
  existsb_str (Ascii.eqb c) s.

(** [s.startswith(pre)] *)
Definition startswith (pre s : string) : bool := String.prefix pre s.

(** [sub in s], which is also [s.find(sub) != -1]. *)
Fixpoint contains (sub s : string) : bool :=
  String.prefix sub s ||
  match s with
  | EmptyString => false
  | String _ s' => contains sub s'
  end.

Fixpoint drop (n : nat) (s : string) : string :=
  match n, s with
  | O, _ => s
  | S n', String _ s' => drop n' s'
  | S _, EmptyString => EmptyString
  end.

(** The text read by [open(name, "r")]: line ends are translated to a
    line feed. *)
Fixpoint universal_newlines (s : string) : string :=
  match s with
  | EmptyString => EmptyString
  | String c s' =>
      if Ascii.eqb c "013"%char then
        match s' with
        | String d _ =>
            if Ascii.eqb d "010"%char then universal_newlines s'
            else String "010"%char (universal_newlines s')
        | EmptyString => nl
        end
      else String c (universal_newlines s')
  end.

Fixpoint lines_go (cur s : string) : list string :=
  match s with
  | EmptyString => if is_empty cur then [] else [cur]
  | String c s' =>
      if Ascii.eqb c "010"%char
      then (cur +:+ nl) :: lines_go "" s'
      else lines_go (cur +:+ String c "") s'
  end.

(** [f.readlines()]: every line keeps its line feed. *)
Definition readlines (content : string) : list string :=
  lines_go "" (universal_newlines content).

(** The greedy prefix [ *] of a regular expression. *)
Fixpoint skip_spaces (s : string) : string :=
  match s with
  | String c s' => if Ascii.eqb c " "%char then skip_spaces s' else s
  | EmptyString => EmptyString
  end.

(** [l.remove(x)]: the first occurrence goes; [ValueError] (here [None])
    when there is none. *)
Fixpoint list_remove (x : string) (l : list string) : option (list string) :=
  match l with
  | [] => None
  | y :: l' =>
      if decide (x = y) then Some l'
      else cons y <$> list_remove x l'
  end.

(** A stable sort by a key, as [list.sort(key=...)]. *)
Fixpoint insert_by {K : Type} (le : K -> K -> bool) (key : string -> K)
    (x : string) (l : list string) : list string :=
  match l with
  | [] => [x]
  | y :: l' =>
      if le (key x) (key y) then x :: y :: l'
      else y :: insert_by le key x l'
  end.

Fixpoint sort_by {K : Type} (le : K -> K -> bool) (key : string -> K)
    (l : list string) : list string :=
  match l with
  | [] => []
  | x :: l' => insert_by le key x (sort_by le key l')
  end.

(** [l.sort()] *)
Definition sort (l : list string) : list string :=
  sort_by String.leb (fun x => x) l.

End Py.

(** ** Results of a run *)

Inductive exn := IndexError | KeyError | ValueError | RecursionError.

(** A run returns, raises, or leaves the process through [sys.exit]. *)
Inductive outcome (A : Type) :=
| Done (a : A)
| Raised (e : exn)
| Exited (code : Z).
Arguments Done {A} a.
Arguments Raised {A} e.
Arguments Exited {A} code.

(** A computation over a state [S]: the state it reaches is kept also when
    it raises, since the mutations made before the exception stay. *)
Definition M (S A : Type) : Type := S -> outcome A * S.

Definition ret {S A} (a : A) : M S A := fun s => (Done a, s).

Definition bind {S A B} (m : M S A) (k : A -> M S B) : M S B :=
  fun s =>
    match m s with
    | (Done a, s') => k a s'
    | (Raised e, s') => (Raised e, s')
    | (Exited c, s') => (Exited c, s')
    end.

Definition raise {S A} (e : exn) : M S A := fun s => (Raised e, s).
Definition sys_exit {S A} (c : Z) : M S A := fun s => (Exited c, s).
Definition get_state {S} : M S S := fun s => (Done s, s).
Definition modify {S} (f : S -> S) : M S unit := fun s => (Done tt, f s).

Global Instance M_ret {S} : MRet (M S) := fun A a => ret a.
Global Instance M_bind {S} : MBind (M S) := fun A B k m => bind m k.

(** [for x in l: body x] *)
Fixpoint for_each {S A} (l : list A) (body : A -> M S unit) : M S unit :=
  match l with
  | [] => ret tt
  | x :: l' => body x;; for_each l' body
  end.

(** ** The data of a manifest document: class [BrewInfo] *)

(** The names of [list_dic] whose value is a list. *)
Inductive lname :=
| brew_input | tap_input | cask_input | appstore_input | main_input
| file_input | before_input | after_input | cmd_input
| brew_list | brew_full_list | tap_list | cask_list | cask_nocask_list
| appstore_list | main_list | file_list.

(** The names of [list_dic] whose value is a dictionary. *)
Inductive dname := brew_input_opt | brew_list_opt.

Global Instance lname_eq_dec : EqDecision lname.
Proof. solve_decision. Defined.
Global Instance dname_eq_dec : EqDecision dname.
Proof. solve_decision. Defined.

Record BrewInfo := {
  lists : lname -> list string;
  dicts : dname -> gmap string string;
  filename : string
}.

(** [BrewInfo(helper, filename)] *)
Definition new_BrewInfo (name : string) : BrewInfo :=
  {| lists := fun _ => []; dicts := fun _ => ∅; filename := name |}.

Definition set_list (n : lname) (v : list string) (b : BrewInfo) : BrewInfo :=
  {| lists := fun m => if decide (m = n) then v else lists b m;
     dicts := dicts b; filename := filename b |}.

Definition set_dict (n : dname) (v : gmap string string) (b : BrewInfo)
  : BrewInfo :=
  {| lists := lists b;
     dicts := fun m => if decide (m = n) then v else dicts b m;
     filename := filename b |}.

(** [self.<n>.append(x)] *)
Definition append (n : lname) (x : string) (b : BrewInfo) : BrewInfo :=
  set_list n (lists b n ++ [x]) b.

(** [self.<n>[k] = v] *)
Definition dict_set (n : dname) (k v : string) (b : BrewInfo) : BrewInfo :=
  set_dict n (<[k := v]> (dicts b n)) b.

Definition input_names : list lname :=
  [brew_input; tap_input; cask_input; appstore_input; main_input;
   file_input; before_input; after_input; cmd_input].

Definition list_names : list lname :=
  [brew_list; brew_full_list; tap_list; cask_list; cask_nocask_list;
   appstore_list; main_list; file_list].

Definition clear_input (b : BrewInfo) : BrewInfo :=
  set_dict brew_input_opt ∅ (foldr (fun n => set_list n []) b input_names).

Definition clear_list (b : BrewInfo) : BrewInfo :=
  set_dict brew_list_opt ∅ (foldr (fun n => set_list n []) b list_names).

(** [self.<dst>.extend(self.<src>)] *)
Definition extend_from (dst src : lname) (b : BrewInfo) : BrewInfo :=
  set_list dst (lists b dst ++ lists b src) b.

Definition input_to_list (b : BrewInfo) : BrewInfo :=
  let b := clear_list (clear_list b) in
  let b := extend_from brew_list brew_input b in
  let b := set_dict brew_list_opt
             (dicts b brew_input_opt ∪ dicts b brew_list_opt) b in
  let b := extend_from tap_list tap_input b in
  let b := extend_from cask_list cask_input b in
  let b := extend_from appstore_list appstore_input b in
  let b := extend_from main_list main_input b in
  extend_from file_list file_input b.

(** [BrewInfo.remove(name, package)] on a list. *)
Definition remove (n : lname) (package : string) : M BrewInfo unit :=
  fun b =>
    match Py.list_remove package (lists b n) with
    | Some l => (Done tt, set_list n l b)
    | None => (Raised ValueError, b)
    end.

(** [BrewInfo.set_val(name, val)] on a list. *)
Definition set_val (n : lname) (val : list string) (b : BrewInfo) : BrewInfo :=
  set_list n val b.

(** [BrewInfo.add(name, val)] on a list: the comprehension is evaluated
    before the list is extended. *)
Definition add (n : lname) (val : list string) (b : BrewInfo) : BrewInfo :=
  set_list n
    (lists b n ++ filter (fun x => x ∉ lists b n) val) b.

(** [BrewInfo.add(name, val)] on a dictionary: [dict.update]. *)
Definition add_dict (n : dname) (val : gmap string string) (b : BrewInfo)
  : BrewInfo :=
  set_dict n (val ∪ dicts b n) b.

(** ** The machine and the options *)

(** The part of [helper.opt] the embedded methods read. *)
Record Opt := {
  form : string;
  caskonly : bool;
  appstore : Z;
  cask_repo : string;
  link : bool;
  dryrun : bool;
  leaves : bool;
  on_request : bool;
  top_packages : string;
  mas_cmd : string;
  appdirlist : list string;
  mas_cmd_installed : bool;
  reattach_cmd_installed : bool;
  initialized : bool
}.

Definition set_form (f : string) (o : Opt) : Opt :=
  {| form := f; caskonly := caskonly o; appstore := appstore o;
     cask_repo := cask_repo o; link := link o; dryrun := dryrun o;
     leaves := leaves o; on_request := on_request o;
     top_packages := top_packages o; mas_cmd := mas_cmd o;
     appdirlist := appdirlist o;
     mas_cmd_installed := mas_cmd_installed o;
     reattach_cmd_installed := reattach_cmd_installed o;
     initialized := initialized o |}.

Definition set_mas_cmd_installed (v : bool) (o : Opt) : Opt :=
  {| form := form o; caskonly := caskonly o; appstore := appstore o;
     cask_repo := cask_repo o; link := link o; dryrun := dryrun o;
     leaves := leaves o; on_request := on_request o;
     top_packages := top_packages o; mas_cmd := mas_cmd o;
     appdirlist := appdirlist o;
     mas_cmd_installed := v;
     reattach_cmd_installed := reattach_cmd_installed o;
     initialized := initialized o |}.

Definition set_initialized (v : bool) (o : Opt) : Opt :=
  {| form := form o; caskonly := caskonly o; appstore := appstore o;
     cask_repo := cask_repo o; link := link o; dryrun := dryrun o;
     leaves := leaves o; on_request := on_request o;
     top_packages := top_packages o; mas_cmd := mas_cmd o;
     appdirlist := appdirlist o;
     mas_cmd_installed := mas_cmd_installed o;
     reattach_cmd_installed := reattach_cmd_installed o;
     initialized := v |}.

(** The defaults of [BrewFile.__init__], with the App Store level that
    [set_args] computes from them. *)
Definition default_opt : Opt :=
  {| form := "none"; caskonly := false; appstore := 1;
     cask_repo := "homebrew/cask"; link := true; dryrun := true;
     leaves := false; on_request := false; top_packages := "";
     mas_cmd := "mas"; appdirlist := ["/Applications"];
     mas_cmd_installed := false;
     reattach_cmd_installed := false; initialized := false |}.

(** What a run prints or asks the machine to do. [Proc] is a command given
    to [BrewFile.proc]; [Chmod] is the command that ends [BrewInfo.write],
    which goes to the helper with [exit_on_err] unset and cannot end the
    run. *)
Inductive Event :=
| Proc (cmd : string)
| PrintLine (text : string)
| InfoLine (text : string)
| WarnLine (text : string)
| ErrLine (text : string)
| BannerLine (text : string)
| FileWrite (name text : string)
| Chmod (mode name : string).

(** One installed formula as [brew info --json=v1 --installed] and
    [get_option] report it. *)
Record PackInfo := {
  installed_on_request : option bool;
  (** [get_option(p, info[p])] *)
  options : string;
  dependencies : list string
}.

(** What the machine answers. *)
Record Env := {
  is_mac : bool;
  (** [BrewInfo.get_tap_packs] and [get_tap_casks]: the sorted names of the
      formula and cask files of a tap on disk. *)
  get_tap_packs : string -> list string;
  get_tap_casks : string -> list string;
  (** [expandpath] *)
  expandpath : string -> string;
  (** [os.path.isdir] *)
  isdir : string -> bool;
  (** [check_mas_cmd(True)] *)
  check_mas_cmd : Z;
  (** [brew_val("cache")] *)
  brew_cache : string;
  (** [BrewInfo.get_option(p)] asked after an installation. *)
  get_option : string -> string;
  (** The exit code and the output lines of a command, given what has run
      before it. *)
  proc_result : list Event -> string -> Z * list string;
  (** [BrewInfo.get_info()], in the order of its keys. *)
  get_info : list (string * PackInfo);
  (** The output lines of [brew list --formula], [brew leaves] (each cut to
      its last path component), [brew tap], [brew list --cask] (filtered as
      [get_cask_list] does) and [get_appstore_list]. *)
  brew_list_formula : list string;
  get_leaves : list string;
  brew_tap : list string;
  get_cask_list : list string;
  get_appstore_list : list string
}.

(** ** Reading a manifest: [BrewInfo.read] *)

(** The double quote character. *)
Definition dquote : ascii := "034"%char.

(** The state [read] works on: [helper.opt], shared by every document of
    the process, and the document itself. *)
Definition RS : Type := Opt * BrewInfo.

(** [if self.helper.opt["form"] == "none": self.helper.opt["form"] = f] *)
Definition form_if_none (f : string) : M RS unit :=
  modify (fun s : RS =>
            if decide (form s.1 = "none") then (set_form f s.1, s.2) else s).

Definition upd (f : BrewInfo -> BrewInfo) : M RS unit :=
  modify (fun s : RS => (s.1, f s.2)).

Definition when {S} (c : bool) (m : M S unit) : M S unit :=
  if c then m else ret tt.

(** [re.match("# *BREWFILE_ENDIGNORE", line)] *)
Definition match_endignore (line : string) : bool :=
  match line with
  | String c r =>
      Ascii.eqb c "#" && String.prefix "BREWFILE_ENDIGNORE" (Py.skip_spaces r)
  | EmptyString => false
  end.

(** [re.match("# *BREWFILE_IGNORE", line)] *)
Definition match_ignore (line : string) : bool :=
  match line with
  | String c r =>
      Ascii.eqb c "#" && String.prefix "BREWFILE_IGNORE" (Py.skip_spaces r)
  | EmptyString => false
  end.

(** [re.match(" *$", line)]: the end of the text, or its last line feed. *)
Definition match_blank (line : string) : bool :=
  let r := Py.skip_spaces line in
  bool_decide (r = "") || bool_decide (r = Py.nl).

(** [re.match(" *#", line)] *)
Definition match_comment (line : string) : bool :=
  match Py.skip_spaces line with
  | String c _ => Ascii.eqb c "#"
  | EmptyString => false
  end.

(** [re.sub("^ *appstore *", "", line)] *)
Definition sub_appstore (line : string) : string :=
  let r := Py.skip_spaces line in
  if String.prefix "appstore" r then Py.skip_spaces (Py.drop 8 r) else line.

(** The tokens of a line once quotes and brackets are dropped and commas
    are turned into spaces. *)
Definition line_args (line : string) : list string :=
  Py.split
    (Py.replace "]" ""
       (Py.replace "[" ""
          (Py.replace "," " "
             (Py.replace dquote "" (Py.replace "'" "" line))))).

(** The options of a package line, from the tokens left after the
    sub-command has been dropped. *)
Definition line_opt (args : list string) : string :=
  if bool_decide (2 < length args)%nat then
    if bool_decide (nth 2 args "" = "args:")
    then " " +:+ Py.strip (Py.join " " (map (String.append "--") (drop 3 args)))
    else " " +:+ Py.strip (Py.join " " (drop 2 args))
  else "".

(** [tapall]: the tap, then every formula and every cask it holds. *)
Definition read_tapall (env : Env) (p : string) (b : BrewInfo) : BrewInfo :=
  let b := append tap_input p b in
  let b := foldl (fun b tp => dict_set brew_input_opt tp "" (append brew_input tp b))
             b (get_tap_packs env p) in
  foldl (fun b tp => append cask_input tp b) b (get_tap_casks env p).

(** [args.pop(0)], made when the line has more than two tokens and the
    second is [tap] or [cask]; the flag tells whether it is made. *)
Definition drop_command (args : list string) : list string * bool :=
  if bool_decide (2 < length args)%nat
     && bool_decide (nth 1 args "" ∈ ["tap"; "cask"])
  then (tail args, true) else (args, false).

(** [args.pop(1)], made when more than two tokens are left, the first is
    [brew] or [cask] and the second is [install]. *)
Definition drop_install (args : list string) : list string * bool :=
  if bool_decide (2 < length args)%nat
     && bool_decide (nth 0 args "" ∈ ["brew"; "cask"])
     && bool_decide (nth 1 args "" = "install")
  then (nth 0 args "" :: drop 2 args, true) else (args, false).

(** The tokens of a line after both steps: [cmd] is the first of them and
    [p] the second, or the empty text. *)
Definition final_args (line : string) : list string :=
  (drop_install (drop_command (line_args line)).1).1.

(** The chain of tests on [cmd] that ends the loop of [read]. *)
Definition dispatch (env : Env) (line cmd p opt excmd : string) : M RS unit :=
  if bool_decide (cmd ∈ ["brew"; "install"]) then
    upd (fun b => dict_set brew_input_opt p opt (append brew_input p b))
  else if bool_decide (cmd = "tap") then
    upd (append tap_input p)
  else if bool_decide (cmd = "tapall") then
    upd (read_tapall env p)
  else if bool_decide (cmd = "cask") then
    upd (append cask_input p)
  else if bool_decide (cmd = "mas") && Py.has_char "," line then
    form_if_none "bundle";;
    match Py.split line !! 1%nat with
    | None => raise IndexError
    | Some w =>
        let p := Py.strip_char dquote
                   (Py.strip_char "'" (Py.strip_char "," w)) in
        match Py.split line !! 3%nat with
        | None => raise IndexError
        | Some pid => upd (append appstore_input (pid +:+ " " +:+ p))
        end
    end
  else if bool_decide (cmd ∈ ["appstore"; "mas"]) then
    upd (append appstore_input
           (Py.strip_char dquote
              (Py.strip_char "'" (Py.strip (sub_appstore line)))))
  else if bool_decide (cmd = "main") then
    upd (fun b => append file_input p (append main_input p b))
  else if bool_decide (cmd = "file")
          || bool_decide (Py.lower cmd = "brewfile") then
    upd (append file_input p)
  else if bool_decide (cmd = "before") then
    upd (append before_input excmd)
  else if bool_decide (cmd = "after") then
    upd (append after_input excmd)
  else
    upd (append cmd_input (Py.strip line)).

(** The body of the loop of [read] for a line that is neither ignored,
    blank nor a comment. [args[0]] raises [IndexError] on a line without a
    token. *)
Definition parse_line (env : Env) (line : string) : M RS unit :=
  match line_args line with
  | [] => raise IndexError
  | _ :: _ =>
      let args := final_args line in
      let cmd := nth 0 args "" in
      let p := nth 1 args "" in
      when (drop_command (line_args line)).2 (form_if_none "cmd");;
      when (drop_install (drop_command (line_args line)).1).2
        (form_if_none "cmd");;
      when (bool_decide (2 < length args)%nat
            && bool_decide (nth 2 args "" = "args:"))
        (form_if_none "bundle");;
      when (bool_decide (cmd ∈ ["brew"; "tap"; "tapall"])
            && (Py.has_char dquote line || Py.has_char "'" line))
        (form_if_none "bundle");;
      dispatch env line cmd p (line_opt args)
        (Py.strip (Py.join " " (tail (Py.split line))))
  end.

(** The loop of [read] over the lines, with its flag [is_ignore]. *)
Fixpoint read_lines (env : Env) (is_ignore : bool) (lines : list string)
  : M RS unit :=
  match lines with
  | [] => ret tt
  | line :: rest =>
      let is_ignore := if match_endignore line then false else is_ignore in
      let is_ignore := if match_ignore line then true else is_ignore in
      if is_ignore then read_lines env is_ignore rest
      else if match_blank line || match_comment line
      then read_lines env is_ignore rest
      else parse_line env line;; read_lines env is_ignore rest
  end.

(** [BrewInfo.read]. [file] is what [open] finds: [None] when it raises
    [IOError]. The method returns [False] then, and [None] at its end. *)
Definition read (env : Env) (file : option string) : M RS (option bool) :=
  upd clear_input;;
  match file with
  | None => ret (Some false)
  | Some content =>
      upd (append tap_input "direct");;
      read_lines env false (Py.readlines content);;
      ret None
  end.

(** ** Writing a manifest: [BrewInfo.sort] and [BrewInfo.write] *)

Module PyMore.

(** [s.replace(old, new)] for a text [old] that is not empty: [skip]
    counts the characters of a match still to be passed. *)
Fixpoint replace_go (old new : string) (skip : nat) (s : string) : string :=
  match s with
  | EmptyString => EmptyString
  | String c s' =>
      match skip with
      | S k => replace_go old new k s'
      | O =>
          if String.prefix old s
          then new +:+ replace_go old new (String.length old - 1) s'
          else String c (replace_go old new 0 s')
      end
  end.

Definition replace_str (old new s : string) : string := replace_go old new 0 s.

(** [s.split(c)[-1]]: what follows the last [c]. *)
Fixpoint after_last (c : ascii) (s : string) : string :=
  match s with
  | EmptyString => EmptyString
  | String d s' =>
      if Ascii.eqb c d then after_last c s'
      else if Py.has_char c s' then after_last c s' else s
  end.

(** [s.split(c)] for a character [c]. *)
Fixpoint split_on_go (c : ascii) (cur s : string) : list string :=
  match s with
  | EmptyString => [cur]
  | String d s' =>
      if Ascii.eqb c d then cur :: split_on_go c "" s'
      else split_on_go c (cur +:+ String d "") s'
  end.

Definition split_on (c : ascii) (s : string) : list string :=
  split_on_go c "" s.

(** [c.join(s.split(c)[:-1])]: what precedes the last [c]. *)
Definition before_last (c : ascii) (s : string) : string :=
  String.concat (String c "") (removelast (split_on c s)).

(** [re.sub("^--", "", x)] *)
Definition sub_dashes (x : string) : string :=
  if String.prefix "--" x then Py.drop 2 x else x.

End PyMore.

Definition is_bundle (o : Opt) : bool :=
  bool_decide (form o ∈ ["brewdler"; "bundle"]).

Definition is_command (o : Opt) : bool :=
  bool_decide (form o ∈ ["command"; "cmd"]).

(** The four classes of taps in [sort]. *)
Inductive tap_class := CoreTap | CaskTap | BrewTap | OtherTap.

Global Instance tap_class_eq_dec : EqDecision tap_class.
Proof. solve_decision. Defined.

Definition classify_tap (o : Opt) (t : string) : tap_class :=
  if bool_decide (t = "homebrew/core") then CoreTap
  else if bool_decide (t = cask_repo o) then CaskTap
  else if Py.startswith "homebrew/" t then BrewTap
  else OtherTap.

Definition taps_of (o : Opt) (c : tap_class) (l : list string) : list string :=
  List.filter (fun t => bool_decide (classify_tap o t = c)) l.

Definition sort_taps (o : Opt) (l : list string) : list string :=
  taps_of o CoreTap l ++ Py.sort (taps_of o BrewTap l)
  ++ taps_of o CaskTap l ++ Py.sort (taps_of o OtherTap l).

(** The key of the sort of [appstore_list]; [None] where the lambda raises
    [IndexError]. *)
Definition appstore_key (x : string) : option string :=
  match Py.split x with
  | [] => None
  | [a] => Some a
  | _ :: b :: _ => Some (Py.lower b)
  end.

(** [BrewInfo.sort] *)
Definition sort (o : Opt) : M BrewInfo unit :=
  fun b =>
    let b := set_list tap_list (sort_taps o (lists b tap_list)) b in
    let b := set_list brew_list (Py.sort (lists b brew_list)) b in
    let b := set_list brew_full_list (Py.sort (lists b brew_full_list)) b in
    let b := set_list cask_list (Py.sort (lists b cask_list)) b in
    let b := set_list main_list (Py.sort (lists b main_list)) b in
    let b := set_list file_list (Py.sort (lists b file_list)) b in
    let b := set_list cask_nocask_list (Py.sort (lists b cask_nocask_list)) b in
    if forallb (fun x => bool_decide (is_Some (appstore_key x)))
         (lists b appstore_list)
    then (Done tt,
          set_list appstore_list
            (Py.sort_by String.leb (fun x => default "" (appstore_key x))
               (lists b appstore_list)) b)
    else (Raised IndexError, b).

(** [convert_option] *)
Definition convert_option (o : Opt) (opt : string) : string :=
  if negb (Py.is_empty opt) && is_bundle o
  then ", args: [" +:+
       Py.join ", " (map (fun x => "'" +:+ PyMore.sub_dashes x +:+ "'")
                       (Py.split opt)) +:+ "]"
  else opt.

(** [packout] *)
Definition packout (o : Opt) (pack : string) : string :=
  if is_bundle o then "'" +:+ pack +:+ "'" else pack.

(** [mas_pack]; [None] where [pack_split[0]] raises [IndexError]. *)
Definition mas_pack (o : Opt) (pack : string) : option string :=
  if is_bundle o then
    match Py.split pack with
    | [] => None
    | pid :: name => Some ("'" +:+ Py.join " " name +:+ "', id: " +:+ pid)
    end
  else Some pack.

(** The directive words of a dialect. *)
Record Cmds := {
  cmd_before : string; cmd_after : string; cmd_other : string;
  cmd_install : string; cmd_tap : string; cmd_cask : string;
  cmd_cask_nocask : string; cmd_appstore : string; cmd_main : string;
  cmd_file : string
}.

Definition cmds_of (o : Opt) : Cmds :=
  if is_bundle o then
    {| cmd_before := "#before "; cmd_after := "#after "; cmd_other := "#";
       cmd_install := "brew "; cmd_tap := "tap "; cmd_cask := "cask ";
       cmd_cask_nocask := "#cask "; cmd_appstore := "mas ";
       cmd_main := "#main "; cmd_file := "#file " |}
  else if is_command o then
    {| cmd_before := ""; cmd_after := ""; cmd_other := "";
       cmd_install := "brew install "; cmd_tap := "brew tap ";
       cmd_cask := "brew install "; cmd_cask_nocask := "#brew install ";
       cmd_appstore := "mas purchase "; cmd_main := "#main ";
       cmd_file := "#file " |}
  else
    {| cmd_before := "before "; cmd_after := "after "; cmd_other := "";
       cmd_install := "brew "; cmd_tap := "tap "; cmd_cask := "cask ";
       cmd_cask_nocask := "#cask "; cmd_appstore := "appstore ";
       cmd_main := "main "; cmd_file := "file " |}.

Definition ln (s : string) : string := s +:+ Py.nl.

(** The preamble of the command dialect. *)
Definition command_prefix : string :=
  ln "#!/usr/bin/env bash" +:+ ln "" +:+
  ln "#BREWFILE_IGNORE" +:+
  ln "if ! which brew >& /dev/null;then" +:+
  ln "  brew_installed=0" +:+
  ln "  echo Homebrew is not installed!" +:+
  ln "  echo Install now..." +:+
  ln ("  echo /bin/bash -c \" +:+ String dquote "\$\(curl -fsSL") +:+
  ln "https://raw.githubusercontent.com/Homebrew/" +:+
  ln ("install/master/install.sh\)\  /bin/bash -c "
      +:+ String dquote "$(curl -fsSL") +:+
  ln "https://raw.githubusercontent.com/Homebrew/" +:+
  ln "install/master/install.sh)  echo" +:+
  ln "fi" +:+
  ln "#BREWFILE_ENDIGNORE" +:+ ln "".

Definition output_prefix (o : Opt) : string :=
  if is_bundle o then "" else if is_command o then command_prefix else "".

(** The state of [write]: the text [output] and the document, whose lists
    are consumed while the taps are written. *)
Definition WS : Type := string * BrewInfo.

Definition emit (t : string) : M WS unit :=
  modify (fun s : WS => (s.1 +:+ t, s.2)).

Definition upd_info (f : BrewInfo -> BrewInfo) : M WS unit :=
  modify (fun s : WS => (s.1, f s.2)).

(** A method of the document run inside [write]. *)
Definition lift_info {A} (m : M BrewInfo A) : M WS A :=
  fun s : WS => let r := m s.2 in (r.1, (s.1, r.2)).

(** [self.brew_list_opt[p]] *)
Definition list_opt_of (p : string) : M WS string :=
  fun s : WS =>
    match dicts s.2 brew_list_opt !! p with
    | Some v => (Done v, s)
    | None => (Raised KeyError, s)
    end.

(** The inner function [first_tap_pack_write]. *)
Definition first_tap_pack_write (o : Opt) (isfirst direct_first isfirst_pack : bool)
    (tap : string) : string :=
  (if isfirst then Py.nl +:+ ln "# tap repositories and their packages" else "")
  +:+ (if negb direct_first && isfirst_pack
       then Py.nl +:+ ln (cmd_tap (cmds_of o) +:+ packout o tap) else "").

(** [p.split("/")[-1].replace(".rb", "")] *)
Definition pack_base (p : string) : string :=
  PyMore.replace_str ".rb" "" (PyMore.after_last "/" p).

(** One package line. *)
Definition brew_line (o : Opt) (p opt : string) : string :=
  ln (cmd_install (cmds_of o) +:+ packout o p +:+ convert_option o opt).

(** [for p in self.brew_list[:]] under a tap; the result is [direct_first]. *)
Fixpoint write_tap_brews (o : Opt) (tap_packs snapshot : list string)
    (direct_first : bool) : M WS bool :=
  match snapshot with
  | [] => mret direct_first
  | p :: rest =>
      if bool_decide (pack_base p ∈ tap_packs) then
        when direct_first (emit (Py.nl +:+ ln "## Direct install"));;
        opt ← list_opt_of p;
        emit (brew_line o p opt);;
        lift_info (remove brew_list p);;
        upd_info (fun b => set_dict brew_list_opt
                             (delete p (dicts b brew_list_opt)) b);;
        write_tap_brews o tap_packs rest false
      else write_tap_brews o tap_packs rest direct_first
  end.

(** [for p in self.cask_list[:]] under a tap; the flags [isfirst] and
    [isfirst_pack] go in and out. *)
Fixpoint write_tap_casks (o : Opt) (t : string) (tap_casks snapshot : list string)
    (isfirst isfirst_pack : bool) : M WS (bool * bool) :=
  match snapshot with
  | [] => mret (isfirst, isfirst_pack)
  | p :: rest =>
      if bool_decide (p ∈ tap_casks) then
        emit (first_tap_pack_write o isfirst false isfirst_pack t);;
        emit (ln (cmd_cask (cmds_of o) +:+ packout o p));;
        lift_info (remove cask_list p);;
        write_tap_casks o t tap_casks rest false false
      else write_tap_casks o t tap_casks rest isfirst isfirst_pack
  end.

(** [for t in self.tap_list] *)
Fixpoint write_taps (env : Env) (o : Opt) (taps : list string) (isfirst : bool)
  : M WS unit :=
  match taps with
  | [] => mret tt
  | t :: rest =>
      let tap_packs := get_tap_packs env t in
      if bool_decide (t = "direct") && bool_decide (tap_packs = [])
      then write_taps env o rest isfirst
      else
        let direct_first := bool_decide (t = "direct") in
        flags ← (if negb (caskonly o) then
                   emit (first_tap_pack_write o isfirst direct_first true t);;
                   s ← get_state;
                   write_tap_brews o tap_packs (lists s.2 brew_list) direct_first;;
                   mret (false, false)
                 else mret (isfirst, true));
        if negb (is_mac env) then write_taps env o rest flags.1
        else
          s ← get_state;
          flags ← write_tap_casks o t (get_tap_casks env t)
                    (lists s.2 cask_list) flags.1 flags.2;
          write_taps env o rest flags.1
  end.

(** A section made of a banner and one line for each entry. *)
Definition section (banner : string) (lines : list string) : string :=
  banner +:+ String.concat "" lines.

(** [for p in self.brew_list] of the remaining packages. *)
Fixpoint write_brews (o : Opt) (l : list string) : M WS unit :=
  match l with
  | [] => mret tt
  | p :: rest =>
      opt ← list_opt_of p;
      emit (brew_line o p opt);;
      write_brews o rest
  end.

(** [for a in self.appstore_list] *)
Fixpoint write_appstore (o : Opt) (l : list string) : M WS unit :=
  match l with
  | [] => mret tt
  | a :: rest =>
      match mas_pack o a with
      | None => raise IndexError
      | Some m => emit (ln (cmd_appstore (cmds_of o) +:+ m));;
                  write_appstore o rest
      end
  end.

Definition nonempty {A} (l : list A) : bool :=
  match l with [] => false | _ => true end.

(** The sections written from lists that [write] does not consume. *)
Definition write_cask_nocask (o : Opt) (l : list string) : string :=
  section (Py.nl +:+ ln "# Below applications were installed by Cask,"
           +:+ ln "# but do not have corresponding casks." +:+ Py.nl)
    (map (fun c => ln (cmd_cask_nocask (cmds_of o) +:+ packout o c)) l).

Definition write_main (o : Opt) (l : list string) : string :=
  section (Py.nl +:+ ln "# Main file")
    (map (fun f => ln (cmd_main (cmds_of o) +:+ packout o f)) l).

Definition write_files (o : Opt) (files mains : list string) : string :=
  section (Py.nl +:+ ln "# Additional files")
    (map (fun f => ln (cmd_file (cmds_of o) +:+ packout o f))
       (List.filter (fun f => bool_decide (f ∉ mains)) files)).

Definition write_other (o : Opt) (l : list string) : string :=
  section (Py.nl +:+ ln "# Other commands")
    (map (fun c => ln (cmd_other (cmds_of o) +:+ c)) l).

Definition write_before (o : Opt) (l : list string) : string :=
  section (ln "# Before commands")
    (map (fun c => ln (cmd_before (cmds_of o) +:+ c)) l).

Definition write_after (o : Opt) (l : list string) : string :=
  section (Py.nl +:+ ln "# After commands")
    (map (fun c => ln (cmd_after (cmds_of o) +:+ c)) l).

(** The text [output] that [write] builds. *)
Definition write_output (env : Env) (o : Opt) : M WS unit :=
  lift_info (sort o);;
  s ← get_state;
  when (nonempty (lists s.2 before_input))
    (emit (write_before o (lists s.2 before_input)));;
  s ← get_state;
  write_taps env o (lists s.2 tap_list) true;;
  s ← get_state;
  when (negb (caskonly o) && nonempty (lists s.2 brew_list))
    (emit (Py.nl +:+ ln "# Other Homebrew packages");;
     write_brews o (lists s.2 brew_list));;
  when (is_mac env && nonempty (lists s.2 cask_list))
    (emit (section (Py.nl +:+ ln "# Other Cask applications")
             (map (fun c => ln (cmd_cask (cmds_of o) +:+ packout o c))
                (lists s.2 cask_list))));;
  when (is_mac env && nonempty (lists s.2 cask_nocask_list))
    (emit (write_cask_nocask o (lists s.2 cask_nocask_list)));;
  when (is_mac env && negb (bool_decide (appstore o = 0))
        && nonempty (lists s.2 appstore_list))
    (emit (Py.nl +:+ ln "# App Store applications");;
     write_appstore o (lists s.2 appstore_list));;
  when (nonempty (lists s.2 main_list))
    (emit (write_main o (lists s.2 main_list)));;
  when (bool_decide (length (lists s.2 main_list) < length (lists s.2 file_list))%nat)
    (emit (write_files o (lists s.2 file_list) (lists s.2 main_list)));;
  when (nonempty (lists s.2 cmd_input))
    (emit (write_other o (lists s.2 cmd_input)));;
  when (nonempty (lists s.2 after_input))
    (emit (write_after o (lists s.2 after_input))).

(** [BrewInfo.write]: the result is the text that replaces the file, [None]
    when [output] is empty and no file is written. The [chmod] that ends the
    method is an event of [BrewFile.write]. *)
Definition write (env : Env) (o : Opt) : M BrewInfo (option string) :=
  fun b =>
    match write_output env o ("", b) with
    | (Done _, (output, b')) =>
        (Done (if Py.is_empty output then None
               else Some (output_prefix o +:+ output)), b')
    | (Raised e, (_, b')) => (Raised e, b')
    | (Exited c, (_, b')) => (Exited c, b')
    end.

(** ** The manifest graph: class [BrewFile] *)

(** The documents are objects: [heap] gives the state of each, and
    [brewinfo] (the root), [brewinfo_main] and the members of
    [brewinfo_ext] are references into it, so that two of them may name the
    same document. *)
Record BrewFile := {
  opt : Opt;
  heap : nat -> BrewInfo;
  brewinfo : nat;
  brewinfo_main : nat;
  brewinfo_ext : list nat
}.

Definition set_opt (o : Opt) (f : BrewFile) : BrewFile :=
  {| opt := o; heap := heap f; brewinfo := brewinfo f;
     brewinfo_main := brewinfo_main f; brewinfo_ext := brewinfo_ext f |}.

(** The document [r] becomes [b]. *)
Definition store (r : nat) (b : BrewInfo) (f : BrewFile) : BrewFile :=
  {| opt := opt f;
     heap := fun i => if decide (i = r) then b else heap f i;
     brewinfo := brewinfo f;
     brewinfo_main := brewinfo_main f; brewinfo_ext := brewinfo_ext f |}.

(** A run of [BrewFile] works on the graph and adds to the events. *)
Definition World : Type := BrewFile * list Event.

Definition event (e : Event) : M World unit :=
  modify (fun w : World => (w.1, w.2 ++ [e])).

(** A method of the document [r]. *)
Definition on_doc {A} (r : nat) (m : M BrewInfo A) : M World A :=
  fun w : World =>
    let res := m (heap w.1 r) in (res.1, (store r res.2 w.1, w.2)).

Definition the_file : M World BrewFile := fun w : World => (Done w.1, w).

(** [BrewFile.get(name, only_ext)] on a list. *)
Definition get (f : BrewFile) (n : lname) (only_ext : bool) : list string :=
  (if only_ext then [] else lists (heap f (brewinfo_main f)) n)
  ++ concat (map (fun r => lists (heap f r) n) (brewinfo_ext f)).

(** [BrewFile.get(name, only_ext)] on a dictionary: the later documents
    override the earlier ones. *)
Definition get_dict (f : BrewFile) (n : dname) (only_ext : bool)
  : gmap string string :=
  foldl (fun acc r => dicts (heap f r) n ∪ acc)
    (if only_ext then ∅ else dicts (heap f (brewinfo_main f)) n)
    (brewinfo_ext f).

(** [BrewFile.remove_pack] *)
Definition remove_pack (n : lname) (package : string) : M World unit :=
  f ← the_file;
  if bool_decide (package ∈ lists (heap f (brewinfo_main f)) n)
  then on_doc (brewinfo_main f) (remove n package)
  else
    for_each (brewinfo_ext f)
      (fun r =>
         f ← the_file;
         when (bool_decide (package ∈ lists (heap f r) n))
           (on_doc r (remove n package))).

(** [BrewFile.list_to_main] *)
Definition list_to_main : M World unit :=
  f ← the_file;
  if bool_decide (brewinfo f = brewinfo_main f) then mret tt
  else
    let copy (dst src : lname) : M World unit :=
      f ← the_file;
      on_doc (brewinfo_main f)
        (modify (add dst (lists (heap f (brewinfo f)) src))) in
    copy brew_list brew_list;;
    copy brew_full_list brew_list;;
    copy tap_list tap_list;;
    copy cask_list cask_list;;
    copy cask_nocask_list cask_list;;
    copy appstore_list appstore_list;;
    f ← the_file;
    on_doc (brewinfo_main f)
      (modify (add_dict brew_list_opt (dicts (heap f (brewinfo f)) brew_list_opt))).

(** [BrewFile.input_to_list] *)
Definition input_to_list_all (only_ext : bool) : M World unit :=
  f ← the_file;
  when (negb only_ext) (on_doc (brewinfo_main f) (modify input_to_list));;
  for_each (brewinfo_ext f) (fun r => on_doc r (modify input_to_list)).

(** The first loop of [clean_list] for one document and one domain: the
    declared entries that are not installed leave the declaration. *)
Definition clean_input (r : nat) (input list_ : lname) : M World unit :=
  f0 ← the_file;
  for_each (lists (heap f0 r) input)
    (fun p =>
       f ← the_file;
       when (bool_decide (p ∉ lists (heap f (brewinfo f)) list_))
         (on_doc r (remove input p))).

(** The last loop of [clean_list] for one list of the main document: what
    the other documents declare leaves it. *)
Definition dedup (list_ input : lname) : M World unit :=
  f0 ← the_file;
  for_each (lists (heap f0 (brewinfo_main f0)) list_)
    (fun p =>
       f ← the_file;
       when (bool_decide (p ∈ get f input true))
         (on_doc (brewinfo_main f0) (remove list_ p))).

(** [BrewFile.clean_list] *)
Definition clean_list : M World unit :=
  f ← the_file;
  for_each (brewinfo_ext f ++ [brewinfo_main f])
    (fun r =>
       clean_input r brew_input brew_list;;
       clean_input r tap_input tap_list;;
       clean_input r cask_input cask_list;;
       clean_input r appstore_input appstore_list);;
  list_to_main;;
  dedup brew_list brew_input;;
  dedup cask_list cask_input;;
  dedup cask_nocask_list cask_input;;
  dedup appstore_list appstore_input;;
  f ← the_file;
  on_doc (brewinfo_main f)
    (modify (fun b => add main_list (lists b main_input) b));;
  on_doc (brewinfo_main f)
    (modify (fun b => add file_list (lists b file_input) b));;
  input_to_list_all true.

(** ** Asking the machine: [proc] and [get_list] *)

(** [BrewFile.proc(cmd, exit_on_err=...)]: the command is an event; with
    [exit_on_err] a command that fails ends the process with its code. *)
Definition proc (env : Env) (cmd : string) (exit_on_err : bool)
  : M World (Z * list string) :=
  fun w : World =>
    let r := proc_result env w.2 cmd in
    if exit_on_err && negb (bool_decide (r.1 = 0))
    then (Exited r.1,
          (w.1, w.2 ++ [Proc cmd; ErrLine ("Failed at command: " +:+ cmd)]))
    else (Done r, (w.1, w.2 ++ [Proc cmd])).

(** A command whose output is not used. *)
Definition run_proc (env : Env) (cmd : string) (exit_on_err : bool)
  : M World unit :=
  proc env cmd exit_on_err;; mret tt.

Definition lift_outcome {A} (r : outcome A) : M World A :=
  fun w : World => (r, w).

(** [d[k]] *)
Definition item (d : gmap string string) (k : string) : outcome string :=
  match d !! k with
  | Some v => Done v
  | None => Raised KeyError
  end.

(** The packages [get_list] keeps: all of them, the requested ones or the
    leaves, and those of [top_packages] that are installed. *)
Definition kept_packages (env : Env) (o : Opt) : list string :=
  let full_list := brew_list_formula env in
  let base :=
    if on_request o then
      map fst (List.filter
                 (fun x => bool_decide (installed_on_request x.2 ∈ [Some true; None]))
                 (get_info env))
    else if leaves o then get_leaves env
    else full_list in
  foldl (fun lv p =>
           if bool_decide (p = "") then lv
           else if bool_decide (p ∈ full_list) && bool_decide (p ∉ lv)
                then lv ++ [p] else lv)
    base (PyMore.split_on "," (top_packages o)).

(** [BrewFile.get_list(force_appstore_list)]. The queries it makes are
    answered by [env]. Its branch for the App Store level 2 reads the
    documents first; here they have been read. *)
Definition get_list (env : Env) (force_appstore_list : bool) : M World unit :=
  f ← the_file;
  let o := opt f in
  let root := brewinfo f in
  on_doc root (modify clear_list);;
  when (negb (caskonly o))
    (on_doc root (modify (set_list brew_full_list (brew_list_formula env)));;
     for_each (get_info env)
       (fun x =>
          when (bool_decide (x.1 ∈ kept_packages env o))
            (on_doc root
               (modify (fun b => dict_set brew_list_opt x.1 (options x.2)
                                   (append brew_list x.1 b))))));;
  on_doc root (modify (set_val tap_list (brew_tap env)));;
  on_doc root (modify (add tap_list ["direct"]));;
  when (is_mac env)
    (for_each (get_cask_list env)
       (fun p =>
          if bool_decide (length (Py.split p) = 1%nat)
          then on_doc root (modify (append cask_list p))
          else
            event (WarnLine ("The cask file of " +:+ p +:+ " doesn't exist."));;
            event (WarnLine "Please check later.");;
            on_doc root (modify (append cask_nocask_list p))));;
  when (is_mac env)
    (if bool_decide (appstore o = 1)
        || (bool_decide (appstore o = 2) && force_appstore_list)
     then on_doc root (modify (set_val appstore_list (get_appstore_list env)))
     else
       when (bool_decide (appstore o = 2))
         (f ← the_file;
          on_doc root
            (modify (set_val appstore_list (get f appstore_input false))))).

(** ** Converging to the declaration: [BrewFile.install] *)

(** [sorted(s.split())] *)
Definition sorted_tokens (s : string) : list string := Py.sort (Py.split s).

(** The choice the package loop makes for [p]: [None] where it continues
    without a command, else the sub-command of [brew]. *)
Definition install_verb (f : BrewFile) (p : string) : outcome (option string) :=
  if bool_decide (p ∈ get f brew_full_list false) then
    match get_dict f brew_list_opt false !! p with
    | None => Done None
    | Some lo =>
        match get_dict f brew_input_opt false !! p with
        | None => Raised KeyError
        | Some io =>
            if bool_decide (sorted_tokens io = sorted_tokens lo)
            then Done None else Done (Some "reinstall")
        end
    end
  else Done (Some "install").

(** The lines of the output of an installation that ask for a link. *)
Definition replay_links (env : Env) (o : Opt) (lines : list string)
  : M World unit :=
  for_each lines
    (fun line =>
       when (Py.contains "ln -s" line && link o)
         (run_proc env (Py.join " " (map (expandpath env) (Py.split line))) true);;
       when (Py.contains "brew linkapps" line && link o)
         (run_proc env "brew linkapps" true)).

(** The body of the package loop; the result tells whether [reinit] is set. *)
Definition install_pack (env : Env) (p : string) : M World bool :=
  f ← the_file;
  v ← lift_outcome (install_verb f p);
  match v with
  | None => mret false
  | Some cmd =>
      io ← lift_outcome (item (get_dict f brew_input_opt false) p);
      r ← proc env ("brew " +:+ cmd +:+ " " +:+ p +:+ io) true;
      if negb (bool_decide (r.1 = 0)) then
        event (WarnLine ("Can not install " +:+ p +:+ "."
                         +:+ "Please check the package name."));;
        mret false
      else
        replay_links env (opt f) r.2;;
        f ← the_file;
        if bool_decide (p ∈ get f brew_list false) then
          io ← lift_outcome (item (get_dict f brew_input_opt false) p);
          lo ← lift_outcome (item (get_dict f brew_list_opt false) p);
          if bool_decide (io = lo) then mret false
          else
            on_doc (brewinfo f)
              (modify (add_dict brew_input_opt {[ p := get_option env p ]}));;
            mret true
        else mret false
  end.

(** [for p in self.get("brew_input")] *)
Fixpoint install_packs (env : Env) (l : list string) (reinit : bool)
  : M World bool :=
  match l with
  | [] => mret reinit
  | p :: rest =>
      r ← install_pack env p;
      install_packs env rest (reinit || r)
  end.

(** The identifier and the name of a store application as [install] reads
    them: the identifier counts when it has nine digits or more. *)
Definition app_of_install (p : string) : outcome (string * string) :=
  match Py.split p with
  | [] => Raised IndexError
  | identifier :: name =>
      if Py.isdigit identifier && bool_decide (9 <= String.length identifier)%nat
      then Done (identifier, Py.join " " name)
      else Done ("", p)
  end.

(** The search of [install] through [appstore_list]: the names are
    compared. *)
Fixpoint app_in_list (package : string) (l : list string) : outcome bool :=
  match l with
  | [] => Done false
  | pl :: rest =>
      match app_of_install pl with
      | Done (l_identifier, l_package) =>
          if bool_decide (package = l_package) then Done true
          else app_in_list package rest
      | Raised e => Raised e
      | Exited c => Exited c
      end
  end.

(** The body of the App Store loop. *)
Definition install_app (env : Env) (p : string) : M World unit :=
  f ← the_file;
  if bool_decide (p ∈ get f appstore_list false) then mret tt
  else
    a ← lift_outcome (app_of_install p);
    islist ← lift_outcome (app_in_list a.2 (get f appstore_list false));
    if islist : bool then mret tt
    else
      event (InfoLine ("Installing " +:+ a.2));;
      if negb (Py.is_empty a.1) then
        if bool_decide (check_mas_cmd env = 1) then
          run_proc env (mas_cmd (opt f) +:+ " purchase " +:+ a.1) true
        else
          event (InfoLine ("Please install " +:+ a.2 +:+ " from AppStore."));;
          run_proc env
            ("open -W 'macappstore://itunes.apple.com/app/id" +:+ a.1 +:+ "'")
            true
      else
        event (WarnLine
                 ("No id or wrong id information was given for AppStore App: "
                  +:+ a.2 +:+ "." +:+ Py.nl +:+ "Please install it manually.")).

(** [BrewFile.write] *)
Definition write_all (env : Env) : M World unit :=
  f ← the_file;
  let one (r : nat) : M World unit :=
    f ← the_file;
    event (BannerLine ("# Initialize " +:+ filename (heap f r)));;
    t ← on_doc r (write env (opt f));
    match t with
    | Some text => event (FileWrite (filename (heap f r)) text)
    | None => mret tt
    end;;
    event (Chmod (if is_command (opt f) then "755" else "644")
             (filename (heap f r))) in
  one (brewinfo_main f);;
  for_each (brewinfo_ext f) one.

(** [BrewFile.initialize_write] *)
Definition initialize_write (env : Env) : M World unit :=
  write_all env;;
  f ← the_file;
  event (BannerLine ("# You can edit " +:+ filename (heap f (brewinfo f))));;
  modify (fun w : World => (set_opt (set_initialized true (opt w.1)) w.1, w.2)).

(** The phases of [install] once the installed state and the documents
    have been read. *)
Definition install_body (env : Env) : M World Z :=
  f ← the_file;
  for_each (get f before_input false) (fun c => run_proc env c true);;
  for_each (get f tap_input false)
    (fun p =>
       f ← the_file;
       if bool_decide (p ∈ get f tap_list false) || bool_decide (p = "direct")
       then mret tt else run_proc env ("brew tap " +:+ p) true);;
  when (is_mac env)
    (for_each (get f cask_input false)
       (fun p =>
          f ← the_file;
          if bool_decide (p ∈ get f cask_list false) then mret tt
          else run_proc env ("brew install --cask --force " +:+ p) true));;
  reinit ← (if negb (caskonly (opt f))
            then install_packs env (get f brew_input false) false
            else mret false);
  when (is_mac env && negb (bool_decide (appstore (opt f) = 0)))
    (f ← the_file;
     for_each (get f appstore_input false) (install_app env));;
  f ← the_file;
  for_each (get f cmd_input false) (fun c => run_proc env c true);;
  for_each (get f after_input false) (fun c => run_proc env c true);;
  when (mas_cmd_installed (opt f) || reattach_cmd_installed (opt f) || reinit)
    (modify (fun w : World =>
               (set_opt (set_mas_cmd_installed
                           (reattach_cmd_installed (opt w.1)) (opt w.1)) w.1,
                w.2));;
     input_to_list_all false;;
     initialize_write env);;
  mret 0.

(** [BrewFile.install], from documents that [read_all] has read. *)
Definition install (env : Env) : M World Z :=
  get_list env true;;
  install_body env.

(** ** Removing what is not declared: [BrewFile.cleanup] *)

(** [info[package]] *)
Definition info_of (env : Env) (package : string) : option PackInfo :=
  snd <$> List.find (fun x => bool_decide (x.1 = package)) (get_info env).

(** The inner function [add_dependncies]: the installed dependencies of a
    declared package are declared in the root document. [depth] is the
    depth of recursion the interpreter still allows. *)
Fixpoint add_dependncies (env : Env) (depth : nat) (package : string)
  : M World unit :=
  match depth with
  | O => raise RecursionError
  | S depth' =>
      match info_of env package with
      | None => raise KeyError
      | Some i =>
          for_each (dependencies i)
            (fun pac =>
               let p := PyMore.after_last "/" pac in
               f ← the_file;
               if bool_decide (is_Some (info_of env p))
                  && bool_decide (p ∉ get f brew_input false)
               then
                 on_doc (brewinfo f)
                   (modify (fun b => dict_set brew_input_opt p ""
                                       (append brew_input p b)));;
                 add_dependncies env depth' p
               else mret tt)
      end
  end.

(** [re.match(r".*\(\d+\.\d+.*\)$", package)]: the end of a match, from
    the second run of digits on. *)
Fixpoint version_tail (s : string) : bool :=
  match s with
  | EmptyString => false
  | String c s' =>
      (Ascii.eqb c ")" && (Py.is_empty s' || bool_decide (s' = Py.nl)))
      || (negb (Ascii.eqb c "010") && version_tail s')
  end.

(** A match that starts at the parenthesis: [seen] tells whether a digit
    of the first run has been read. *)
Fixpoint version_digits (seen : bool) (s : string) : bool :=
  match s with
  | EmptyString => false
  | String c s' =>
      if Py.is_decimal c then version_digits true s'
      else seen && Ascii.eqb c "." &&
           match s' with
           | String d s'' => Py.is_decimal d && version_tail s''
           | EmptyString => false
           end
  end.

Fixpoint match_version (s : string) : bool :=
  match s with
  | EmptyString => false
  | String c s' =>
      (Ascii.eqb c "(" && version_digits false s')
      || (negb (Ascii.eqb c "010") && match_version s')
  end.

(** The identifier and the name of a store application as [cleanup] reads
    them: a version in parentheses that ends the name is cut. *)
Definition app_of_cleanup (p : string) : outcome (string * string) :=
  match Py.split p with
  | [] => Raised IndexError
  | identifier :: name =>
      let a := if Py.isdigit identifier
               then (identifier, Py.join " " name) else ("", p) in
      Done (a.1, if match_version a.2 then PyMore.before_last " " a.2 else a.2)
  end.

(** The search of [cleanup] through [appstore_input]: equal identifiers
    match, and so do equal names. *)
Fixpoint app_in_input (identifier package : string) (l : list string)
  : outcome bool :=
  match l with
  | [] => Done false
  | pi :: rest =>
      match app_of_cleanup pi with
      | Done (i_identifier, i_package) =>
          if (negb (Py.is_empty identifier)
              && bool_decide (identifier = i_identifier))
             || bool_decide (package = i_package)
          then Done true
          else app_in_input identifier package rest
      | Raised e => Raised e
      | Exited c => Exited c
      end
  end.

(** [if dryrun: print(cmd) else: self.proc(cmd, exit_on_err=...)] *)
Definition print_or_proc (env : Env) (o : Opt) (cmd : string)
    (exit_on_err : bool) : M World unit :=
  if dryrun o then event (PrintLine cmd) else run_proc env cmd exit_on_err.

(** The body of the App Store loop of [cleanup]. The result of
    [type uninstall] is a pair, which never equals 0, so the command is
    [sudo rm -rf]. *)
Definition cleanup_app (env : Env) (p : string) : M World unit :=
  f ← the_file;
  a ← lift_outcome (app_of_cleanup p);
  isinput ← lift_outcome (app_in_input a.1 a.2 (get f appstore_input false));
  if isinput : bool then mret tt
  else
    if negb (Py.is_empty a.1) && bool_decide (check_mas_cmd env = 1) then
      print_or_proc env (opt f)
        ("sudo " +:+ mas_cmd (opt f) +:+ " uninstall " +:+ a.1) false;;
      remove_pack appstore_list p
    else
      run_proc env "type uninstall" false;;
      let tmpcmd := "sudo rm -rf" in
      let cmd :=
        foldl (fun cmd d =>
                 let app := d +:+ "/" +:+ a.2 +:+ ".app" in
                 if isdir env app then cmd +:+ " '" +:+ app +:+ "'" else cmd)
          tmpcmd (appdirlist (opt f)) in
      if bool_decide (cmd = tmpcmd) then
        event (WarnLine ("Package " +:+ a.2 +:+ " was not found:"
                         +:+ "nothing to do."));;
        remove_pack appstore_list p
      else
        print_or_proc env (opt f) cmd false;;
        remove_pack appstore_list p.

(** The body of the package loop of [cleanup]. *)
Definition cleanup_pack (env : Env) (p : string) : M World unit :=
  f ← the_file;
  if bool_decide (p ∈ get f brew_input false) then mret tt
  else
    print_or_proc env (opt f)
      ("brew uninstall --ignore-dependencies " +:+ p) true.

(** Whether the tap [p] stays because something it holds is declared. *)
Definition tap_in_use (env : Env) (f : BrewFile) (p : string) : bool :=
  existsb (fun tp => bool_decide (tp ∈ get f brew_input false))
    (get_tap_packs env p)
  || (is_mac env
      && existsb (fun tc => bool_decide (tc ∈ get f cask_input false))
           (get_tap_casks env p)).

(** The body of the tap loop of [cleanup]. *)
Definition cleanup_tap (env : Env) (p : string) : M World unit :=
  f ← the_file;
  if bool_decide (p ∈ get f tap_input false) then mret tt
  else if tap_in_use env f p then mret tt
  else print_or_proc env (opt f) ("brew untap " +:+ p) true.

(** The phases of [cleanup] once the installed state and the documents
    have been read. *)
Definition cleanup_body (env : Env) (depth : nat) : M World unit :=
  f ← the_file;
  for_each (get f brew_input false)
    (fun p =>
       if bool_decide (is_Some (info_of env p))
       then add_dependncies env depth p else mret tt);;
  f ← the_file;
  when (bool_decide (appstore (opt f) = 1)
        && nonempty (get f appstore_list false))
    (event (BannerLine "# Clean up App Store applications");;
     for_each (get f appstore_list false) (cleanup_app env));;
  f ← the_file;
  when (is_mac env && nonempty (get f cask_list false))
    (event (BannerLine "# Clean up cask packages");;
     for_each (get f cask_list false)
       (fun p =>
          f ← the_file;
          if bool_decide (p ∈ get f cask_input false) then mret tt
          else
            print_or_proc env (opt f) ("brew uninstall " +:+ p) true;;
            remove_pack cask_list p));;
  f ← the_file;
  when (is_mac env && nonempty (get f cask_list false))
    (remove_pack tap_list (cask_repo (opt f)));;
  f ← the_file;
  when (nonempty (get f brew_list false))
    (event (BannerLine "# Clean up brew packages");;
     for_each (get f brew_list false) (cleanup_pack env));;
  f ← the_file;
  when (nonempty (get f tap_list false))
    (event (BannerLine "# Clean up tap packages");;
     for_each (get f tap_list false) (cleanup_tap env));;
  event (BannerLine "# Clean up cache");;
  print_or_proc env (opt f) "brew cleanup" true;;
  print_or_proc env (opt f) ("rm -rf " +:+ brew_cache env) true;;
  when (dryrun (opt f)) (event (BannerLine "# This is dry run.")).

(** [BrewFile.cleanup], from documents that [read_all] has read. *)
Definition cleanup (env : Env) (depth : nat) : M World unit :=
  f ← the_file;
  when (dryrun (opt f)) (event (BannerLine "# This is dry run."));;
  get_list env false;;
  cleanup_body env depth.

(** * Notions used in the statements *)

(** A machine for the examples: macOS, [mas] at hand, no tap on disk, every
    command succeeds without output. *)
Definition quiet_env : Env :=
  {| is_mac := true;
     get_tap_packs := fun _ => [];
     get_tap_casks := fun _ => [];
     expandpath := fun x => x;
     isdir := fun _ => false;
     check_mas_cmd := 1;
     brew_cache := "/cache";
     get_option := fun _ => "";
     proc_result := fun _ _ => (0, []);
     get_info := [];
     brew_list_formula := [];
     get_leaves := [];
     brew_tap := [];
     get_cask_list := [];
     get_appstore_list := [] |}.

(** The state in which the first document of a process is read. *)
Definition fresh : RS := (default_opt, new_BrewInfo "Brewfile").

(** Every list of [b'] starts with the list of the same name of [b]. *)
Definition grows (b b' : BrewInfo) : Prop :=
  forall n, exists l, lists b' n = lists b n ++ l.

(** A step of [read] that only adds to the lists. *)
Definition Grows {A} (m : M RS A) : Prop :=
  forall s, grows s.2 (m s).2.2.

(** The token that decides the domain of a line: [cmd] at the end of the
    loop of [read]. It is the first token, or the second one when the line
    has more than two tokens and the second is [tap] or [cask]. *)
Definition directive (line : string) : option string :=
  match line_args line with
  | [] => None
  | _ :: _ => Some (nth 0 (final_args line) "")
  end.

(** The directives [read] knows. *)
Definition recognized (cmd : string) : bool :=
  bool_decide (cmd ∈ ["brew"; "install"; "tap"; "tapall"; "cask"; "mas";
                      "appstore"; "main"; "file"; "before"; "after"])
  || bool_decide (Py.lower cmd = "brewfile").

(** The section of raw commands with every command as it was read. *)
Definition verbatim_section (l : list string) : string :=
  section (Py.nl +:+ ln "# Other commands") (map ln l).

(** The sixth claim of the specification as it is worded: no line makes
    [read] raise, a line whose first token is no directive is a raw command,
    and raw commands are written as they were read. *)
Definition never_raises_and_verbatim : Prop :=
  (forall env line s, exists s', read_lines env false [line] s = (Done tt, s'))
  /\ (forall env line o b cmd rest,
        line_args line = cmd :: rest -> recognized cmd = false ->
        match_blank line || match_comment line = false ->
        exists o', parse_line env line (o, b)
                   = (Done tt, (o', append cmd_input (Py.strip line) b)))
  /\ (forall o l, write_other o l = verbatim_section l).

(** A step of [read] that returns. *)
Definition Returns (m : M RS unit) : Prop :=
  forall s, exists s', m s = (Done tt, s').

(** The options of a process that writes the bundle dialect, and of one
    that writes the command dialect. *)
Definition bundle_opt : Opt := set_form "bundle" default_opt.
Definition command_opt : Opt := set_form "cmd" default_opt.

(** What [write] puts before a raw command. *)
Definition other_prefix (o : Opt) : string :=
  if is_bundle o then "#" else "".

(** Two states of the graph with the same options and the same references. *)
Definition same_graph (f f' : BrewFile) : Prop :=
  opt f' = opt f /\ brewinfo f' = brewinfo f
  /\ brewinfo_main f' = brewinfo_main f /\ brewinfo_ext f' = brewinfo_ext f.

(** From [f] to [f'] no list changes but those that [C] names. *)
Definition frame (C : nat -> lname -> Prop) (f f' : BrewFile) : Prop :=
  same_graph f f'
  /\ forall i m, ~ C i m -> lists (heap f' i) m = lists (heap f i) m.

(** A run of [BrewFile] that, on a graph with the references of [G],
    returns, adds no event and changes no list but those that [C] names. *)
Definition Frames (G : BrewFile) (C : nat -> lname -> Prop) (m : M World unit)
  : Prop :=
  forall w, same_graph G w.1 ->
    exists f', m w = (Done tt, (f', w.2)) /\ frame C w.1 f'.

(** The loop that removes from the list [n] of the document [r] the
    entries that [P] selects. *)
Definition remove_loop (r : nat) (n : lname) (P : BrewFile -> string -> bool)
    (snapshot : list string) : M World unit :=
  for_each snapshot
    (fun p => f ← the_file; when (P f p) (on_doc r (remove n p))).

(** Nothing that a document other than the main one declares in [input] is
    in the list [list_] of the main document. *)
Definition no_duplicate (list_ input : lname) (f : BrewFile) : Prop :=
  forall r p, r ∈ brewinfo_ext f ->
    p ∈ lists (heap f r) input ->
    p ∉ lists (heap f (brewinfo_main f)) list_.

(** A graph for the examples: the root is the main document, it holds the
    installed state and declares [x]; one more document declares [x] too. *)
Definition two_documents : BrewFile :=
  {| opt := default_opt;
     heap := fun i =>
       if decide (i = 0%nat)
       then set_list brew_list ["x"; "y"]
              (set_list brew_input ["x"] (new_BrewInfo "Brewfile"))
       else set_list brew_input ["x"; "z"] (new_BrewInfo "Brewfile.ext");
     brewinfo := 0; brewinfo_main := 0; brewinfo_ext := [1%nat] |}.

(** A machine that differs from [quiet_env] in the platform, the installed
    formulas, the leaves, the store applications and the answers to
    commands. *)
Definition machine (mac : bool) (info : list (string * PackInfo))
    (formulas leaves_ apps : list string)
    (answer : list Event -> string -> Z * list string) : Env :=
  {| is_mac := mac;
     get_tap_packs := fun _ => [];
     get_tap_casks := fun _ => [];
     expandpath := fun x => x;
     isdir := fun _ => false;
     check_mas_cmd := 1;
     brew_cache := "/cache";
     get_option := fun _ => "";
     proc_result := answer;
     get_info := info;
     brew_list_formula := formulas;
     get_leaves := leaves_;
     brew_tap := [];
     get_cask_list := [];
     get_appstore_list := apps |}.

(** The graph of a process that has read one file, the text [text], with
    the options [o]. *)
Definition graph_of (o : Opt) (text : string) : BrewFile :=
  let r := read quiet_env (Some text) (o, new_BrewInfo "Brewfile") in
  {| opt := r.2.1; heap := fun _ => r.2.2;
     brewinfo := 0; brewinfo_main := 0; brewinfo_ext := [] |}.

Definition pack (opts : string) : PackInfo :=
  {| installed_on_request := Some true; options := opts; dependencies := [] |}.

(** Every command succeeds without output. *)
Definition all_succeed : list Event -> string -> Z * list string :=
  fun _ _ => (0, []).

(** The installation of [bad] fails with the code 1. *)
Definition bad_fails : list Event -> string -> Z * list string :=
  fun _ c => if bool_decide (c = "brew install bad") then (1, []) else (0, []).

(** The commands among the events. *)
Definition commands (log : list Event) : list string :=
  omap (fun e => match e with Proc c => Some c | _ => None end) log.




(** A machine where [vim] alone is installed, with [--with-python]. *)
Definition vim_with_python (answer : list Event -> string -> Z * list string)
  : Env :=
  machine true [("vim", pack " --with-python")] ["vim"] ["vim"] [] answer.





(** A command is queued by a run when the run prints it (the dry run) or
    gives it to [proc]. *)
Definition queued (cmd : string) (log : list Event) : Prop :=
  PrintLine cmd ∈ log \/ Proc cmd ∈ log.

Definition untap (R : string) : string := "brew untap " +:+ R.

Definition uninstall (P : string) : string :=
  "brew uninstall --ignore-dependencies " +:+ P.

(** The third claim of the specification as it is worded, for one machine
    and one graph: a tap is removed only if nothing that it provides, package
    or GUI package, is declared in a document. *)
Definition untaps_only_unused (env : Env) (depth : nat) (f : BrewFile) : Prop :=
  forall R,
    queued (untap R) (cleanup env depth (f, [])).2.2 ->
    (forall tp, tp ∈ get_tap_packs env R -> tp ∉ get f brew_input false)
    /\ (forall tc, tc ∈ get_tap_casks env R -> tc ∉ get f cask_input false).

(** A machine that is not a Mac, with the tap [u/r] that holds the cask
    [c] and no formula. *)
Definition linux_with_tap : Env :=
  {| is_mac := false;
     get_tap_packs := fun _ => [];
     get_tap_casks := fun t => if bool_decide (t = "u/r") then ["c"] else [];
     expandpath := fun x => x;
     isdir := fun _ => false;
     check_mas_cmd := 0;
     brew_cache := "/cache";
     get_option := fun _ => "";
     proc_result := all_succeed;
     get_info := [];
     brew_list_formula := [];
     get_leaves := [];
     brew_tap := ["u/r"];
     get_cask_list := [];
     get_appstore_list := [] |}.

(** What [cleanup] lets a tap go for: it is not declared, no formula that
    it holds is declared and, on a Mac, no cask that it holds is declared. *)
Definition unused_tap (env : Env) (f : BrewFile) (R : string) : Prop :=
  (R ∉ get f tap_input false)
  /\ (forall tp, tp ∈ get_tap_packs env R -> tp ∉ get f brew_input false)
  /\ (is_mac env = true ->
      forall tc, tc ∈ get_tap_casks env R -> tc ∉ get f cask_input false).

(** The declarations of [f0] as a later state [f] of the run has them: the
    taps and the casks are the same, the packages can only be more. *)
Definition declared_since (f0 f : BrewFile) : Prop :=
  same_graph f0 f
  /\ forall i,
       lists (heap f i) tap_input = lists (heap f0 i) tap_input
       /\ lists (heap f i) cask_input = lists (heap f0 i) cask_input
       /\ lists (heap f0 i) brew_input ⊆ lists (heap f i) brew_input.

(** An event that does not remove a tap. *)
Definition no_untap (e : Event) : Prop :=
  forall R, e <> PrintLine (untap R) /\ e <> Proc (untap R).

(** An event that does not remove a package, and that removes a tap only
    if the tap is unused in [f0]. *)
Definition late_event (env : Env) (f0 : BrewFile) (e : Event) : Prop :=
  (forall P, e <> PrintLine (uninstall P) /\ e <> Proc (uninstall P))
  /\ forall R, e = PrintLine (untap R) \/ e = Proc (untap R) ->
               unused_tap env f0 R.

(** A run that keeps the property [I] of the graph and whose events all
    satisfy [P], however it ends. *)
Definition Run {A} (I : BrewFile -> Prop) (P : Event -> Prop) (m : M World A)
  : Prop :=
  forall w, I w.1 ->
    I (m w).2.1 /\ exists E, (m w).2.2 = w.2 ++ E /\ Forall P E.

(** A run that keeps [I] and whose events are some that satisfy [P1]
    followed by some that satisfy [P2]. *)
Definition Run2 {A} (I : BrewFile -> Prop) (P1 P2 : Event -> Prop)
    (m : M World A) : Prop :=
  forall w, I w.1 ->
    I (m w).2.1
    /\ exists E1 E2, (m w).2.2 = w.2 ++ E1 ++ E2 /\ Forall P1 E1 /\ Forall P2 E2.

(** A machine with the tap [u/r] that holds the formula [p], which is
    installed. *)
Definition tap_with_package : Env :=
  {| is_mac := true;
     get_tap_packs := fun t => if bool_decide (t = "u/r") then ["p"] else [];
     get_tap_casks := fun _ => [];
     expandpath := fun x => x;
     isdir := fun _ => false;
     check_mas_cmd := 1;
     brew_cache := "/cache";
     get_option := fun _ => "";
     proc_result := all_succeed;
     get_info := [("p", pack "")];
     brew_list_formula := ["p"];
     get_leaves := ["p"];
     brew_tap := ["u/r"];
     get_cask_list := [];
     get_appstore_list := [] |}.

(** ** The round trip of [read] and [write] *)

Definition not_eol (c : ascii) : bool :=
  negb (Ascii.eqb c "010") && negb (Ascii.eqb c "013").

Definition one_line (s : string) : bool := Py.forallb_str not_eol s.

Definition unlines (ls : list string) : string :=
  foldr (fun l acc => ln l +:+ acc) "" ls.

Definition no_space (s : string) : bool :=
  Py.forallb_str (fun c => negb (Py.is_space c)) s.

Definition plain_char (c : ascii) : bool :=
  negb (Py.is_space c)
  && negb (bool_decide (c ∈ ["'"; dquote; ","; "["; "]"]%char)).

Definition word (s : string) : bool :=
  negb (Py.is_empty s) && Py.forallb_str plain_char s.

Definition unquote (s : string) : string :=
  Py.replace "]" ""
    (Py.replace "[" ""
       (Py.replace "," " " (Py.replace dquote "" (Py.replace "'" "" s)))).

(** A line of the text that [write] builds for a document that declares
    packages, taps and casks. *)
Inductive wline :=
| WBlank
| WBanner (s : string)
| WTap (t : string)
| WBrew (p opt : string)
| WCask (c : string).

Definition render (o : Opt) (w : wline) : string :=
  match w with
  | WBlank => ""
  | WBanner s => s
  | WTap t => cmd_tap (cmds_of o) +:+ packout o t
  | WBrew p opt =>
      cmd_install (cmds_of o) +:+ packout o p +:+ convert_option o opt
  | WCask c => cmd_cask (cmds_of o) +:+ packout o c
  end.

Definition text_of (o : Opt) (wls : list wline) : string :=
  unlines (map (render o) wls).

Definition banners : list string :=
  ["# tap repositories and their packages"; "## Direct install";
   "# Other Homebrew packages"; "# Other Cask applications"].

Definition package_name (p : string) : bool :=
  word p && negb (bool_decide (p ∈ ["tap"; "cask"; "install"])).

Definition opt_ok (opt : string) : bool :=
  match opt with
  | EmptyString => true
  | String c r => Ascii.eqb c " " && one_line r
  end.

Definition wline_ok (o : Opt) (w : wline) : Prop :=
  match w with
  | WBlank => True
  | WBanner s => s ∈ banners
  | WTap t => word t = true
  | WBrew p opt => package_name p = true /\ opt_ok opt = true
  | WCask c => word c = true /\ is_command o = false
  end.

Definition contrib (w : wline) (n : lname) : list string :=
  match w with
  | WTap t => if decide (n = tap_input) then [t] else []
  | WBrew p _ => if decide (n = brew_input) then [p] else []
  | WCask c => if decide (n = cask_input) then [c] else []
  | _ => []
  end.

Definition is_sep (c : ascii) : bool := Py.is_space c || Ascii.eqb c ",".

(** The entries of the domain [n] that the lines [wls] declare. *)
Definition written (wls : list wline) (n : lname) : list string :=
  wls ≫= (fun w => contrib w n).

(** A step of [write] that returns [a], adds the lines [wls] to the output
    and takes the document from [b] to [b']. *)
Definition Writes {A} (o : Opt) (m : M WS A) (b : BrewInfo) (a : A)
    (wls : list wline) (b' : BrewInfo) : Prop :=
  forall out, m (out, b) = (Done a, (out +:+ text_of o wls, b')).

(** What [write] needs of the lists it consumes. *)
Definition Doc (env : Env) (o : Opt) (b : BrewInfo) : Prop :=
  NoDup (lists b brew_list)
  /\ (forall p, p ∈ lists b brew_list ->
        package_name p = true
        /\ exists opt, dicts b brew_list_opt !! p = Some opt /\ opt_ok opt = true)
  /\ (is_mac env = true -> forall c, c ∈ lists b cask_list ->
        word c = true /\ is_command o = false).

(** The lines of the preamble of the command dialect. *)
Definition command_prefix_lines : list string :=
  ["#!/usr/bin/env bash"; ""; "#BREWFILE_IGNORE";
   "if ! which brew >& /dev/null;then"; "  brew_installed=0";
   "  echo Homebrew is not installed!"; "  echo Install now...";
   "  echo /bin/bash -c \" +:+ String dquote "\$\(curl -fsSL";
   "https://raw.githubusercontent.com/Homebrew/";
   "install/master/install.sh\)\  /bin/bash -c " +:+ String dquote "$(curl -fsSL";
   "https://raw.githubusercontent.com/Homebrew/";
   "install/master/install.sh)  echo"; "fi"; "#BREWFILE_ENDIGNORE"; ""].

Definition prefix_lines (o : Opt) : list string :=
  if is_bundle o then [] else if is_command o then command_prefix_lines else [].

(** A step of [read] whose result is related by [R] to the state it starts
    from. *)
Definition Stable {A} (R : RS -> RS -> Prop) (m : M RS A) : Prop :=
  forall s, R s (m s).2.

(** Every declared package has its options, and the options fit on the
    line of the package. *)
Definition keyed (b : BrewInfo) : Prop :=
  (forall p, p ∈ lists b brew_input -> is_Some (dicts b brew_input_opt !! p))
  /\ (forall p opt, dicts b brew_input_opt !! p = Some opt -> opt_ok opt = true).

(** What [read] keeps: the option [caskonly], and [keyed]. *)
Definition read_keeps (s s' : RS) : Prop :=
  caskonly s'.1 = caskonly s.1 /\ (keyed s.2 -> keyed s'.2).

(** Two documents with the same input lists. *)
Definition same_inputs (b b' : BrewInfo) : Prop :=
  forall n, n ∈ input_names -> lists b n = lists b' n.

(** A step of [read] whose result and input lists depend on the input lists
    only. *)
Definition Sim {A} (m : M RS A) : Prop :=
  forall s s', same_inputs s.2 s'.2 ->
    (m s).1 = (m s').1 /\ same_inputs (m s).2.2 (m s').2.2.

(** The entry set of a domain: the identifiers it holds, whatever their
    order, their number and their options. *)
Definition entries (b : BrewInfo) (n : lname) : gset string :=
  list_to_set (lists b n).

(** [read] of a file by the first document of a process. *)
Definition first_read (env : Env) (o : Opt) (content : string)
  : outcome (option bool) * RS :=
  read env (Some content) (o, new_BrewInfo "Brewfile").

(** [read], then [input_to_list] and [write], then [read] of the file as
    [write] leaves it: the text it has written or, when the output is empty
    and no file is written, the text that was there. *)
Definition round_trip (env : Env) (o : Opt) (content : string)
  : outcome (option bool) * RS :=
  let r := first_read env o content in
  match r.1 with
  | Done _ =>
      let w := write env r.2.1 (input_to_list r.2.2) in
      match w.1 with
      | Done t => read env (Some (default content t)) (r.2.1, w.2)
      | Raised e => (Raised e, (r.2.1, w.2))
      | Exited c => (Exited c, (r.2.1, w.2))
      end
  | Raised e => (Raised e, r.2)
  | Exited c => (Exited c, r.2)
  end.

(** The round trip returns and gives back the entry sets of [domains]. *)
Definition reproduces (env : Env) (o : Opt) (content : string)
    (domains : list lname) : Prop :=
  (round_trip env o content).1 = Done None
  /\ forall n, n ∈ domains ->
       entries (round_trip env o content).2.2 n
       = entries (first_read env o content).2.2 n.

(** The domains other than the casks. *)
Definition but_casks : list lname :=
  [brew_input; tap_input; appstore_input; main_input; file_input;
   before_input; after_input; cmd_input].

(** A document that declares packages, taps and casks only: each package
    once, under a name that is one plain word and none of [tap], [cask] and
    [install]; the taps and, on macOS, the casks under names of one plain
    word; and, on macOS, no cask when the dialect is the command one. *)
Definition simple_manifest (env : Env) (o : Opt) (b : BrewInfo) : bool :=
  bool_decide (NoDup (lists b brew_input))
  && forallb package_name (lists b brew_input)
  && forallb word (lists b tap_input)
  && (negb (is_mac env)
      || forallb (fun c => word c && negb (is_command o)) (lists b cask_input))
  && forallb (fun n => bool_decide (lists b n = []))
       [appstore_input; main_input; file_input; before_input; after_input;
        cmd_input].

(** A manifest of the bundle dialect: a tap, a package of the tap with an
    option, a package of no tap and a cask. *)
Definition bundle_manifest : string :=
  ln "tap 'u/r'" +:+ ln "brew 'p', args: ['with-x']" +:+ ln "brew 'git'"
  +:+ ln "cask 'firefox'".

(** A manifest of the bundle dialect with a raw command. *)
Definition bundle_with_command : string :=
  ln "brew 'vim'" +:+ ln "echo hello".

(** ** Order *)

(** A list in which every entry is at most each of those that follow it,
    in the order of [str]. *)
Fixpoint ascending (l : list string) : Prop :=
  match l with
  | [] => True
  | x :: l' => (forall y, y ∈ l' -> String.leb x y = true) /\ ascending l'
  end.

(** The lists that [sort] orders in place. *)
Definition sorted_in_place : list lname :=
  [brew_list; brew_full_list; cask_list; main_list; file_list;
   cask_nocask_list].

(** A graph of one document in which [vim] is installed with the options
    [lo] and declared with the options [io]. *)
Definition vim_declared (io lo : string) : BrewFile :=
  {| opt := default_opt;
     heap := fun _ =>
       set_list brew_full_list ["vim"]
         (set_list brew_list ["vim"]
            (set_dict brew_list_opt {[ "vim" := lo ]}
               (set_dict brew_input_opt {[ "vim" := io ]}
                  (set_list brew_input ["vim"] (new_BrewInfo "Brewfile")))));
     brewinfo := 0; brewinfo_main := 0; brewinfo_ext := [] |}.

(** From [s] to [s'] no option changes but the dialect; the dialect
    changes only if it is [none], and then to [cmd] or [bundle]. *)
Definition dialect_only (s s' : RS) : Prop :=
  s'.1 = set_form (form s'.1) s.1
  /\ (form s.1 <> "none" -> s'.1 = s.1)
  /\ (form s'.1 = form s.1 \/ form s'.1 ∈ ["cmd"; "bundle"]).

(** The options that name the flags [ws]: each word after two dashes, a
    space before each. *)
Definition flags (ws : list string) : string :=
  match ws with
  | [] => ""
  | _ => " " +:+ Py.join " " (map (String.append "--") ws)
  end.

(** A character that [read] leaves where it is. *)
Definition quote_free (c : ascii) : bool :=
  negb (bool_decide (c ∈ ["'"; dquote; ","; "["; "]"]%char)).

(** A text that is empty or ends with a character that is no white
    space. *)
Fixpoint ends_solid (s : string) : bool :=
  match s with
  | EmptyString => true
  | String c EmptyString => negb (Py.is_space c)
  | String _ s' => ends_solid s'
  end.

(** The graph is in dry-run mode and the loop of [cleanup] over the store
    applications has nothing to do: the App Store is not handled at
    level 1, or the machine is no Mac and no document holds a discovered
    store application. [cleanup] then never asks for the [mas] command. *)
Definition dry (env : Env) (f : BrewFile) : Prop :=
  dryrun (opt f) = true
  /\ (appstore (opt f) <> 1
      \/ (is_mac env = false
          /\ forall r, lists (heap f r) appstore_list = [])).

(** An event that is no command. *)
Definition no_command (e : Event) : Prop := forall c, e <> Proc c.

(** From [f] to [f'] the references, the options and the dictionaries are
    the same, no list but [n] changes, and the list [n] of a document only
    loses entries. *)
Definition shrinks (n : lname) (f f' : BrewFile) : Prop :=
  same_graph f f'
  /\ (forall i m, m <> n -> lists (heap f' i) m = lists (heap f i) m)
  /\ (forall i, dicts (heap f' i) = dicts (heap f i))
  /\ (forall i x, x ∈ lists (heap f' i) n -> x ∈ lists (heap f i) n).

(** A graph of two documents that both hold [x] in [brew_list]. *)
Definition both_hold : BrewFile :=
  {| opt := default_opt;
     heap := fun i =>
       if decide (i = 0%nat)
       then set_list brew_list ["y"; "x"; "x"] (new_BrewInfo "Brewfile")
       else set_list brew_list ["x"] (new_BrewInfo "Brewfile.ext");
     brewinfo := 0; brewinfo_main := 0; brewinfo_ext := [1%nat] |}.

(** ** Following the includes: [BrewFile.read] *)

(** [os.path.dirname] *)
Definition dirname (p : string) : string :=
  if Py.has_char "/" p then
    let head := PyMore.before_last "/" p +:+ "/" in
    if Py.forallb_str (Ascii.eqb "/") head then head
    else Py.rstrip_of (Ascii.eqb "/") head
  else "".

(** The file name of the document that the entry [f] of [file_input]
    names in the document of the file [filename]. *)
Definition include_path (env : Env) (filename f : string) : string :=
  let f := expandpath env f in
  if Py.startswith "/" f then f
  else
    let this_dir := dirname filename in
    (if Py.is_empty this_dir then "./" else this_dir +:+ "/")
    +:+ Py.lstrip_of (fun c => Ascii.eqb c "." || Ascii.eqb c "/") f.

(** A reference that names no document yet. *)
Definition new_ref (f : BrewFile) : nat :=
  S (foldr Nat.max (Nat.max (brewinfo f) (brewinfo_main f)) (brewinfo_ext f)).

(** [b = BrewInfo(self.helper, name); self.brewinfo_ext.append(b)] *)
Definition new_ext (b : nat) (name : string) (f : BrewFile) : BrewFile :=
  {| opt := opt f;
     heap := fun i => if decide (i = b) then new_BrewInfo name else heap f i;
     brewinfo := brewinfo f; brewinfo_main := brewinfo_main f;
     brewinfo_ext := brewinfo_ext f ++ [b] |}.

(** [brewinfo.read()] for the document [r]; [fs] gives the content of the
    files that exist. What [read] returns is not used. *)
Definition read_doc (env : Env) (fs : string -> option string) (r : nat)
  : M BrewFile unit :=
  fun f =>
    let res := read env (fs (filename (heap f r))) (opt f, heap f r) in
    (match res.1 with
     | Done _ => Done tt
     | Raised e => Raised e
     | Exited c => Exited c
     end,
     set_opt res.2.1 (store r res.2.2 f)).

(** The loop of [BrewFile.read] over the entries of [file_input]: [rec] is
    the method itself, [name] the file of the document that is read,
    [files_main] its [main_input] and [main] the variable of this name. *)
Fixpoint read_includes (env : Env) (rec : nat -> bool -> M BrewFile (option nat))
    (files_main : list string) (name : string) (main : option nat)
    (l : list string) : M BrewFile (option nat) :=
  match l with
  | [] => mret main
  | x :: rest =>
      let is_next_main := bool_decide (x ∈ files_main) in
      f ← get_state;
      let b := new_ref f in
      modify (new_ext b (include_path env name x));;
      let next := bool_decide (is_Some main) && is_next_main in
      main_tmp ← rec b next;
      read_includes env rec files_main name
        (match main_tmp with
         | Some m => Some m
         | None => if next then Some b else main
         end) rest
  end.

(** [BrewFile.read(brewinfo, is_main)]: the result is the document [main],
    [None] when there is none. [depth] is the depth of recursion the
    interpreter still allows. *)
Fixpoint graph_read (env : Env) (fs : string -> option string) (depth : nat)
    (r : nat) (is_main : bool) : M BrewFile (option nat) :=
  match depth with
  | O => raise RecursionError
  | S depth' =>
      read_doc env fs r;;
      f ← get_state;
      read_includes env (graph_read env fs depth')
        (lists (heap f r) main_input) (filename (heap f r))
        (if is_main then Some r else None) (lists (heap f r) file_input)
  end.

(** What a fresh document reads in a file as [file_input]. *)
Definition includes_of (env : Env) (content : string) : list string :=
  lists (read env (Some content) (default_opt, new_BrewInfo "")).2.2 file_input.

(** A run that does not return. *)
Definition fails {S A} (r : outcome A * S) : Prop :=
  match r.1 with Done _ => False | _ => True end.

(** A file system with one file, [/b/Brewfile], which includes itself. *)
Definition one_file : string -> option string :=
  fun p => if bool_decide (p = "/b/Brewfile")
           then Some (ln "brew git" +:+ ln "file /b/Brewfile") else None.

(** The graph of a process that has not read its file [/b/Brewfile]. *)
Definition unread : BrewFile :=
  {| opt := default_opt; heap := fun _ => new_BrewInfo "/b/Brewfile";
     brewinfo := 0; brewinfo_main := 0; brewinfo_ext := [0%nat] |}.

(** ** The dependencies that [cleanup] declares *)

(** The first loop of [cleanup]: the installed dependencies of the
    declared packages are declared in the root document. *)
Definition declare_dependencies (env : Env) (depth : nat) : M World unit :=
  f ← the_file;
  for_each (get f brew_input false)
    (fun p =>
       if bool_decide (is_Some (info_of env p))
       then add_dependncies env depth p else mret tt).

(** The installed package [p] depends on [q], which is installed: [q] is
    the last path component of a dependency of [p]. *)
Definition depends (env : Env) (p q : string) : Prop :=
  exists i pac,
    info_of env p = Some i /\ pac ∈ dependencies i
    /\ q = PyMore.after_last "/" pac /\ is_Some (info_of env q).

(** [p] needs [q]: [q] is [p], or an installed package that [p] depends
    on through installed packages. *)
Definition needs (env : Env) : string -> string -> Prop := rtc (depends env).

(** The root document is one of the documents of the graph, as it is once
    [read_all] has run. *)
Definition rooted (f : BrewFile) : Prop :=
  brewinfo f = brewinfo_main f \/ brewinfo f ∈ brewinfo_ext f.

(** The installed packages that no document declares, counted with the
    entries of [get_info]. *)
Definition undeclared (env : Env) (f : BrewFile) : nat :=
  length (filter (fun q => q ∉ get f brew_input false) (get_info env).*1).

(** From [w] to [w'] no event is added, the declared packages are more,
    and each new one has its installed dependencies declared. *)
Definition declares (env : Env) (w w' : World) : Prop :=
  w'.2 = w.2 /\ rooted w'.1
  /\ get w.1 brew_input false ⊆ get w'.1 brew_input false
  /\ forall x, x ∈ get w'.1 brew_input false ->
       x ∈ get w.1 brew_input false
       \/ forall d, depends env x d -> d ∈ get w'.1 brew_input false.

(** A machine on which [a] and [b] are installed and depend on each
    other. *)
Definition mutual_dependency : Env :=
  machine false
    [("a", {| installed_on_request := Some true; options := "";
              dependencies := ["u/r/b"] |});
     ("b", {| installed_on_request := Some false; options := "";
              dependencies := ["a"] |})]
    ["a"; "b"] ["a"] [] all_succeed.

(** ** The store applications that [cleanup] keeps *)

(** The identifier of a store application: its first word, when this is a
    number. *)
Definition identifier_of (p : string) : option string :=
  match Py.split p with
  | t :: _ => if Py.isdigit t then Some t else None
  | [] => None
  end.

(** An entry that holds a word. *)
Definition nonblank (p : string) : Prop := Py.split p <> [].

(** A step of [write] that, when it returns, has added to the output and
    has left the raw commands and the commands of [after] as they
    were. *)
Definition Adds {A} (m : M WS A) : Prop :=
  forall s a s', m s = (Done a, s') ->
    (exists t, s'.1 = s.1 +:+ t)
    /\ lists s'.2 cmd_input = lists s.2 cmd_input
    /\ lists s'.2 after_input = lists s.2 after_input.

(** The lines that [write] gives to the raw commands [l]. *)
Definition other_lines (o : Opt) (l : list string) : string :=
  Py.nl +:+ ln "# Other commands"
  +:+ String.concat "" (map (fun c => ln (other_prefix o +:+ c)) l).

(** A document that holds the raw commands [l] and nothing else. *)
Definition raw_only (l : list string) : BrewInfo :=
  set_list cmd_input l (new_BrewInfo "Brewfile").

(** The steps of [cleanup] that follow its first loop. *)
Definition cleanup_rest (env : Env) : M World unit :=
  f ← the_file;
  when (bool_decide (appstore (opt f) = 1)
        && nonempty (get f appstore_list false))
    (event (BannerLine "# Clean up App Store applications");;
     for_each (get f appstore_list false) (cleanup_app env));;
  f ← the_file;
  when (is_mac env && nonempty (get f cask_list false))
    (event (BannerLine "# Clean up cask packages");;
     for_each (get f cask_list false)
       (fun p =>
          f ← the_file;
          if bool_decide (p ∈ get f cask_input false) then mret tt
          else
            print_or_proc env (opt f) ("brew uninstall " +:+ p) true;;
            remove_pack cask_list p));;
  f ← the_file;
  when (is_mac env && nonempty (get f cask_list false))
    (remove_pack tap_list (cask_repo (opt f)));;
  f ← the_file;
  when (nonempty (get f brew_list false))
    (event (BannerLine "# Clean up brew packages");;
     for_each (get f brew_list false) (cleanup_pack env));;
  f ← the_file;
  when (nonempty (get f tap_list false))
    (event (BannerLine "# Clean up tap packages");;
     for_each (get f tap_list false) (cleanup_tap env));;
  event (BannerLine "# Clean up cache");;
  print_or_proc env (opt f) "brew cleanup" true;;
  print_or_proc env (opt f) ("rm -rf " +:+ brew_cache env) true;;
  when (dryrun (opt f)) (event (BannerLine "# This is dry run.")).

(** The declarations of [f0] as a later state [f] of the run has them,
    none of them changed. *)
Definition declared_as (f0 f : BrewFile) : Prop :=
  same_graph f0 f
  /\ forall i,
       lists (heap f i) tap_input = lists (heap f0 i) tap_input
       /\ lists (heap f i) cask_input = lists (heap f0 i) cask_input
       /\ lists (heap f i) brew_input = lists (heap f0 i) brew_input.

(** A run that returns from every state. *)
Definition Total {A} (m : M World A) : Prop :=
  forall w, exists a w', m w = (Done a, w').

(** A machine that is no Mac, with the tap [u/r] that holds the formula
    [b]; [a] and [b] are installed and [a] depends on [b]. *)
Definition tap_of_dependency : Env :=
  {| is_mac := false;
     get_tap_packs := fun t => if bool_decide (t = "u/r") then ["b"] else [];
     get_tap_casks := fun _ => [];
     expandpath := fun x => x;
     isdir := fun _ => false;
     check_mas_cmd := 1;
     brew_cache := "/cache";
     get_option := fun _ => "";
     proc_result := all_succeed;
     get_info := [("a", {| installed_on_request := Some true; options := "";
                           dependencies := ["u/r/b"] |});
                  ("b", {| installed_on_request := Some false; options := "";
                           dependencies := [] |})];
     brew_list_formula := ["a"; "b"];
     get_leaves := ["a"];
     brew_tap := ["u/r"];
     get_cask_list := [];
     get_appstore_list := [] |}.

(** From the graph [f] that [clean_list] is given to the graph [f'] it
    leaves: an entry that a document of [brewinfo_ext] declares in [input]
    and that the root document holds in [list_], as installed, is still
    declared by that document, is in its list, and is not in the list of
    the main document. *)
Definition kept_by_satellite (list_ input : lname) (f f' : BrewFile) : Prop :=
  forall r p, r ∈ brewinfo_ext f ->
    p ∈ lists (heap f r) input ->
    p ∈ lists (heap f (brewinfo f)) list_ ->
    p ∈ lists (heap f' r) input
    /\ p ∈ lists (heap f' r) list_
    /\ p ∉ lists (heap f' (brewinfo_main f')) list_.

(** The first loop of [clean_list] so far, from [f0] to [f]: the list
    [list_] of the root document is as it was and what a document declared
    in [input] and the root document holds in [list_] is still
    declared. *)
Definition stays (input list_ : lname) (f0 f : BrewFile) : Prop :=
  same_graph f0 f
  /\ lists (heap f (brewinfo f0)) list_ = lists (heap f0 (brewinfo f0)) list_
  /\ forall r p,
       p ∈ lists (heap f0 r) input ->
       p ∈ lists (heap f0 (brewinfo f0)) list_ ->
       p ∈ lists (heap f r) input.

(** A run that returns, adds no event and keeps the property [I] of the
    graph. *)
Definition Holds (I : BrewFile -> Prop) (m : M World unit) : Prop :=
  forall w, I w.1 -> exists f', m w = (Done tt, (f', w.2)) /\ I f'.

(** ** The commands of [install] *)









(** A manifest of the plain dialect: a tap, a package of the tap with an
    option, a package of no tap and a cask. *)
Definition plain_manifest : string :=
  ln "tap u/r" +:+ ln "brew p --with-x" +:+ ln "brew git"
  +:+ ln "cask firefox".

(** * Properties *)

(** ** The monad *)

Lemma bind_done {S A B} (m : M S A) (k : A -> M S B) s a s' :
  m s = (Done a, s') -> (m ≫= k) s = k a s'.
Proof. intros H. unfold mbind, M_bind, bind. by rewrite H. Qed.

Lemma bind_raised {S A B} (m : M S A) (k : A -> M S B) s e s' :
  m s = (Raised e, s') -> (m ≫= k) s = (Raised e, s').
Proof. intros H. unfold mbind, M_bind, bind. by rewrite H. Qed.

Lemma bind_exited {S A B} (m : M S A) (k : A -> M S B) s c s' :
  m s = (Exited c, s') -> (m ≫= k) s = (Exited c, s').
Proof. intros H. unfold mbind, M_bind, bind. by rewrite H. Qed.

(** ** What [read] does to the lists *)

Lemma lists_set_list n v b m :
  lists (set_list n v b) m = if decide (m = n) then v else lists b m.
Proof. reflexivity. Qed.

Lemma lists_set_dict n v b m : lists (set_dict n v b) m = lists b m.
Proof. reflexivity. Qed.

Lemma grows_refl b : grows b b.
Proof. intros n. exists []. by rewrite app_nil_r. Qed.

Lemma grows_trans b1 b2 b3 : grows b1 b2 -> grows b2 b3 -> grows b1 b3.
Proof.
  intros H12 H23 n. destruct (H12 n) as [l1 E1], (H23 n) as [l2 E2].
  exists (l1 ++ l2). by rewrite E2, E1, app_assoc.
Qed.

Lemma grows_append n x b : grows b (append n x b).
Proof.
  intros m. unfold append. rewrite lists_set_list.
  destruct (decide (m = n)) as [->|]; [by exists [x] | exists []; by rewrite app_nil_r].
Qed.

Lemma grows_dict_set n k v b : grows b (dict_set n k v b).
Proof. intros m. exists []. by rewrite app_nil_r. Qed.

Lemma grows_read_tapall env p b : grows b (read_tapall env p b).
Proof.
  unfold read_tapall.
  assert (H1 : forall l b0, grows b0
            (foldl (fun b tp => dict_set brew_input_opt tp "" (append brew_input tp b)) b0 l)).
  { induction l as [|x l IH]; intros b0; simpl; [apply grows_refl|].
    eapply grows_trans; [|apply IH].
    eapply grows_trans; [apply grows_append | apply grows_dict_set]. }
  assert (H2 : forall l b0, grows b0 (foldl (fun b tp => append cask_input tp b) b0 l)).
  { induction l as [|x l IH]; intros b0; simpl; [apply grows_refl|].
    eapply grows_trans; [apply grows_append | apply IH]. }
  eapply grows_trans; [apply grows_append|].
  eapply grows_trans; [apply H1 | apply H2].
Qed.

Lemma Grows_ret {A} (a : A) : Grows (mret a : M RS A).
Proof. intros s. apply grows_refl. Qed.

Lemma Grows_raise {A} e : Grows (raise e : M RS A).
Proof. intros s. apply grows_refl. Qed.

Lemma Grows_bind {A B} (m : M RS A) (k : A -> M RS B) :
  Grows m -> (forall a, Grows (k a)) -> Grows (m ≫= k).
Proof.
  intros Hm Hk s. specialize (Hm s).
  destruct (m s) as [[a|e|c] s'] eqn:E.
  - rewrite (bind_done _ _ _ _ _ E). eapply grows_trans; [exact Hm | apply Hk].
  - by rewrite (bind_raised _ _ _ _ _ E).
  - by rewrite (bind_exited _ _ _ _ _ E).
Qed.

Lemma Grows_form_if_none f : Grows (form_if_none f).
Proof.
  intros s. unfold form_if_none, modify. simpl.
  destruct (decide (form s.1 = "none")); apply grows_refl.
Qed.

Lemma Grows_upd f : (forall b, grows b (f b)) -> Grows (upd f).
Proof. intros H s. apply H. Qed.

Lemma Grows_when c (m : M RS unit) : Grows m -> Grows (when c m).
Proof. intros H. destruct c; [exact H | apply Grows_ret]. Qed.

Lemma Grows_dispatch env line cmd p opt excmd :
  Grows (dispatch env line cmd p opt excmd).
Proof.
  unfold dispatch.
  repeat match goal with
         | |- Grows (if ?c then _ else _) => destruct c
         | |- Grows (match ?x with _ => _ end) => destruct x
         | |- Grows (_ ≫= _) => apply Grows_bind; [|intros ?]
         | |- Grows (form_if_none _) => apply Grows_form_if_none
         | |- Grows (raise _) => apply Grows_raise
         | |- Grows (upd _) => apply Grows_upd; intros ?
         | |- grows _ (read_tapall _ _ _) => apply grows_read_tapall
         | |- grows ?b (append _ _ ?b) => apply grows_append
         | |- grows _ (dict_set _ _ _ _) =>
             eapply grows_trans; [|apply grows_dict_set]
         | |- grows _ (append _ _ (append _ _ _)) =>
             eapply grows_trans; [|apply grows_append]
         end.
Qed.

Lemma Grows_parse_line env line : Grows (parse_line env line).
Proof.
  unfold parse_line. destruct (line_args line) as [|cmd rest]; [apply Grows_raise|].
  repeat (apply Grows_bind; [apply Grows_when, Grows_form_if_none | intros _]).
  apply Grows_dispatch.
Qed.

Lemma Grows_read_lines env lines : forall ig, Grows (read_lines env ig lines).
Proof.
  induction lines as [|line rest IH]; intros ig; simpl; [apply Grows_ret|].
  repeat match goal with
         | |- Grows (if ?c then _ else _) => destruct c
         end; try apply IH.
  all: apply Grows_bind; [apply Grows_parse_line | intros _; apply IH].
Qed.

(** ** The implicit tap of a readable file *)

Lemma read_some env content s :
  read env (Some content) s =
  (read_lines env false (Py.readlines content) ≫= fun _ => mret None)
    (s.1, append tap_input "direct" (clear_input s.2)).
Proof. reflexivity. Qed.

Lemma read_lines_tap_head env lines ig o b l :
  lists b tap_input = "direct" :: l ->
  exists l', lists (read_lines env ig lines (o, b)).2.2 tap_input = "direct" :: l'.
Proof.
  intros Hb. destruct (Grows_read_lines env lines ig (o, b) tap_input) as [l' E].
  simpl in E. rewrite Hb in E. by exists (l ++ l').
Qed.

(** C10. After a [read] that opens its file, whatever the file holds and
    also when a line makes the parser raise, [tap_input] starts with the
    implicit entry [direct], so it is not empty; when the file is absent
    [read] returns [False] and leaves every input list and the options of the
    packages empty. *)
Theorem C10_read_inserts_direct (env : Env) (s : RS) :
  (forall content, exists l,
      lists (read env (Some content) s).2.2 tap_input = "direct" :: l)
  /\ (read env None s).1 = Done (Some false)
  /\ (forall n, n ∈ input_names -> lists (read env None s).2.2 n = [])
  /\ dicts (read env None s).2.2 brew_input_opt = ∅.
Proof.
  split; [|split; [reflexivity|split; [|reflexivity]]].
  - intros content. rewrite read_some.
    set (s0 := (s.1, append tap_input "direct" (clear_input s.2))).
    destruct (read_lines_tap_head env (Py.readlines content) false
                s.1 (append tap_input "direct" (clear_input s.2)) [])
      as [l Hl]; [reflexivity|].
    fold s0 in Hl.
    destruct (read_lines env false (Py.readlines content) s0) as [[u|e|c] s1] eqn:E.
    + rewrite (bind_done _ _ _ _ _ E). by exists l.
    + rewrite (bind_raised _ _ _ _ _ E). by exists l.
    + rewrite (bind_exited _ _ _ _ _ E). by exists l.
  - intros n Hn. unfold input_names in Hn.
    repeat (apply elem_of_cons in Hn as [->|Hn]; [reflexivity|]).
    by apply elem_of_nil in Hn.
Qed.

(** ** Ignored blocks *)

Lemma bind_ext {S A B} (m : M S A) (k1 k2 : A -> M S B) s :
  (forall a s', k1 a s' = k2 a s') -> (m ≫= k1) s = (m ≫= k2) s.
Proof.
  intros H. unfold mbind, M_bind, bind. destruct (m s) as [[a|e|c] s']; auto.
Qed.

Lemma read_lines_prefix env pre l1 l2 :
  (forall ig s, read_lines env ig l1 s = read_lines env ig l2 s) ->
  forall ig s, read_lines env ig (pre ++ l1) s = read_lines env ig (pre ++ l2) s.
Proof.
  intros H. induction pre as [|line pre IH]; intros ig s; simpl; [apply H|].
  destruct (match_ignore line), (match_endignore line), ig,
    (match_blank line || match_comment line); simpl; try apply IH.
  all: apply bind_ext; intros; apply IH.
Qed.

Lemma read_lines_ignored env block rest s :
  Forall (fun l => match_endignore l = false) block ->
  read_lines env true (block ++ rest) s = read_lines env true rest s.
Proof.
  induction 1 as [|line block Hl _ IH]; [reflexivity|].
  simpl. rewrite Hl. by destruct (match_ignore line).
Qed.

Lemma read_lines_begin env line ls ig s :
  match_ignore line = true ->
  read_lines env ig (line :: ls) s = read_lines env true ls s.
Proof. intros H. simpl. rewrite H. by destruct (match_endignore line). Qed.

(** C9. The lines between an ignore-begin marker and the next ignore-end
    marker give no entry: [read] reaches the same result, the same document
    and the same dialect as for the file without these lines, whatever they
    hold. *)
Theorem C9_ignored_block_gives_no_entry (env : Env) (s : RS)
    (content content' begin : string) (pre block rest : list string) :
  Py.readlines content = pre ++ begin :: block ++ rest ->
  Py.readlines content' = pre ++ begin :: rest ->
  match_ignore begin = true ->
  Forall (fun l => match_endignore l = false) block ->
  read env (Some content) s = read env (Some content') s.
Proof.
  intros Hc Hc' Hb Hblock. rewrite !read_some, Hc, Hc'.
  unfold mbind, M_bind, bind.
  rewrite (read_lines_prefix env pre (begin :: block ++ rest) (begin :: rest));
    [reflexivity|].
  intros ig s'. rewrite !read_lines_begin by done.
  by apply read_lines_ignored.
Qed.

Lemma C9_witness :
  read quiet_env
    (Some (ln "brew a" +:+ ln "#BREWFILE_IGNORE" +:+ ln "brew b"
           +:+ ln "tap c/d" +:+ ln "#BREWFILE_ENDIGNORE" +:+ ln "brew e")) fresh
  = read quiet_env
      (Some (ln "brew a" +:+ ln "#BREWFILE_IGNORE"
             +:+ ln "#BREWFILE_ENDIGNORE" +:+ ln "brew e")) fresh.
Proof.
  apply (C9_ignored_block_gives_no_entry quiet_env fresh _ _
           (ln "#BREWFILE_IGNORE") [ln "brew a"] [ln "brew b"; ln "tap c/d"]
           [ln "#BREWFILE_ENDIGNORE"; ln "brew e"]).
  - reflexivity.
  - reflexivity.
  - reflexivity.
  - repeat constructor.
Defined.

(** ** Lines that are no directive *)

Lemma when_form_if_none c f o b :
  exists o', when c (form_if_none f) (o, b) = (Done tt, (o', b))
             /\ (form o <> "none" -> o' = o).
Proof.
  destruct c; simpl; [|by exists o].
  unfold form_if_none, modify. simpl.
  destruct (decide (form o = "none")); [|by exists o].
  exists (set_form f o). split; [reflexivity|]. intros H. by destruct H.
Qed.

(** Up to the dialect, a line with a token is what [dispatch] makes of it. *)
Lemma parse_line_dispatch env line o b :
  line_args line <> [] ->
  exists o',
    parse_line env line (o, b)
    = dispatch env line (nth 0 (final_args line) "") (nth 1 (final_args line) "")
        (line_opt (final_args line))
        (Py.strip (Py.join " " (tail (Py.split line)))) (o', b)
    /\ (form o <> "none" -> o' = o).
Proof.
  intros Ha. unfold parse_line. destruct (line_args line) as [|c r] eqn:E; [done|].
  cbv zeta.
  destruct (when_form_if_none (drop_command (c :: r)).2 "cmd" o b) as (o1 & E1 & K1).
  destruct (when_form_if_none (drop_install (drop_command (c :: r)).1).2 "cmd" o1 b)
    as (o2 & E2 & K2).
  destruct (when_form_if_none
              (bool_decide (2 < length (final_args line))%nat
               && bool_decide (nth 2 (final_args line) "" = "args:"))
              "bundle" o2 b) as (o3 & E3 & K3).
  destruct (when_form_if_none
              (bool_decide (nth 0 (final_args line) "" ∈ ["brew"; "tap"; "tapall"])
               && (Py.has_char dquote line || Py.has_char "'" line))
              "bundle" o3 b) as (o4 & E4 & K4).
  exists o4. split.
  - rewrite (bind_done _ _ _ _ _ E1), (bind_done _ _ _ _ _ E2),
      (bind_done _ _ _ _ _ E3), (bind_done _ _ _ _ _ E4). reflexivity.
  - intros H. rewrite K4, K3, K2, K1; try done.
    + by rewrite K1.
    + by rewrite K2, K1 by (by rewrite ?K1).
    + by rewrite K3, K2, K1 by (by rewrite ?K2, ?K1 by (by rewrite ?K1)).
Qed.

Lemma dispatch_unrecognized env line cmd p opt excmd s :
  recognized cmd = false ->
  dispatch env line cmd p opt excmd s
  = (Done tt, (s.1, append cmd_input (Py.strip line) s.2)).
Proof.
  intros Hr. unfold recognized in Hr. apply orb_false_iff in Hr as [Hr1 Hr2].
  apply bool_decide_eq_false in Hr1.
  unfold dispatch.
  rewrite (bool_decide_eq_false_2 (cmd ∈ ["brew"; "install"])) by set_solver.
  rewrite (bool_decide_eq_false_2 (cmd = "tap")) by set_solver.
  rewrite (bool_decide_eq_false_2 (cmd = "tapall")) by set_solver.
  rewrite (bool_decide_eq_false_2 (cmd = "cask")) by set_solver.
  rewrite (bool_decide_eq_false_2 (cmd = "mas")) by set_solver.
  rewrite (bool_decide_eq_false_2 (cmd ∈ ["appstore"; "mas"])) by set_solver.
  rewrite (bool_decide_eq_false_2 (cmd = "main")) by set_solver.
  rewrite (bool_decide_eq_false_2 (cmd = "file")) by set_solver.
  rewrite Hr2.
  rewrite (bool_decide_eq_false_2 (cmd = "before")) by set_solver.
  rewrite (bool_decide_eq_false_2 (cmd = "after")) by set_solver.
  reflexivity.
Qed.

Lemma dispatch_returns env line cmd p opt excmd s :
  (cmd = "mas" -> Py.has_char "," line = true ->
   (4 <= length (Py.split line))%nat) ->
  exists s', dispatch env line cmd p opt excmd s = (Done tt, s').
Proof.
  intros Hmas. unfold dispatch.
  repeat match goal with
         | |- exists _, (if ?c then _ else _) _ = _ => destruct c eqn:?
         | |- exists _, upd _ _ = _ => eexists; reflexivity
         end.
  apply andb_true_iff in Heqb3 as [Hm Hc]. apply bool_decide_eq_true in Hm.
  specialize (Hmas Hm Hc).
  destruct (Py.split line) as [|w0 [|w1 [|w2 [|w3 ws]]]]; simpl in Hmas; try lia.
  destruct (when_form_if_none true "bundle" s.1 s.2) as (o' & E & _).
  simpl in E. destruct s as [o b]. simpl in *.
  rewrite (bind_done _ _ _ _ _ E). simpl. eexists; reflexivity.
Qed.

Lemma write_other_prefix o l :
  write_other o l
  = section (Py.nl +:+ ln "# Other commands")
      (map (fun c => ln (other_prefix o +:+ c)) l).
Proof.
  unfold write_other, other_prefix, cmds_of.
  destruct (is_bundle o); [reflexivity|]. by destruct (is_command o).
Qed.

(** A line that holds one comma and nothing else passes the tests for blank
    lines and comments and has no token: [args[0]] raises. *)
Lemma read_raises_on_comma_line :
  read quiet_env (Some (ln "brew a" +:+ ln ",")) fresh
  = (Raised IndexError,
     (default_opt,
      dict_set brew_input_opt "a" ""
        (append brew_input "a"
           (append tap_input "direct" (clear_input (new_BrewInfo "Brewfile")))))).
Proof. reflexivity. Qed.

(** C6, as worded, fails: in the bundle dialect a raw command is written
    behind a comment sign, not as it was read. *)
Lemma C6_counterexample : ~ never_raises_and_verbatim.
Proof.
  intros (_ & _ & H). specialize (H bundle_opt ["echo hi"]).
  vm_compute in H. discriminate H.
Qed.


(** ** The graph and its frames *)

Lemma same_graph_refl f : same_graph f f.
Proof. by repeat split. Qed.

Lemma same_graph_trans f1 f2 f3 :
  same_graph f1 f2 -> same_graph f2 f3 -> same_graph f1 f3.
Proof.
  intros (a1 & b1 & c1 & d1) (a2 & b2 & c2 & d2).
  repeat split; congruence.
Qed.

Lemma frame_refl C f : frame C f f.
Proof. split; [apply same_graph_refl | done]. Qed.

Lemma frame_trans C f1 f2 f3 : frame C f1 f2 -> frame C f2 f3 -> frame C f1 f3.
Proof.
  intros [G1 H1] [G2 H2]. split; [by eapply same_graph_trans|].
  intros i m Hc. by rewrite H2, H1.
Qed.

Lemma frame_mono (C C' : nat -> lname -> Prop) f f' :
  (forall i m, C i m -> C' i m) -> frame C f f' -> frame C' f f'.
Proof. intros H [G1 H1]. split; [done|]. intros i m Hc. apply H1. auto. Qed.

Lemma get_frame C f f' n only_ext :
  frame C f f' ->
  ~ C (brewinfo_main f) n -> (forall r, r ∈ brewinfo_ext f -> ~ C r n) ->
  get f' n only_ext = get f n only_ext.
Proof.
  intros [(_ & _ & Hm & He) H] Hcm Hce. unfold get. rewrite Hm, He.
  f_equal; [destruct only_ext; [done | by apply H]|].
  f_equal. apply map_ext_in. intros r Hr. apply H, Hce. by apply list_elem_of_In.
Qed.

Lemma Frames_ret G C : Frames G C (mret tt).
Proof. intros w _. exists w.1. split; [by destruct w | apply frame_refl]. Qed.

Lemma Frames_mono G (C C' : nat -> lname -> Prop) m :
  (forall i m, C i m -> C' i m) -> Frames G C m -> Frames G C' m.
Proof.
  intros H Hm w Hw. destruct (Hm w Hw) as (f' & E & Hf).
  exists f'. split; [done|]. by eapply frame_mono.
Qed.

Lemma Frames_seq G C (m : M World unit) (k : M World unit) :
  Frames G C m -> Frames G C k -> Frames G C (m ≫= fun _ => k).
Proof.
  intros Hm Hk w Hw. destruct (Hm w Hw) as (f1 & E1 & F1).
  destruct (Hk (f1, w.2)) as (f2 & E2 & F2).
  { eapply same_graph_trans; [exact Hw | apply F1]. }
  exists f2. rewrite (bind_done _ _ _ _ _ E1). split; [exact E2|].
  by eapply frame_trans.
Qed.

Lemma Frames_the_file G C (k : BrewFile -> M World unit) :
  (forall f, same_graph G f -> Frames G C (k f)) -> Frames G C (the_file ≫= k).
Proof. intros H w Hw. exact (H w.1 Hw w Hw). Qed.

Lemma Frames_when G C c m : Frames G C m -> Frames G C (when c m).
Proof. intros H. destruct c; [done | apply Frames_ret]. Qed.

Lemma Frames_for_each {A} G C (l : list A) (body : A -> M World unit) :
  (forall x, x ∈ l -> Frames G C (body x)) -> Frames G C (for_each l body).
Proof.
  induction l as [|x l IH]; intros H; simpl; [apply Frames_ret|].
  apply Frames_seq; [apply H; left | apply IH; intros y Hy; apply H; by right].
Qed.

Lemma Frames_modify G (C : nat -> lname -> Prop) r (g : BrewInfo -> BrewInfo) :
  (forall b m, ~ C r m -> lists (g b) m = lists b m) ->
  Frames G C (on_doc r (modify g)).
Proof.
  intros H w _. eexists. split; [reflexivity|].
  split; [by repeat split|]. intros i m Hc. simpl.
  destruct (decide (i = r)) as [->|]; [by apply H | done].
Qed.

(** ** Loops that remove *)

Lemma list_remove_middle p kept rest :
  p ∉ kept -> Py.list_remove p (kept ++ p :: rest) = Some (kept ++ rest).
Proof.
  induction kept as [|x kept IH]; intros Hp; simpl.
  - by rewrite decide_True.
  - rewrite decide_False by set_solver. rewrite IH by set_solver. done.
Qed.

Lemma remove_loop_spec r n (P : BrewFile -> string -> bool) :
  (forall f f', frame (fun i m => i = r /\ m = n) f f' ->
                forall p, P f' p = P f p) ->
  forall snapshot kept w,
    lists (heap w.1 r) n = kept ++ snapshot ->
    (forall p, p ∈ kept -> P w.1 p = false) ->
    exists f',
      remove_loop r n P snapshot w = (Done tt, (f', w.2))
      /\ frame (fun i m => i = r /\ m = n) w.1 f'
      /\ lists (heap f' r) n
         = kept ++ List.filter (fun p => negb (P w.1 p)) snapshot.
Proof.
  intros HP. induction snapshot as [|p rest IH]; intros kept [f ev] Hl Hk.
  - exists f. split; [reflexivity|]. split; [apply frame_refl|]. exact Hl.
  - simpl in *. unfold remove_loop. simpl.
    destruct (P f p) eqn:Ep.
    + assert (Hp : p ∉ kept).
      { intros Hin. specialize (Hk p Hin). congruence. }
      set (f1 := store r (set_list n (kept ++ rest) (heap f r)) f).
      assert (F1 : frame (fun i m => i = r /\ m = n) f f1).
      { split; [by repeat split|]. intros i m Hc. simpl.
        destruct (decide (i = r)) as [->|]; [|done].
        rewrite lists_set_list. destruct (decide (m = n)) as [->|]; [|done].
        by destruct Hc. }
      destruct (IH kept (f1, ev)) as (f' & E & F & L).
      { simpl. rewrite decide_True by done. rewrite lists_set_list.
        by rewrite decide_True. }
      { intros q Hq. simpl. rewrite (HP f f1 F1). by apply Hk. }
      exists f'. split; [|split].
      * assert (E1 : (the_file ≫= fun f0 => when (P f0 p) (on_doc r (remove n p)))
                       (f, ev) = (Done tt, (f1, ev))).
        { unfold mbind, M_bind, bind, the_file. simpl. rewrite Ep. simpl.
          unfold on_doc, remove. simpl. rewrite Hl.
          by rewrite (list_remove_middle p kept rest Hp). }
        rewrite (bind_done _ _ _ _ _ E1). exact E.
      * by eapply frame_trans.
      * rewrite L. simpl. f_equal. apply filter_ext. intros q.
        by rewrite (HP f f1 F1).
    + destruct (IH (kept ++ [p]) (f, ev)) as (f' & E & F & L).
      { simpl. by rewrite <- app_assoc. }
      { intros q Hq. simpl. apply elem_of_app in Hq as [Hq|Hq]; [by apply Hk|].
        apply list_elem_of_singleton in Hq as ->. exact Ep. }
      exists f'. split; [|split; [exact F|]].
      * assert (E1 : (the_file ≫= fun f0 => when (P f0 p) (on_doc r (remove n p)))
                       (f, ev) = (Done tt, (f, ev))).
        { unfold mbind, M_bind, bind, the_file. simpl. by rewrite Ep. }
        rewrite (bind_done _ _ _ _ _ E1). exact E.
      * rewrite L. simpl. by rewrite <- app_assoc.
Qed.

(** ** The clean-up of the discovered lists *)

Lemma the_file_bind {A} (k : BrewFile -> M World A) w :
  (the_file ≫= k) w = k w.1 w.
Proof. reflexivity. Qed.

Lemma Frames_clean_input G r input list_ :
  input <> list_ ->
  Frames G (fun i m => i = r /\ m = input) (clean_input r input list_).
Proof.
  intros Hne w Hw. unfold clean_input. rewrite the_file_bind.
  change (for_each (lists (heap w.1 r) input) _)
    with (remove_loop r input
            (fun f p => bool_decide (p ∉ lists (heap f (brewinfo f)) list_))
            (lists (heap w.1 r) input)).
  destruct (remove_loop_spec r input
              (fun f p => bool_decide (p ∉ lists (heap f (brewinfo f)) list_)))
    with (snapshot := lists (heap w.1 r) input) (kept := @nil string) (w := w)
    as (f' & E & F & _); [| done | intros p Hp; by apply elem_of_nil in Hp |].
  - intros f f' [(_ & Hb & _) H] p. simpl. rewrite Hb, H; [done|].
    intros [_ Hm]. by apply Hne.
  - by exists f'.
Qed.

Lemma Frames_list_to_main G :
  Frames G (fun i m => i = brewinfo_main G /\ m ∈ list_names) list_to_main.
Proof.
  unfold list_to_main. apply Frames_the_file. intros f0 _.
  destruct (bool_decide (brewinfo f0 = brewinfo_main f0)); [by apply Frames_ret|].
  cbv zeta.
  assert (Hcopy : forall dst src, dst ∈ list_names ->
            Frames G (fun i m => i = brewinfo_main G /\ m ∈ list_names)
              (f ← the_file;
               on_doc (brewinfo_main f)
                 (modify (add dst (lists (heap f (brewinfo f)) src))))).
  { intros dst src Hdst. apply Frames_the_file. intros f (_ & _ & Hm & _).
    rewrite Hm. apply Frames_modify. intros b m Hc. unfold add.
    rewrite lists_set_list. destruct (decide (m = dst)) as [->|]; [|done].
    destruct Hc. done. }
  repeat (apply Frames_seq; [apply Hcopy; unfold list_names; set_solver|]).
  apply Frames_the_file. intros f (_ & _ & Hm & _). rewrite Hm.
  apply Frames_modify. by intros b m _.
Qed.

Lemma lists_input_to_list b m :
  m ∉ list_names -> lists (input_to_list b) m = lists b m.
Proof.
  intros Hm. destruct m; try reflexivity; exfalso; apply Hm;
    unfold list_names; set_solver.
Qed.

Lemma Frames_input_to_list_ext G :
  Frames G (fun i m => i ∈ brewinfo_ext G /\ m ∈ list_names)
    (input_to_list_all true).
Proof.
  unfold input_to_list_all. apply Frames_the_file. intros f (_ & _ & _ & He).
  simpl. apply Frames_seq; [apply Frames_ret|]. rewrite He.
  apply Frames_for_each. intros r Hr. apply Frames_modify.
  intros b m Hc. apply lists_input_to_list. intros Hm. apply Hc. done.
Qed.

(** After [dedup] the list of the main document holds nothing that another
    document declares. *)
Lemma dedup_spec G list_ input w :
  input <> list_ -> same_graph G w.1 ->
  exists f',
    dedup list_ input w = (Done tt, (f', w.2))
    /\ frame (fun i m => i = brewinfo_main G /\ m = list_) w.1 f'
    /\ no_duplicate list_ input f'.
Proof.
  intros Hne Hw. unfold dedup. rewrite the_file_bind.
  assert (Hm : brewinfo_main w.1 = brewinfo_main G) by apply Hw.
  set (P := fun (f : BrewFile) (p : string) => bool_decide (p ∈ get f input true)).
  change (for_each (lists (heap w.1 (brewinfo_main w.1)) list_) _)
    with (remove_loop (brewinfo_main w.1) list_ P
            (lists (heap w.1 (brewinfo_main w.1)) list_)).
  assert (HP : forall f f',
             frame (fun i m => i = brewinfo_main w.1 /\ m = list_) f f' ->
             forall p, P f' p = P f p).
  { intros f f' F p. unfold P.
    rewrite (get_frame _ f f' input true F); [done| |]; intros; intros [_ ?]; done. }
  destruct (remove_loop_spec (brewinfo_main w.1) list_ P HP
              (lists (heap w.1 (brewinfo_main w.1)) list_) [] w)
    as (f' & E & F & L); [done | intros p Hp; by apply elem_of_nil in Hp |].
  exists f'. split; [exact E|]. rewrite <- Hm. split; [exact F|].
  intros r p Hr Hp Hin.
  assert (Hm' : brewinfo_main f' = brewinfo_main w.1) by apply F.
  rewrite Hm', L in Hin. simpl in Hin.
  apply list_elem_of_In, filter_In in Hin as [_ Hin].
  apply negb_true_iff, bool_decide_eq_false in Hin. apply Hin.
  rewrite <- (get_frame _ w.1 f' input true F);
    [| intros [_ ?]; done | intros; intros [_ ?]; done].
  unfold get. simpl. apply list_elem_of_In, in_concat.
  exists (lists (heap f' r) input). split; [|by apply list_elem_of_In].
  apply in_map_iff. exists r. split; [done|]. by apply list_elem_of_In.
Qed.

Lemma no_duplicate_frame C list_ input f f' :
  frame C f f' ->
  ~ C (brewinfo_main f) list_ ->
  (forall r, r ∈ brewinfo_ext f -> ~ C r input) ->
  no_duplicate list_ input f -> no_duplicate list_ input f'.
Proof.
  intros [(_ & _ & Hm & He) H] Hcm Hce Q r p Hr Hp.
  rewrite He in Hr. rewrite Hm, (H _ _ Hcm).
  apply (Q r p Hr). by rewrite <- (H r input (Hce r Hr)).
Qed.

Lemma Frames_clean_inputs G :
  Frames G (fun _ _ => True)
    (for_each (brewinfo_ext G ++ [brewinfo_main G])
       (fun r =>
          clean_input r brew_input brew_list;;
          clean_input r tap_input tap_list;;
          clean_input r cask_input cask_list;;
          clean_input r appstore_input appstore_list)).
Proof.
  apply Frames_for_each. intros r _.
  repeat apply Frames_seq;
    (eapply Frames_mono; [|apply Frames_clean_input]; [done | done]).
Qed.

Lemma list_names_inputs n :
  n ∈ [brew_input; cask_input; appstore_input] -> n ∉ list_names.
Proof.
  intros Hn Hl. unfold list_names in Hl.
  repeat (apply elem_of_cons in Hn as [->|Hn];
          [repeat (apply elem_of_cons in Hl as [Hl|Hl]; [discriminate Hl|]);
           by apply elem_of_nil in Hl|]).
  by apply elem_of_nil in Hn.
Qed.

(** The steps of [clean_list] that follow a [dedup] keep what it
    established. *)
Lemma no_duplicate_kept (C : nat -> lname -> Prop) G list_ input f f' :
  same_graph G f -> frame C f f' ->
  ~ C (brewinfo_main G) list_ ->
  (forall r, r ∈ brewinfo_ext G -> ~ C r input) ->
  no_duplicate list_ input f -> no_duplicate list_ input f'.
Proof.
  intros (_ & _ & Hm & He) F Hcm Hce. apply (no_duplicate_frame C); [done| |].
  - by rewrite Hm.
  - by rewrite He.
Qed.

Lemma Holds_seq I (m k : M World unit) :
  Holds I m -> Holds I k -> Holds I (m;; k).
Proof.
  intros Hm Hk w Hw. destruct (Hm w Hw) as (f1 & E1 & I1).
  destruct (Hk (f1, w.2) I1) as (f2 & E2 & I2).
  exists f2. split; [|done]. by rewrite (bind_done _ _ _ _ _ E1).
Qed.

Lemma Holds_for_each {A} I (l : list A) (body : A -> M World unit) :
  (forall x, Holds I (body x)) -> Holds I (for_each l body).
Proof.
  intros H. induction l as [|x l IH]; [intros w Hw; by exists w.1; destruct w|].
  simpl. by apply Holds_seq.
Qed.

Lemma stays_refl input list_ f : stays input list_ f f.
Proof. split; [apply same_graph_refl|]. split; [done|]. by intros r p Hp _. Qed.

(** One turn of the first loop of [clean_list]: what the root document
    holds as installed stays declared. *)
Lemma Holds_clean_input input list_ f0 r' input' list' :
  input' <> list_ -> input' <> list' -> (input' = input -> list' = list_) ->
  Holds (stays input list_ f0) (clean_input r' input' list').
Proof.
  intros Hl Hne Hpair w (G & Hroot & Hkeep). unfold clean_input.
  rewrite the_file_bind.
  change (for_each (lists (heap w.1 r') input') _)
    with (remove_loop r' input'
            (fun f p => bool_decide (p ∉ lists (heap f (brewinfo f)) list'))
            (lists (heap w.1 r') input')).
  destruct (remove_loop_spec r' input'
              (fun f p => bool_decide (p ∉ lists (heap f (brewinfo f)) list')))
    with (snapshot := lists (heap w.1 r') input') (kept := @nil string) (w := w)
    as (f' & E & F & L); [| done | intros p Hp; by apply elem_of_nil in Hp |].
  { intros f f' [(_ & Hb & _) H] p. simpl. rewrite Hb, H; [done|].
    intros [_ Hm]. by apply Hne. }
  exists f'. split; [exact E|].
  assert (Hb : brewinfo w.1 = brewinfo f0) by apply G.
  destruct F as [G' H]. split; [by eapply same_graph_trans|]. split.
  - rewrite H; [done|]. intros [_ Hm]. by apply Hl.
  - intros r p Hp Hin. specialize (Hkeep r p Hp Hin).
    destruct (decide (r = r' /\ input = input')) as [[-> ->]|Hd].
    + rewrite L. simpl. apply list_elem_of_In, filter_In.
      split; [by apply list_elem_of_In|].
      apply negb_true_iff, bool_decide_eq_false. intros Hn. apply Hn.
      rewrite (Hpair eq_refl), Hb, Hroot. exact Hin.
    + rewrite H; [done|]. intros [-> ->]. by apply Hd.
Qed.

(** The first loop of [clean_list]. *)
Lemma Holds_clean_inputs input list_ f0 l :
  (input, list_) ∈ [(brew_input, brew_list); (cask_input, cask_list);
                    (appstore_input, appstore_list)] ->
  Holds (stays input list_ f0)
    (for_each l
       (fun r =>
          clean_input r brew_input brew_list;;
          clean_input r tap_input tap_list;;
          clean_input r cask_input cask_list;;
          clean_input r appstore_input appstore_list)).
Proof.
  intros Hp. apply Holds_for_each. intros r.
  repeat (apply elem_of_cons in Hp as [[= -> ->]|Hp];
          [repeat apply Holds_seq; by apply Holds_clean_input|]).
  by apply elem_of_nil in Hp.
Qed.

Lemma input_to_list_list b input list_ :
  (input, list_) ∈ [(brew_input, brew_list); (cask_input, cask_list);
                    (appstore_input, appstore_list)] ->
  lists (input_to_list b) list_ = lists b input.
Proof.
  intros Hp.
  repeat (apply elem_of_cons in Hp as [[= -> ->]|Hp]; [reflexivity|]).
  by apply elem_of_nil in Hp.
Qed.

(** The last loop of [clean_list]: the list of a document of
    [brewinfo_ext] becomes what the document declares. *)
Lemma input_to_list_ext_spec input list_ w :
  (input, list_) ∈ [(brew_input, brew_list); (cask_input, cask_list);
                    (appstore_input, appstore_list)] ->
  exists f',
    input_to_list_all true w = (Done tt, (f', w.2))
    /\ forall r, r ∈ brewinfo_ext w.1 ->
         lists (heap f' r) list_ = lists (heap w.1 r) input.
Proof.
  intros Hp. unfold input_to_list_all. rewrite the_file_bind. simpl.
  assert (Hn : input ∉ list_names).
  { apply list_names_inputs.
    repeat (apply elem_of_cons in Hp as [[= -> ->]|Hp]; [set_solver|]).
    by apply elem_of_nil in Hp. }
  assert (H : forall l done_ f,
             (forall i, lists (heap f i) input = lists (heap w.1 i) input) ->
             (forall r, r ∈ done_ ->
                lists (heap f r) list_ = lists (heap w.1 r) input) ->
             exists f',
               for_each l (fun r => on_doc r (modify input_to_list)) (f, w.2)
               = (Done tt, (f', w.2))
               /\ forall r, r ∈ done_ ++ l ->
                    lists (heap f' r) list_ = lists (heap w.1 r) input).
  { induction l as [|r' l IH]; intros done_ f Hi Hd.
    - exists f. split; [reflexivity|]. intros r. rewrite app_nil_r. apply Hd.
    - set (f1 := store r' (input_to_list (heap f r')) f).
      destruct (IH (done_ ++ [r']) f1) as (f' & E & H').
      + intros i. simpl. destruct (decide (i = r')) as [->|]; [|apply Hi].
        rewrite lists_input_to_list by done. apply Hi.
      + intros r Hr. simpl. destruct (decide (r = r')) as [->|Hne].
        * rewrite (input_to_list_list _ input list_ Hp). apply Hi.
        * apply Hd. apply elem_of_app in Hr as [Hr|Hr]; [done|].
          by apply list_elem_of_singleton in Hr.
      + exists f'. split; [exact E|]. intros r Hr. apply H'.
        by rewrite <- app_assoc. }
  destruct w as [f ev]. simpl in *.
  destruct (H (brewinfo_ext f) [] f) as (f' & E & H');
    [done | intros r Hr; by apply elem_of_nil in Hr |].
  exists f'. split; [exact E|]. intros r Hr. by apply H'.
Qed.

(** C4. [clean_list] returns, and once it has, whatever a document other
    than the main one declares as a package, a GUI package or a store
    application is in no list of that domain of the main document. An
    entry that such a document declared when [clean_list] was called and
    that the root document held as installed is still declared by that
    document, is in its list and is not in the list of the main document:
    an entry declared in the root and in a satellite is kept by the
    satellite only. *)
Theorem C4_clean_list_leaves_no_duplicate (w : World) :
  brewinfo_main w.1 ∉ brewinfo_ext w.1 ->
  exists f',
    clean_list w = (Done tt, (f', w.2))
    /\ same_graph w.1 f'
    /\ no_duplicate brew_list brew_input f'
    /\ no_duplicate cask_list cask_input f'
    /\ no_duplicate cask_nocask_list cask_input f'
    /\ no_duplicate appstore_list appstore_input f'
    /\ kept_by_satellite brew_list brew_input w.1 f'
    /\ kept_by_satellite cask_list cask_input w.1 f'
    /\ kept_by_satellite appstore_list appstore_input w.1 f'.
Proof.
  intros Hmain. set (G := w.1). unfold clean_list. rewrite the_file_bind.
  destruct (Frames_clean_inputs G w (same_graph_refl G)) as (f1 & E1 & F1).
  assert (S1 : forall input list_,
             (input, list_) ∈ [(brew_input, brew_list); (cask_input, cask_list);
                               (appstore_input, appstore_list)] ->
             stays input list_ G f1).
  { intros input list_ Hp.
    destruct (Holds_clean_inputs input list_ G
                (brewinfo_ext G ++ [brewinfo_main G]) Hp w (stays_refl _ _ G))
      as (f1' & E1' & S).
    fold G in E1. rewrite E1 in E1'. by injection E1' as <-. }
  rewrite (bind_done _ _ _ _ _ E1).
  assert (G1 : same_graph G f1) by apply F1.
  destruct (Frames_list_to_main G (f1, w.2) G1) as (f2 & E2 & F2).
  rewrite (bind_done _ _ _ _ _ E2).
  assert (G2 : same_graph G f2) by (eapply same_graph_trans; [exact G1 | apply F2]).
  destruct (dedup_spec G brew_list brew_input (f2, w.2)) as (f3 & E3 & F3 & Q3);
    [done | done |].
  rewrite (bind_done _ _ _ _ _ E3).
  assert (G3 : same_graph G f3) by (eapply same_graph_trans; [exact G2 | apply F3]).
  destruct (dedup_spec G cask_list cask_input (f3, w.2)) as (f4 & E4 & F4 & Q4);
    [done | done |].
  rewrite (bind_done _ _ _ _ _ E4).
  assert (G4 : same_graph G f4) by (eapply same_graph_trans; [exact G3 | apply F4]).
  destruct (dedup_spec G cask_nocask_list cask_input (f4, w.2))
    as (f5 & E5 & F5 & Q5); [done | done |].
  rewrite (bind_done _ _ _ _ _ E5).
  assert (G5 : same_graph G f5) by (eapply same_graph_trans; [exact G4 | apply F5]).
  destruct (dedup_spec G appstore_list appstore_input (f5, w.2))
    as (f6 & E6 & F6 & Q6); [done | done |].
  rewrite (bind_done _ _ _ _ _ E6).
  assert (G6 : same_graph G f6) by (eapply same_graph_trans; [exact G5 | apply F6]).
  rewrite the_file_bind. simpl fst.
  assert (Hm6 : brewinfo_main f6 = brewinfo_main G) by apply G6.
  rewrite Hm6.
  destruct (Frames_modify G (fun i m => i = brewinfo_main G /\ m = main_list)
              (brewinfo_main G) (fun b => add main_list (lists b main_input) b))
    with (w := (f6, w.2)) as (f7 & E7 & F7); [|done|].
  { intros b m Hc. unfold add. rewrite lists_set_list.
    destruct (decide (m = main_list)) as [->|]; [by destruct Hc | done]. }
  rewrite (bind_done _ _ _ _ _ E7).
  assert (G7 : same_graph G f7) by (eapply same_graph_trans; [exact G6 | apply F7]).
  destruct (Frames_modify G (fun i m => i = brewinfo_main G /\ m = file_list)
              (brewinfo_main G) (fun b => add file_list (lists b file_input) b))
    with (w := (f7, w.2)) as (f8 & E8 & F8); [|done|].
  { intros b m Hc. unfold add. rewrite lists_set_list.
    destruct (decide (m = file_list)) as [->|]; [by destruct Hc | done]. }
  rewrite (bind_done _ _ _ _ _ E8).
  assert (G8 : same_graph G f8) by (eapply same_graph_trans; [exact G7 | apply F8]).
  destruct (Frames_input_to_list_ext G (f8, w.2) G8) as (f9 & E9 & F9).
  exists f9. split; [exact E9|].
  split; [eapply same_graph_trans; [exact G8 | apply F9]|].
  assert (Hext : forall n (r : nat), n ∈ [brew_input; cask_input; appstore_input] ->
            ~ (r ∈ brewinfo_ext G /\ n ∈ list_names)).
  { intros n r Hn [_ Hl]. by apply (list_names_inputs n). }
  assert (Hmn : forall n : lname, ~ (brewinfo_main G ∈ brewinfo_ext G /\ n ∈ list_names)).
  { intros n [Hin _]. by apply Hmain. }
  assert (N3 : no_duplicate brew_list brew_input f9).
  { eapply (no_duplicate_kept _ G); [exact G8 | exact F9 | apply Hmn | |].
    { intros r _. apply Hext. set_solver. }
    eapply (no_duplicate_kept _ G); [exact G7 | exact F8 | by intros [_ ?] | by intros r _ [_ ?] |].
    eapply (no_duplicate_kept _ G); [exact G6 | exact F7 | by intros [_ ?] | by intros r _ [_ ?] |].
    eapply (no_duplicate_kept _ G); [exact G5 | exact F6 | by intros [_ ?] | by intros r _ [_ ?] |].
    eapply (no_duplicate_kept _ G); [exact G4 | exact F5 | by intros [_ ?] | by intros r _ [_ ?] |].
    eapply (no_duplicate_kept _ G); [exact G3 | exact F4 | by intros [_ ?] | by intros r _ [_ ?] |].
    exact Q3. }
  assert (N4 : no_duplicate cask_list cask_input f9).
  { eapply (no_duplicate_kept _ G); [exact G8 | exact F9 | apply Hmn | |].
    { intros r _. apply Hext. set_solver. }
    eapply (no_duplicate_kept _ G); [exact G7 | exact F8 | by intros [_ ?] | by intros r _ [_ ?] |].
    eapply (no_duplicate_kept _ G); [exact G6 | exact F7 | by intros [_ ?] | by intros r _ [_ ?] |].
    eapply (no_duplicate_kept _ G); [exact G5 | exact F6 | by intros [_ ?] | by intros r _ [_ ?] |].
    eapply (no_duplicate_kept _ G); [exact G4 | exact F5 | by intros [_ ?] | by intros r _ [_ ?] |].
    exact Q4. }
  assert (N5 : no_duplicate cask_nocask_list cask_input f9).
  { eapply (no_duplicate_kept _ G); [exact G8 | exact F9 | apply Hmn | |].
    { intros r _. apply Hext. set_solver. }
    eapply (no_duplicate_kept _ G); [exact G7 | exact F8 | by intros [_ ?] | by intros r _ [_ ?] |].
    eapply (no_duplicate_kept _ G); [exact G6 | exact F7 | by intros [_ ?] | by intros r _ [_ ?] |].
    eapply (no_duplicate_kept _ G); [exact G5 | exact F6 | by intros [_ ?] | by intros r _ [_ ?] |].
    exact Q5. }
  assert (N6 : no_duplicate appstore_list appstore_input f9).
  { eapply (no_duplicate_kept _ G); [exact G8 | exact F9 | apply Hmn | |].
    { intros r _. apply Hext. set_solver. }
    eapply (no_duplicate_kept _ G); [exact G7 | exact F8 | by intros [_ ?] | by intros r _ [_ ?] |].
    eapply (no_duplicate_kept _ G); [exact G6 | exact F7 | by intros [_ ?] | by intros r _ [_ ?] |].
    exact Q6. }
  assert (K : forall input list_,
             (input, list_) ∈ [(brew_input, brew_list); (cask_input, cask_list);
                               (appstore_input, appstore_list)] ->
             no_duplicate list_ input f9 ->
             kept_by_satellite list_ input G f9).
  { intros input list_ Hp N r p Hr Hin Hroot.
    assert (Hn : input ∉ list_names).
    { apply list_names_inputs.
      clear -Hp. repeat (apply elem_of_cons in Hp as [[= -> ->]|Hp]; [set_solver|]).
      by apply elem_of_nil in Hp. }
    destruct (S1 input list_ Hp) as (_ & _ & Hkeep).
    specialize (Hkeep r p Hin Hroot).
    assert (H8 : lists (heap f8 r) input = lists (heap f1 r) input).
    { destruct F2 as [_ H2], F3 as [_ H3], F4 as [_ H4], F5 as [_ H5],
        F6 as [_ H6], F7 as [_ H7], F8 as [_ H8].
      rewrite H8, H7, H6, H5, H4, H3, H2; first done;
        intros [_ Hc]; try (by apply Hn); subst input;
        apply Hn; unfold list_names; set_solver. }
    assert (H9 : lists (heap f9 r) input = lists (heap f8 r) input).
    { destruct F9 as [_ H9]. rewrite H9; [done|]. intros [_ Hc]. by apply Hn. }
    destruct (input_to_list_ext_spec input list_ (f8, w.2) Hp) as (f9' & E9' & L9).
    rewrite E9 in E9'. injection E9' as <-.
    assert (Hr8 : r ∈ brewinfo_ext f8).
    { destruct G8 as (_ & _ & _ & ->). exact Hr. }
    assert (Hp9 : p ∈ lists (heap f9 r) input) by (by rewrite H9, H8).
    split; [exact Hp9|]. split.
    - rewrite (L9 r Hr8). simpl. by rewrite H8.
    - apply (N r p); [|exact Hp9].
      assert (Hg : same_graph G f9)
        by (eapply same_graph_trans; [exact G8 | apply F9]).
      destruct Hg as (_ & _ & _ & ->). exact Hr. }
  split; [exact N3|]. split; [exact N4|]. split; [exact N5|].
  split; [exact N6|].
  split; [apply K; [set_solver|exact N3]|].
  split; [apply K; [set_solver|exact N4]|apply K; [set_solver|exact N6]].
Qed.

Lemma C4_witness :
  exists f',
    clean_list (two_documents, []) = (Done tt, (f', []))
    /\ same_graph two_documents f'
    /\ no_duplicate brew_list brew_input f'
    /\ no_duplicate cask_list cask_input f'
    /\ no_duplicate cask_nocask_list cask_input f'
    /\ no_duplicate appstore_list appstore_input f'
    /\ kept_by_satellite brew_list brew_input two_documents f'
    /\ kept_by_satellite cask_list cask_input two_documents f'
    /\ kept_by_satellite appstore_list appstore_input two_documents f'.
Proof.
  apply (C4_clean_list_leaves_no_duplicate (two_documents, [])).
  simpl. intros H. apply list_elem_of_In in H as [H|[]]. discriminate H.
Defined.

(** On [two_documents] the package [x], installed and declared by both
    documents, stays in the list of the satellite alone; [z], which is not
    installed, leaves the declaration of the satellite. *)
Lemma clean_list_two_documents :
  let f' := (clean_list (two_documents, [])).2.1 in
  lists (heap f' 0%nat) brew_list = ["y"]
  /\ lists (heap f' 1%nat) brew_list = ["x"]
  /\ lists (heap f' 1%nat) brew_input = ["x"].
Proof. by vm_compute. Qed.

(** ** The package loop of [install] *)

Lemma install_pack_exits env p f log verb io code lines :
  install_verb f p = Done (Some verb) ->
  get_dict f brew_input_opt false !! p = Some io ->
  proc_result env log ("brew " +:+ verb +:+ " " +:+ p +:+ io) = (code, lines) ->
  code <> 0 ->
  install_pack env p (f, log)
  = (Exited code,
     (f, log ++ [Proc ("brew " +:+ verb +:+ " " +:+ p +:+ io);
                 ErrLine ("Failed at command: "
                          +:+ ("brew " +:+ verb +:+ " " +:+ p +:+ io))])).
Proof.
  intros Hv Hio Hr Hc. unfold install_pack. rewrite the_file_bind.
  unfold lift_outcome, item. simpl.
  unfold mbind, M_bind, bind. simpl. rewrite Hv, Hio. simpl.
  unfold proc. simpl. rewrite Hr. simpl.
  by rewrite bool_decide_eq_false_2.
Qed.

(** A package whose command fails ends the loop, whatever follows it. *)
Lemma install_packs_exits env p rest reinit f log verb io code lines :
  install_verb f p = Done (Some verb) ->
  get_dict f brew_input_opt false !! p = Some io ->
  proc_result env log ("brew " +:+ verb +:+ " " +:+ p +:+ io) = (code, lines) ->
  code <> 0 ->
  (install_packs env (p :: rest) reinit (f, log)).1 = Exited code.
Proof.
  intros Hv Hio Hr Hc. simpl.
  by rewrite (bind_exited _ _ _ _ _
                (install_pack_exits env p f log verb io code lines Hv Hio Hr Hc)).
Qed.

(** C5 fails on the code. The manifest declares [bad] and [git], nothing is
    installed and the installation of [bad] ends with the code 1: [proc]
    runs with [exit_on_err] set, so the process exits with that code, the
    warning that follows in the source is never reached and [git] is never
    tried. *)
Theorem C5_failing_package_ends_the_process :
  let r := install (machine true [] [] [] [] bad_fails)
             (graph_of default_opt (ln "brew bad" +:+ ln "brew git"), []) in
  r.1 = Exited 1
  /\ r.2.2 = [Proc "brew install bad";
              ErrLine "Failed at command: brew install bad"]
  /\ "brew install git" ∉ commands r.2.2.
Proof.
  split; [by vm_compute|]. split; [by vm_compute|].
  vm_compute. intros H. apply list_elem_of_In in H as [H|[]]. discriminate H.
Qed.

(** ** The store applications of [install] *)

(** C7 fails on the code. The manifest declares the application 123456789
    under the name Foo and the machine reports the same identifier under the
    name Bar: [install] compares the names only and purchases the
    application, while the search of [cleanup] takes the two entries for the
    same application. *)
Theorem C7_install_ignores_equal_identifiers :
  let r := install (machine true [] [] [] ["123456789 Bar"] all_succeed)
             (graph_of default_opt (ln "appstore 123456789 Foo"), []) in
  r.1 = Done 0
  /\ r.2.2 = [InfoLine "Installing Foo"; Proc "mas purchase 123456789"]
  /\ app_in_list "Foo" ["123456789 Bar"] = Done false
  /\ app_in_input "123456789" "Bar" ["123456789 Foo"] = Done true.
Proof. repeat split; by vm_compute. Qed.

(** C8 fails on the code. The manifest declares [123456789 Foo] and the
    machine reports [123456789 Foo (2.1)]: [install] keeps the version in the
    name it compares and purchases the application, while [cleanup] cuts the
    version before it compares. *)
Theorem C8_install_keeps_the_version_suffix :
  let r := install (machine true [] [] [] ["123456789 Foo (2.1)"] all_succeed)
             (graph_of default_opt (ln "appstore 123456789 Foo"), []) in
  r.1 = Done 0
  /\ r.2.2 = [InfoLine "Installing Foo"; Proc "mas purchase 123456789"]
  /\ app_of_install "123456789 Foo (2.1)" = Done ("123456789", "Foo (2.1)")
  /\ app_of_cleanup "123456789 Foo (2.1)" = Done ("123456789", "Foo").
Proof. repeat split; by vm_compute. Qed.














(** ** Runs without commands *)


























(** The events of the scenario on a machine where every command succeeds
    without output: the reinstallation, then the manifest is written again
    with the options that the machine now reports. *)
Lemma install_vim_with_lua_events :
  (install (vim_with_python all_succeed)
     (graph_of default_opt (ln "brew vim --with-lua"), [])).2.2
  = [Proc "brew reinstall vim --with-lua";
     BannerLine "# Initialize Brewfile";
     FileWrite "Brewfile"
       (Py.nl +:+ ln "# Other Homebrew packages" +:+ ln "brew vim");
     Chmod "644" "Brewfile";
     BannerLine "# You can edit Brewfile"].
Proof. by vm_compute. Qed.

(** ** Runs and their events *)

Lemma Run_ret {A} I P (a : A) : Run I P (mret a : M World A).
Proof. intros w Hw. split; [done|]. exists []. by rewrite app_nil_r. Qed.

Lemma Run_raise {A} I P e : Run I P (raise e : M World A).
Proof. intros w Hw. split; [done|]. exists []. by rewrite app_nil_r. Qed.

Lemma Run_bind {A B} I P (m : M World A) (k : A -> M World B) :
  Run I P m -> (forall a, Run I P (k a)) -> Run I P (m ≫= k).
Proof.
  intros Hm Hk w Hw. destruct (Hm w Hw) as (Hi & E1 & HE1 & HP1).
  destruct (m w) as [[a|e|c] w'] eqn:E.
  - rewrite (bind_done _ _ _ _ _ E).
    destruct (Hk a w' Hi) as (Hi' & E2 & HE2 & HP2). split; [done|].
    exists (E1 ++ E2). simpl in HE1. rewrite HE2, HE1, app_assoc.
    split; [done | by apply Forall_app].
  - rewrite (bind_raised _ _ _ _ _ E). split; [done|]. by exists E1.
  - rewrite (bind_exited _ _ _ _ _ E). split; [done|]. by exists E1.
Qed.

Lemma Run_the_file {A} I P (k : BrewFile -> M World A) :
  (forall f, I f -> Run I P (k f)) -> Run I P (the_file ≫= k).
Proof. intros H w Hw. exact (H w.1 Hw w Hw). Qed.

Lemma Run_when I P c (m : M World unit) : Run I P m -> Run I P (when c m).
Proof. intros H. destruct c; [done | apply Run_ret]. Qed.

Lemma Run_for_each {A} I P (l : list A) (body : A -> M World unit) :
  (forall x, x ∈ l -> Run I P (body x)) -> Run I P (for_each l body).
Proof.
  induction l as [|x l IH]; intros H; simpl; [apply Run_ret|].
  apply Run_bind; [apply H; left | intros _; apply IH; intros y Hy; apply H; by right].
Qed.

Lemma Run_event I (P : Event -> Prop) e : P e -> Run I P (event e).
Proof. intros H w Hw. split; [done|]. exists [e]. split; [done | by constructor]. Qed.

Lemma Run_lift_outcome {A} I P (r : outcome A) : Run I P (lift_outcome r).
Proof. intros w Hw. split; [done|]. exists []. by rewrite app_nil_r. Qed.

Lemma Run_proc I (P : Event -> Prop) env cmd e :
  P (Proc cmd) -> P (ErrLine ("Failed at command: " +:+ cmd)) ->
  Run I P (proc env cmd e).
Proof.
  intros H1 H2 w Hw. unfold proc.
  destruct (e && negb (bool_decide ((proc_result env w.2 cmd).1 = 0)));
    (split; [done|]); eexists; (split; [reflexivity|]); by repeat constructor.
Qed.

Lemma Run_run_proc I (P : Event -> Prop) env cmd e :
  P (Proc cmd) -> P (ErrLine ("Failed at command: " +:+ cmd)) ->
  Run I P (run_proc env cmd e).
Proof.
  intros H1 H2. unfold run_proc. apply Run_bind; [by apply Run_proc|].
  intros _. apply Run_ret.
Qed.

Lemma Run_print_or_proc I (P : Event -> Prop) env o cmd e :
  P (PrintLine cmd) -> P (Proc cmd) ->
  P (ErrLine ("Failed at command: " +:+ cmd)) ->
  Run I P (print_or_proc env o cmd e).
Proof.
  intros H0 H1 H2. unfold print_or_proc.
  destruct (dryrun o); [by apply Run_event | by apply Run_run_proc].
Qed.

Lemma Run_on_doc {A} (I : BrewFile -> Prop) P r (m : M BrewInfo A) :
  (forall f, I f -> I (store r (m (heap f r)).2 f)) -> Run I P (on_doc r m).
Proof.
  intros H w Hw. split; [by apply H|]. exists []. by rewrite app_nil_r.
Qed.

Lemma Run_weaken {A} I (P P' : Event -> Prop) (m : M World A) :
  (forall e, P e -> P' e) -> Run I P m -> Run I P' m.
Proof.
  intros H Hm w Hw. destruct (Hm w Hw) as (Hi & E & HE & HP).
  split; [done|]. exists E. split; [done|]. eapply Forall_impl; eauto.
Qed.

Lemma Run2_late {A} I P1 P2 (m : M World A) : Run I P2 m -> Run2 I P1 P2 m.
Proof.
  intros Hm w Hw. destruct (Hm w Hw) as (Hi & E & HE & HP).
  split; [done|]. exists [], E. by repeat split.
Qed.

Lemma Run2_bind {A B} I P1 P2 (m : M World A) (k : A -> M World B) :
  Run I P1 m -> (forall a, Run2 I P1 P2 (k a)) -> Run2 I P1 P2 (m ≫= k).
Proof.
  intros Hm Hk w Hw. destruct (Hm w Hw) as (Hi & E1 & HE1 & HP1).
  destruct (m w) as [[a|e|c] w'] eqn:E.
  - rewrite (bind_done _ _ _ _ _ E).
    destruct (Hk a w' Hi) as (Hi' & E2 & E3 & HE2 & HP2 & HP3). split; [done|].
    exists (E1 ++ E2), E3. simpl in HE1. rewrite HE2, HE1, !app_assoc.
    split; [done|]. split; [by apply Forall_app | done].
  - rewrite (bind_raised _ _ _ _ _ E). split; [done|].
    exists E1, []. rewrite app_nil_r. by repeat split.
  - rewrite (bind_exited _ _ _ _ _ E). split; [done|].
    exists E1, []. rewrite app_nil_r. by repeat split.
Qed.

Lemma Run2_the_file {A} I P1 P2 (k : BrewFile -> M World A) :
  (forall f, I f -> Run2 I P1 P2 (k f)) -> Run2 I P1 P2 (the_file ≫= k).
Proof. intros H w Hw. exact (H w.1 Hw w Hw). Qed.

(** ** The events of [cleanup] *)

Lemma declared_since_refl f : declared_since f f.
Proof. split; [apply same_graph_refl|]. intros i. by repeat split. Qed.

(** A step on one document that changes neither its taps nor its casks and
    only adds to its packages keeps [declared_since]. *)
Lemma declared_since_store f0 f r b :
  declared_since f0 f ->
  lists b tap_input = lists (heap f r) tap_input ->
  lists b cask_input = lists (heap f r) cask_input ->
  lists (heap f r) brew_input ⊆ lists b brew_input ->
  declared_since f0 (store r b f).
Proof.
  intros [G H] Ht Hc Hb. split; [exact G|]. intros i. simpl.
  destruct (H i) as (H1 & H2 & H3).
  destruct (decide (i = r)) as [->|]; [|done].
  rewrite Ht, Hc. repeat split; [done | done |]. by etrans.
Qed.

Lemma get_declared_since f0 f :
  declared_since f0 f ->
  get f tap_input false = get f0 tap_input false
  /\ get f cask_input false = get f0 cask_input false
  /\ get f0 brew_input false ⊆ get f brew_input false.
Proof.
  intros [(_ & _ & Hm & He) H]. unfold get. rewrite Hm, He.
  repeat split.
  - f_equal; [apply H|]. f_equal. apply map_ext. intros r. apply H.
  - f_equal; [apply H|]. f_equal. apply map_ext. intros r. apply H.
  - intros x Hx. apply elem_of_app in Hx as [Hx|Hx]; apply elem_of_app.
    + left. by apply (H (brewinfo_main f0)).
    + right. apply list_elem_of_In, in_concat in Hx as (l & Hl & Hx).
      apply in_map_iff in Hl as (r & <- & Hr).
      apply list_elem_of_In, in_concat. exists (lists (heap f r) brew_input).
      split; [apply in_map_iff; by exists r|].
      apply list_elem_of_In, (H r). by apply list_elem_of_In.
Qed.

Lemma lists_remove n p b m :
  m <> n -> lists (remove n p b).2 m = lists b m.
Proof.
  intros Hm. unfold remove. destruct (Py.list_remove p (lists b n)); [|done].
  simpl. by rewrite decide_False.
Qed.

Lemma Run_remove f0 P r n p :
  n ∉ [tap_input; cask_input; brew_input] ->
  Run (declared_since f0) P (on_doc r (remove n p)).
Proof.
  intros Hn. apply Run_on_doc. intros f Hf.
  apply declared_since_store; [done|..]; rewrite lists_remove; set_solver.
Qed.

Lemma Run_remove_pack f0 P n p :
  n ∉ [tap_input; cask_input; brew_input] ->
  Run (declared_since f0) P (remove_pack n p).
Proof.
  intros Hn. unfold remove_pack. apply Run_the_file. intros f _.
  destruct (bool_decide _); [by apply Run_remove|].
  apply Run_for_each. intros r _. apply Run_the_file. intros f' _.
  apply Run_when. by apply Run_remove.
Qed.

Lemma Run_modify f0 P r (g : BrewInfo -> BrewInfo) :
  (forall b, lists (g b) tap_input = lists b tap_input
             /\ lists (g b) cask_input = lists b cask_input
             /\ lists b brew_input ⊆ lists (g b) brew_input) ->
  Run (declared_since f0) P (on_doc r (modify g)).
Proof.
  intros Hg. apply Run_on_doc. intros f Hf. simpl.
  destruct (Hg (heap f r)) as (H1 & H2 & H3). by apply declared_since_store.
Qed.

Lemma Run_add_dependncies env f0 P depth :
  forall p, Run (declared_since f0) P (add_dependncies env depth p).
Proof.
  induction depth as [|depth IH]; intros p; simpl; [apply Run_raise|].
  destruct (info_of env p); [|apply Run_raise].
  apply Run_for_each. intros pac _. apply Run_the_file. intros f _.
  destruct (_ && _); [|apply Run_ret].
  apply Run_bind; [|intros _; apply IH].
  apply Run_modify. intros b. repeat split. simpl.
  unfold append. simpl. set_solver.
Qed.

(** Commands that are not the removal of a tap. *)
Lemma no_untap_other e :
  (forall c, e <> PrintLine c) -> (forall c, e <> Proc c) -> no_untap e.
Proof. intros H1 H2 R. split; [apply H1 | apply H2]. Qed.

Lemma no_untap_cmd c :
  (forall R, c <> untap R) -> no_untap (PrintLine c) /\ no_untap (Proc c).
Proof.
  intros H. split; intros R; split; try discriminate; intros [= E]; by apply (H R).
Qed.

Lemma rm_command_starts env (a : string) l :
  forall acc x, acc = String "s" x ->
    exists y,
      foldl (fun cmd d =>
               if isdir env (d +:+ "/" +:+ a +:+ ".app")
               then cmd +:+ " '" +:+ (d +:+ "/" +:+ a +:+ ".app") +:+ "'"
               else cmd)
        acc l
      = String "s" y.
Proof.
  induction l as [|d l IH]; intros acc x ->; simpl; [eauto|].
  destruct (isdir env _); eapply IH; reflexivity.
Qed.

Lemma no_untap_banner t : no_untap (BannerLine t).
Proof. apply no_untap_other; discriminate. Qed.

Lemma no_untap_warn t : no_untap (WarnLine t).
Proof. apply no_untap_other; discriminate. Qed.

Lemma no_untap_err t : no_untap (ErrLine t).
Proof. apply no_untap_other; discriminate. Qed.

Lemma Run_queue_no_untap I env o cmd e :
  (forall R, cmd <> untap R) -> Run I no_untap (print_or_proc env o cmd e).
Proof.
  intros H. destruct (no_untap_cmd cmd H).
  apply Run_print_or_proc; [done | done | apply no_untap_err].
Qed.

Lemma Run_proc_no_untap I env cmd e :
  (forall R, cmd <> untap R) -> Run I no_untap (run_proc env cmd e).
Proof.
  intros H. destruct (no_untap_cmd cmd H).
  apply Run_run_proc; [done | apply no_untap_err].
Qed.

Lemma Run_cleanup_app env f0 p :
  Run (declared_since f0) no_untap (cleanup_app env p).
Proof.
  unfold cleanup_app. apply Run_the_file. intros f _.
  apply Run_bind; [apply Run_lift_outcome | intros a].
  apply Run_bind; [apply Run_lift_outcome | intros isinput].
  destruct isinput; [apply Run_ret|].
  assert (Hrm : Run (declared_since f0) no_untap (remove_pack appstore_list p))
    by (apply Run_remove_pack; set_solver).
  destruct (_ && _).
  - apply Run_bind; [|done]. apply Run_queue_no_untap. intros R E. discriminate E.
  - apply Run_bind; [apply Run_proc_no_untap; intros R E; discriminate E|].
    intros _. cbv zeta.
    destruct (rm_command_starts env a.2 (appdirlist (opt f)) "sudo rm -rf" _ eq_refl)
      as [y Hy].
    rewrite Hy. destruct (bool_decide _).
    + apply Run_bind; [apply Run_event, no_untap_warn | done].
    + apply Run_bind; [|done]. apply Run_queue_no_untap. intros R E. discriminate E.
Qed.

Lemma Run_cleanup_pack env f0 p :
  Run (declared_since f0) no_untap (cleanup_pack env p).
Proof.
  unfold cleanup_pack. apply Run_the_file. intros f _.
  destruct (bool_decide _); [apply Run_ret|].
  apply Run_queue_no_untap. intros R E. discriminate E.
Qed.

Lemma late_other env f0 e :
  (forall c, e <> PrintLine c) -> (forall c, e <> Proc c) -> late_event env f0 e.
Proof.
  intros H1 H2. split.
  - intros P. split; [apply H1 | apply H2].
  - intros R [E|E]; [by destruct (H1 _ E) | by destruct (H2 _ E)].
Qed.

Lemma late_cmd env f0 c :
  (forall P, c <> uninstall P) ->
  (forall R, c = untap R -> unused_tap env f0 R) ->
  late_event env f0 (PrintLine c) /\ late_event env f0 (Proc c).
Proof.
  intros H1 H2. split; (split; [intros P; split; try discriminate;
    intros [= E]; by apply (H1 P) | intros R [[= E]|[= E]]; by apply H2]).
Qed.

Lemma Run_queue_late I env f0 o cmd e :
  (forall P, cmd <> uninstall P) ->
  (forall R, cmd = untap R -> unused_tap env f0 R) ->
  Run I (late_event env f0) (print_or_proc env o cmd e).
Proof.
  intros H1 H2. destruct (late_cmd env f0 cmd H1 H2).
  apply Run_print_or_proc; [done | done | apply late_other; discriminate].
Qed.

Lemma existsb_false {A} (p : A -> bool) l x :
  existsb p l = false -> x ∈ l -> p x = false.
Proof.
  intros H Hx. destruct (p x) eqn:E; [|done].
  assert (existsb p l = true); [|congruence].
  apply existsb_exists. exists x. split; [by apply list_elem_of_In | done].
Qed.

Lemma Run_cleanup_tap env f0 p :
  Run (declared_since f0) (late_event env f0) (cleanup_tap env p).
Proof.
  unfold cleanup_tap. apply Run_the_file. intros f Hf.
  destruct (get_declared_since f0 f Hf) as (Ht & Hc & Hb).
  case_bool_decide as Hp; [apply Run_ret|].
  destruct (tap_in_use env f p) eqn:Hu; [apply Run_ret|].
  apply Run_queue_late.
  - intros P E. discriminate E.
  - intros R E. unfold untap in E. cbv in E. injection E as E. subst p.
    unfold tap_in_use in Hu. apply orb_false_iff in Hu as [Hu1 Hu2].
    split; [by rewrite <- Ht|]. split.
    + intros tp Htp Hin.
      pose proof (existsb_false _ _ tp Hu1 Htp) as Hf'.
      apply bool_decide_eq_false in Hf'. apply Hf', Hb, Hin.
    + intros Hmac tc Htc Hin. rewrite Hmac in Hu2. simpl in Hu2.
      pose proof (existsb_false _ _ tc Hu2 Htc) as Hf'.
      apply bool_decide_eq_false in Hf'. apply Hf'. by rewrite Hc.
Qed.

Lemma Run_get_list env f0 force :
  Run (declared_since f0) no_untap (get_list env force).
Proof.
  unfold get_list.
  repeat first
    [ apply Run_the_file; intros ? ?
    | apply Run_bind; [|intros ?]
    | apply Run_when
    | apply Run_for_each; intros ? ?
    | apply Run_event, no_untap_warn
    | apply Run_ret
    | apply Run_modify; intros ?; repeat split; done
    | match goal with |- Run _ _ (if ?c then _ else _) => destruct c end ].
Qed.

Lemma late_banner env f0 t : late_event env f0 (BannerLine t).
Proof. apply late_other; discriminate. Qed.

(** The events of [cleanup_body] are the removals of applications, casks
    and packages, none of which removes a tap, followed by the removals of
    unused taps and of the cache, none of which removes a package. *)
Lemma Run2_cleanup_body env f0 depth :
  Run2 (declared_since f0) no_untap (late_event env f0) (cleanup_body env depth).
Proof.
  unfold cleanup_body.
  apply Run2_the_file. intros f1 _.
  apply Run2_bind.
  { apply Run_for_each. intros p _.
    destruct (bool_decide _); [apply Run_add_dependncies | apply Run_ret]. }
  intros _. apply Run2_the_file. intros f2 _.
  apply Run2_bind.
  { apply Run_when. apply Run_bind; [apply Run_event, no_untap_banner|].
    intros _. apply Run_for_each. intros p _. apply Run_cleanup_app. }
  intros _. apply Run2_the_file. intros f3 _.
  apply Run2_bind.
  { apply Run_when. apply Run_bind; [apply Run_event, no_untap_banner|].
    intros _. apply Run_for_each. intros p _. apply Run_the_file. intros f _.
    destruct (bool_decide _); [apply Run_ret|].
    apply Run_bind;
      [apply Run_queue_no_untap; intros R E; discriminate E|].
    intros _. apply Run_remove_pack. set_solver. }
  intros _. apply Run2_the_file. intros f4 _.
  apply Run2_bind.
  { apply Run_when. apply Run_remove_pack. set_solver. }
  intros _. apply Run2_the_file. intros f5 _.
  apply Run2_bind.
  { apply Run_when. apply Run_bind; [apply Run_event, no_untap_banner|].
    intros _. apply Run_for_each. intros p _. apply Run_cleanup_pack. }
  intros _. apply Run2_late. apply Run_the_file. intros f6 _.
  apply Run_bind.
  { apply Run_when. apply Run_bind; [apply Run_event, late_banner|].
    intros _. apply Run_for_each. intros p _. apply Run_cleanup_tap. }
  intros _. apply Run_bind; [apply Run_event, late_banner|].
  intros _. apply Run_bind.
  { apply Run_queue_late; intros ? E; discriminate E. }
  intros _. apply Run_bind.
  { apply Run_queue_late; intros ? E; discriminate E. }
  intros _. apply Run_when, Run_event, late_banner.
Qed.

Lemma Run2_cleanup env f0 depth :
  Run2 (declared_since f0) no_untap (late_event env f0) (cleanup env depth).
Proof.
  unfold cleanup. apply Run2_the_file. intros f _.
  apply Run2_bind; [apply Run_when, Run_event, no_untap_banner|].
  intros _. apply Run2_bind; [apply Run_get_list|].
  intros _. apply Run2_cleanup_body.
Qed.

(** C3, as worded, fails: off the Mac [cleanup] does not look at the casks
    of a tap, and removes the tap [u/r] although the cask [c] that it holds
    is declared. *)
Lemma C3_counterexample :
  ~ untaps_only_unused linux_with_tap 5 (graph_of default_opt (ln "cask c")).
Proof.
  intros H. destruct (H "u/r") as [_ Hc].
  - left.
    assert (E : (cleanup linux_with_tap 5
                   (graph_of default_opt (ln "cask c"), [])).2.2
                = [BannerLine "# This is dry run.";
                   BannerLine "# Clean up tap packages";
                   PrintLine "brew untap u/r";
                   BannerLine "# Clean up cache"; PrintLine "brew cleanup";
                   PrintLine "rm -rf /cache"; BannerLine "# This is dry run."])
      by (by vm_compute).
    rewrite E. unfold untap. simpl. set_solver.
  - apply (Hc "c"); [vm_compute; left|]. vm_compute. left.
Qed.


(** The scenario of the specification: the tap [u/r] holds the installed
    formula [p] and the manifest declares neither. The dry run prints the
    removal of [p], then the removal of [u/r]. *)
Lemma cleanup_removes_package_then_tap :
  (cleanup tap_with_package 5 (graph_of default_opt (ln "# nothing"), [])).2.2
  = [BannerLine "# This is dry run.";
     BannerLine "# Clean up brew packages";
     PrintLine (uninstall "p");
     BannerLine "# Clean up tap packages";
     PrintLine (untap "u/r");
     BannerLine "# Clean up cache";
     PrintLine "brew cleanup";
     PrintLine "rm -rf /cache";
     BannerLine "# This is dry run."].
Proof. by vm_compute. Qed.

(** ** Texts, lines and tokens *)

Lemma str_app_nil_r (s : string) : s +:+ "" = s.
Proof. induction s as [|c s IH]; [done|]. change (String c (s +:+ "") = String c s). by rewrite IH. Qed.

Lemma str_app_cons c (a b : string) : String c a +:+ b = String c (a +:+ b).
Proof. reflexivity. Qed.

Lemma str_app_assoc (a b c : string) : (a +:+ b) +:+ c = a +:+ b +:+ c.
Proof.
  induction a as [|x a IH]; [done|].
  change (String x ((a +:+ b) +:+ c) = String x (a +:+ b +:+ c)). by rewrite IH.
Qed.

Lemma forallb_str_app P a b :
  Py.forallb_str P (a +:+ b) = Py.forallb_str P a && Py.forallb_str P b.
Proof.
  induction a as [|x a IH]; [done|].
  change (P x && Py.forallb_str P (a +:+ b) = P x && Py.forallb_str P a && Py.forallb_str P b).
  by rewrite IH, andb_assoc.
Qed.

Lemma forallb_str_impl (P Q : ascii -> bool) s :
  (forall c, P c = true -> Q c = true) ->
  Py.forallb_str P s = true -> Py.forallb_str Q s = true.
Proof.
  intros H. induction s as [|c s IH]; [done|]. simpl.
  intros [Hc Hs]%andb_true_iff. by rewrite (H _ Hc), IH.
Qed.

Lemma not_space_not_eol c : negb (Py.is_space c) = true -> not_eol c = true.
Proof.
  intros H. unfold not_eol.
  destruct (Ascii.eqb_spec c "010") as [->|_]; [done|].
  by destruct (Ascii.eqb_spec c "013") as [->|_].
Qed.

Lemma plain_not_space c : plain_char c = true -> negb (Py.is_space c) = true.
Proof. by intros [H _]%andb_true_iff. Qed.

Lemma word_no_space w : word w = true -> no_space w = true.
Proof.
  intros [_ H]%andb_true_iff. eapply forallb_str_impl; [apply plain_not_space|done].
Qed.

Lemma no_space_one_line w : no_space w = true -> one_line w = true.
Proof. apply forallb_str_impl, not_space_not_eol. Qed.

(** *** Lines *)

Lemma unlines_app l1 l2 : unlines (l1 ++ l2) = unlines l1 +:+ unlines l2.
Proof.
  induction l1 as [|x l1 IH]; [done|]. simpl. by rewrite IH, str_app_assoc.
Qed.

Lemma universal_newlines_id s :
  Py.forallb_str (fun c => negb (Ascii.eqb c "013")) s = true ->
  Py.universal_newlines s = s.
Proof.
  induction s as [|c s IH]; [done|]. simpl.
  intros [Hc Hs]%andb_true_iff. apply negb_true_iff in Hc. rewrite Hc.
  by rewrite IH.
Qed.

Lemma lines_go_line l : forall cur rest,
  Py.forallb_str (fun c => negb (Ascii.eqb c "010")) l = true ->
  Py.lines_go cur (l +:+ Py.nl +:+ rest) = (cur +:+ l +:+ Py.nl) :: Py.lines_go "" rest.
Proof.
  induction l as [|c l IH]; intros cur rest H.
  - reflexivity.
  - simpl in H. apply andb_true_iff in H as [Hc Hl]. apply negb_true_iff in Hc.
    rewrite str_app_cons. simpl. rewrite Hc. rewrite IH by done. by rewrite str_app_assoc.
Qed.

Lemma one_line_no_cr s :
  one_line s = true -> Py.forallb_str (fun c => negb (Ascii.eqb c "013")) s = true.
Proof. apply forallb_str_impl. by intros c [_ H]%andb_true_iff. Qed.

Lemma one_line_no_lf s :
  one_line s = true -> Py.forallb_str (fun c => negb (Ascii.eqb c "010")) s = true.
Proof. apply forallb_str_impl. by intros c [H _]%andb_true_iff. Qed.

Lemma readlines_unlines ls :
  Forall (fun l => one_line l = true) ls ->
  Py.readlines (unlines ls) = map ln ls.
Proof.
  intros H. unfold Py.readlines. rewrite universal_newlines_id.
  - induction H as [|l ls Hl _ IH]; [done|]. simpl. unfold ln at 1.
    rewrite str_app_assoc, lines_go_line by (by apply one_line_no_lf).
    by rewrite IH.
  - induction H as [|l ls Hl _ IH]; [done|]. simpl. unfold ln.
    rewrite !forallb_str_app, IH, one_line_no_cr by done. done.
Qed.

(** *** Tokens *)

Lemma replace_app c new a b :
  Py.replace c new (a +:+ b) = Py.replace c new a +:+ Py.replace c new b.
Proof.
  induction a as [|x a IH]; [done|].
  rewrite str_app_cons. simpl.
  destruct (Ascii.eqb c x); rewrite IH; [by rewrite str_app_assoc|done].
Qed.

Lemma replace_id c new s :
  Py.forallb_str (fun d => negb (Ascii.eqb c d)) s = true -> Py.replace c new s = s.
Proof.
  induction s as [|x s IH]; [done|]. simpl.
  intros [Hc Hs]%andb_true_iff. apply negb_true_iff in Hc. by rewrite Hc, IH.
Qed.

Lemma unquote_app a b : unquote (a +:+ b) = unquote a +:+ unquote b.
Proof. unfold unquote. by rewrite !replace_app. Qed.

Lemma plain_char_not c d :
  d ∈ ["'"; dquote; ","; "["; "]"]%char -> plain_char c = true ->
  negb (Ascii.eqb d c) = true.
Proof.
  intros Hd [_ H]%andb_true_iff. apply negb_true_iff, bool_decide_eq_false in H.
  apply negb_true_iff. destruct (Ascii.eqb_spec d c) as [->|]; [done|done].
Qed.

Lemma unquote_plain s : Py.forallb_str plain_char s = true -> unquote s = s.
Proof.
  intros H. unfold unquote.
  rewrite (replace_id "'")
    by (eapply forallb_str_impl; [|exact H]; intros c; apply plain_char_not; set_solver).
  rewrite (replace_id dquote)
    by (eapply forallb_str_impl; [|exact H]; intros c; apply plain_char_not; set_solver).
  rewrite (replace_id ",")
    by (eapply forallb_str_impl; [|exact H]; intros c; apply plain_char_not; set_solver).
  rewrite (replace_id "[")
    by (eapply forallb_str_impl; [|exact H]; intros c; apply plain_char_not; set_solver).
  rewrite (replace_id "]")
    by (eapply forallb_str_impl; [|exact H]; intros c; apply plain_char_not; set_solver).
  done.
Qed.

Lemma unquote_word w : word w = true -> unquote w = w.
Proof. intros [_ H]%andb_true_iff. by apply unquote_plain. Qed.

Lemma split_go_run w : forall tok s,
  no_space w = true -> Py.split_go tok (w +:+ s) = Py.split_go (tok +:+ w) s.
Proof.
  induction w as [|c w IH]; intros tok s H.
  - by rewrite str_app_nil_r.
  - simpl in H. apply andb_true_iff in H as [Hc Hw]. apply negb_true_iff in Hc.
    rewrite str_app_cons. simpl. rewrite Hc.
    rewrite IH by done. by rewrite str_app_assoc.
Qed.

Lemma split_word w c s :
  w <> "" -> no_space w = true -> Py.is_space c = true ->
  Py.split (w +:+ String c s) = w :: Py.split s.
Proof.
  intros Hne Hw Hc. unfold Py.split. rewrite split_go_run by done.
  simpl. rewrite Hc. by destruct w.
Qed.

(** ** The lines that [write] builds *)

Lemma replace_cons_ne c new d s :
  Ascii.eqb c d = false ->
  Py.replace c new (String d s) = String d (Py.replace c new s).
Proof. intros H. simpl. by rewrite H. Qed.

Lemma space_unquote c s :
  Py.is_space c = true -> unquote (String c s) = String c (unquote s).
Proof.
  intros H.
  assert (E : forall d, d ∈ ["'"; dquote; ","; "["; "]"]%char -> Ascii.eqb d c = false).
  { intros d Hd. destruct (Ascii.eqb_spec d c) as [<-|]; [|done].
    repeat (apply elem_of_cons in Hd as [->|Hd]; [by vm_compute in H|]).
    by apply elem_of_nil in Hd. }
  unfold unquote.
  rewrite !replace_cons_ne by (apply E; set_solver). done.
Qed.

Lemma sep_unquote c s :
  is_sep c = true ->
  exists c', Py.is_space c' = true /\ unquote (String c s) = String c' (unquote s).
Proof.
  intros [H|H]%orb_true_iff.
  - exists c. split; [done|]. by apply space_unquote.
  - apply Ascii.eqb_eq in H as ->. by exists " "%char.
Qed.

Lemma line_args_word w c s :
  word w = true -> is_sep c = true ->
  line_args (w +:+ String c s) = w :: line_args s.
Proof.
  intros Hw Hc. destruct (sep_unquote c s Hc) as (c' & Hc' & E).
  change (Py.split (unquote (w +:+ String c s)) = w :: Py.split (unquote s)).
  rewrite unquote_app, E, unquote_word by done.
  apply split_word; [|by apply word_no_space|done].
  intros ->. done.
Qed.

Lemma line_args_packout o w c s :
  word w = true -> is_sep c = true ->
  line_args (packout o w +:+ String c s) = w :: line_args s.
Proof.
  intros Hw Hc. unfold packout. destruct (is_bundle o); [|by apply line_args_word].
  rewrite !str_app_assoc.
  change (line_args (w +:+ "'" +:+ String c s) = w :: line_args s).
  change (Py.split (unquote (w +:+ "'" +:+ String c s)) = w :: Py.split (unquote s)).
  rewrite unquote_app.
  change (unquote ("'" +:+ String c s)) with (unquote (String c s)).
  rewrite <- unquote_app. by apply line_args_word.
Qed.

Lemma line_args_nl : line_args Py.nl = [].
Proof. reflexivity. Qed.

Lemma opt_sep o opt :
  opt_ok opt = true ->
  exists c s, convert_option o opt +:+ Py.nl = String c s /\ is_sep c = true.
Proof.
  intros H. destruct opt as [|c r].
  - exists "010"%char, "". split; [|done]. unfold convert_option. by simpl.
  - simpl in H. apply andb_true_iff in H as [Hc _]. apply Ascii.eqb_eq in Hc as ->.
    unfold convert_option. destruct (is_bundle o).
    + eexists ","%char, _. split; [reflexivity|done].
    + eexists " "%char, _. split; [reflexivity|done].
Qed.

Lemma read_lines_step env line rest s :
  match_endignore line = false -> match_ignore line = false ->
  match_blank line || match_comment line = false ->
  read_lines env false (line :: rest) s
  = (parse_line env line ≫= fun _ => read_lines env false rest) s.
Proof. intros H1 H2 H3. simpl. by rewrite H1, H2, H3. Qed.

Lemma lists_append n x b m :
  lists (append n x b) m = lists b m ++ (if decide (m = n) then [x] else []).
Proof.
  unfold append. rewrite lists_set_list.
  destruct (decide (m = n)) as [->|]; [done|by rewrite app_nil_r].
Qed.

(** The tokens of a package line of any dialect. *)
Lemma brew_line_args o p opt :
  package_name p = true -> opt_ok opt = true ->
  exists rest,
    final_args (ln (render o (WBrew p opt))) = "brew" :: p :: rest
    /\ line_args (ln (render o (WBrew p opt))) <> [].
Proof.
  intros [Hw Hp]%andb_true_iff Ho.
  apply negb_true_iff, bool_decide_eq_false in Hp.
  destruct (opt_sep o opt Ho) as (c & s & E & Hc).
  unfold ln, render. rewrite !str_app_assoc, E.
  unfold final_args, cmds_of.
  destruct (is_bundle o) eqn:Hb; [|destruct (is_command o) eqn:Hcmd]; simpl cmd_install.
  - change ("brew " +:+ packout o p +:+ String c s)
      with ("brew" +:+ String " " (packout o p +:+ String c s)).
    rewrite line_args_word, line_args_packout by done.
    exists (line_args s). split; [|done].
    unfold drop_command. rewrite andb_false_intro2
      by (apply bool_decide_eq_false; simpl; set_solver).
    unfold drop_install. simpl fst.
    rewrite andb_false_intro2 by (apply bool_decide_eq_false; simpl; set_solver).
    done.
  - change ("brew install " +:+ packout o p +:+ String c s)
      with ("brew" +:+ String " " ("install" +:+ String " " (packout o p +:+ String c s))).
    rewrite !line_args_word, line_args_packout by done.
    exists (line_args s). split; [|done].
    unfold drop_command. rewrite andb_false_intro2 by done. simpl fst.
    unfold drop_install. simpl. done.
  - change ("brew " +:+ packout o p +:+ String c s)
      with ("brew" +:+ String " " (packout o p +:+ String c s)).
    rewrite line_args_word, line_args_packout by done.
    exists (line_args s). split; [|done].
    unfold drop_command. rewrite andb_false_intro2
      by (apply bool_decide_eq_false; simpl; set_solver).
    unfold drop_install. simpl fst.
    rewrite andb_false_intro2 by (apply bool_decide_eq_false; simpl; set_solver).
    done.
Qed.

Lemma tap_line_args o t :
  word t = true ->
  final_args (ln (render o (WTap t))) = ["tap"; t]
  /\ line_args (ln (render o (WTap t))) <> [].
Proof.
  intros Hw. unfold ln, render. rewrite !str_app_assoc.
  unfold final_args, cmds_of.
  destruct (is_bundle o) eqn:Hb; [|destruct (is_command o) eqn:Hcmd]; simpl cmd_tap.
  - change ("tap " +:+ packout o t +:+ Py.nl)
      with ("tap" +:+ String " " (packout o t +:+ String "010" "")).
    rewrite line_args_word, line_args_packout by done. done.
  - change ("brew tap " +:+ packout o t +:+ Py.nl)
      with ("brew" +:+ String " " ("tap" +:+ String " " (packout o t +:+ String "010" ""))).
    rewrite !line_args_word, line_args_packout by done. done.
  - change ("tap " +:+ packout o t +:+ Py.nl)
      with ("tap" +:+ String " " (packout o t +:+ String "010" "")).
    rewrite line_args_word, line_args_packout by done. done.
Qed.

Lemma cask_line_args o c :
  word c = true -> is_command o = false ->
  final_args (ln (render o (WCask c))) = ["cask"; c]
  /\ line_args (ln (render o (WCask c))) <> [].
Proof.
  intros Hw Hcmd. unfold ln, render. rewrite !str_app_assoc.
  unfold final_args, cmds_of. rewrite Hcmd.
  destruct (is_bundle o) eqn:Hb; simpl cmd_cask.
  - change ("cask " +:+ packout o c +:+ Py.nl)
      with ("cask" +:+ String " " (packout o c +:+ String "010" "")).
    rewrite line_args_word, line_args_packout by done. done.
  - change ("cask " +:+ packout o c +:+ Py.nl)
      with ("cask" +:+ String " " (packout o c +:+ String "010" "")).
    rewrite line_args_word, line_args_packout by done. done.
Qed.

(** A line that starts with a letter is parsed. *)
Lemma letter_line c s :
  c ∉ ["#"; " "; "010"]%char ->
  match_endignore (String c s) = false /\ match_ignore (String c s) = false
  /\ match_blank (String c s) || match_comment (String c s) = false.
Proof.
  intros H.
  assert (H1 : Ascii.eqb c "#" = false) by (apply Ascii.eqb_neq; set_solver).
  assert (H2 : Ascii.eqb c " " = false) by (apply Ascii.eqb_neq; set_solver).
  assert (H3 : c <> "010"%char) by set_solver.
  unfold match_endignore, match_ignore, match_blank, match_comment.
  simpl. rewrite H1, H2. simpl. rewrite H1.
  split; [done|]. split; [done|].
  rewrite bool_decide_eq_false_2; [done|]. intros E. injection E as E _. by apply H3.
Qed.

Lemma render_letter o w :
  match w with WBlank | WBanner _ => False | _ => True end ->
  exists c s, ln (render o w) = String c s /\ c ∉ ["#"; " "; "010"]%char.
Proof.
  intros Hw. unfold ln, render, cmds_of.
  destruct w; try done;
    (destruct (is_bundle o); [|destruct (is_command o)]); simpl;
    rewrite !str_app_cons; eexists _, _; (split; [reflexivity|set_solver]).
Qed.

(** What [read] makes of one written line. *)
Lemma read_rendered env o w rest o' b :
  wline_ok o w ->
  exists o'' b'',
    read_lines env false (ln (render o w) :: rest) (o', b)
    = read_lines env false rest (o'', b'')
    /\ forall n, lists b'' n = lists b n ++ contrib w n.
Proof.
  intros Hok. destruct w as [|s|t|p opt|c].
  - exists o', b. split; [reflexivity|]. intros n. by rewrite app_nil_r.
  - exists o', b. split; [|intros n; by rewrite app_nil_r].
    simpl in Hok. unfold banners in Hok.
    repeat (apply elem_of_cons in Hok as [->|Hok]; [reflexivity|]).
    by apply elem_of_nil in Hok.
  - destruct (render_letter o (WTap t) I) as (c & s & E & Hc).
    destruct (letter_line c s Hc) as (H1 & H2 & H3). rewrite <- E in H1, H2, H3.
    destruct (tap_line_args o t Hok) as [Ha Hne].
    rewrite read_lines_step by done.
    destruct (parse_line_dispatch env _ o' b Hne) as (o'' & Ep & _).
    rewrite Ha in Ep. simpl in Ep.
    exists o'', (append tap_input t b). split.
    + by rewrite (bind_done _ _ _ _ _ Ep).
    + intros n. by rewrite lists_append.
  - destruct Hok as [Hp Ho].
    destruct (render_letter o (WBrew p opt) I) as (c & s & E & Hc).
    destruct (letter_line c s Hc) as (H1 & H2 & H3). rewrite <- E in H1, H2, H3.
    destruct (brew_line_args o p opt Hp Ho) as (r & Ha & Hne).
    rewrite read_lines_step by done.
    destruct (parse_line_dispatch env _ o' b Hne) as (o'' & Ep & _).
    rewrite Ha in Ep. simpl in Ep.
    eexists o'', _. split.
    + rewrite (bind_done _ _ _ _ _ Ep). reflexivity.
    + intros n. unfold dict_set. rewrite lists_set_dict. by rewrite lists_append.
  - destruct Hok as [Hw Hcmd].
    destruct (render_letter o (WCask c) I) as (c0 & s & E & Hc).
    destruct (letter_line c0 s Hc) as (H1 & H2 & H3). rewrite <- E in H1, H2, H3.
    destruct (cask_line_args o c Hw Hcmd) as [Ha Hne].
    rewrite read_lines_step by done.
    destruct (parse_line_dispatch env _ o' b Hne) as (o'' & Ep & _).
    rewrite Ha in Ep. simpl in Ep.
    exists o'', (append cask_input c b). split.
    + by rewrite (bind_done _ _ _ _ _ Ep).
    + intros n. by rewrite lists_append.
Qed.

(** ** The text that [write] builds *)

Lemma text_app o l1 l2 : text_of o (l1 ++ l2) = text_of o l1 +:+ text_of o l2.
Proof. unfold text_of. by rewrite map_app, unlines_app. Qed.

Lemma text_single o w : text_of o [w] = ln (render o w).
Proof. unfold text_of. simpl. by rewrite str_app_nil_r. Qed.

Lemma written_app l1 l2 n : written (l1 ++ l2) n = written l1 n ++ written l2 n.
Proof. unfold written. by rewrite bind_app. Qed.

Lemma written_other wls n :
  n ∉ [brew_input; tap_input; cask_input] -> written wls n = [].
Proof.
  intros Hn. induction wls as [|w wls IH]; [done|].
  change (written (w :: wls) n) with (contrib w n ++ written wls n). rewrite IH.
  destruct w; simpl; try done; case_decide; try done; subst; set_solver.
Qed.

Lemma Writes_ret {A} o (a : A) b : Writes o (mret a) b a [] b.
Proof. intros out. unfold text_of. simpl. by rewrite str_app_nil_r. Qed.

Lemma Writes_bind {A B} o (m : M WS A) (k : A -> M WS B) b a w1 b1 c w2 b2 :
  Writes o m b a w1 b1 -> Writes o (k a) b1 c w2 b2 ->
  Writes o (m ≫= k) b c (w1 ++ w2) b2.
Proof.
  intros H1 H2 out. rewrite (bind_done _ _ _ _ _ (H1 out)), H2.
  by rewrite text_app, str_app_assoc.
Qed.

Lemma Writes_emit o t wls b : t = text_of o wls -> Writes o (emit t) b tt wls b.
Proof. intros -> out. reflexivity. Qed.

Lemma Writes_get {A} o (k : WS -> M WS A) b a wls b' :
  (forall out, Writes o (k (out, b)) b a wls b') ->
  Writes o (get_state ≫= k) b a wls b'.
Proof. intros H out. apply (H out out). Qed.

Lemma Writes_list_opt_of o p b v :
  dicts b brew_list_opt !! p = Some v -> Writes o (list_opt_of p) b v [] b.
Proof.
  intros H out. unfold list_opt_of. simpl. rewrite H.
  unfold text_of. simpl. by rewrite str_app_nil_r.
Qed.

Lemma Writes_remove o n p b l' :
  Py.list_remove p (lists b n) = Some l' ->
  Writes o (lift_info (remove n p)) b tt [] (set_list n l' b).
Proof.
  intros H out. unfold lift_info, remove. simpl. rewrite H.
  unfold text_of. simpl. by rewrite str_app_nil_r.
Qed.

Lemma Writes_upd_info o f b : Writes o (upd_info f) b tt [] (f b).
Proof. intros out. unfold text_of. simpl. unfold upd_info, modify. simpl. by rewrite str_app_nil_r. Qed.

Lemma Writes_eq {A} o (m : M WS A) b a wls wls' b' :
  Writes o m b a wls b' -> wls = wls' -> Writes o m b a wls' b'.
Proof. by intros H <-. Qed.

Lemma list_remove_perm p l :
  p ∈ l -> exists l', Py.list_remove p l = Some l' /\ l ≡ₚ p :: l'.
Proof.
  induction l as [|y l IH]; intros H; [by apply elem_of_nil in H|].
  simpl. destruct (decide (p = y)) as [->|Hne]; [by exists l|].
  apply elem_of_cons in H as [H|H]; [done|].
  destruct (IH H) as (l' & -> & Hp). exists (y :: l'). split; [done|].
  rewrite Hp. apply Permutation_swap.
Qed.

(** The packages of one tap. *)
Lemma write_tap_brews_spec env o tp : forall snapshot df b,
  Doc env o b -> NoDup snapshot -> snapshot ⊆ lists b brew_list ->
  exists df' wls b',
    Writes o (write_tap_brews o tp snapshot df) b df' wls b'
    /\ Doc env o b' /\ Forall (wline_ok o) wls
    /\ written wls tap_input = [] /\ written wls cask_input = []
    /\ (forall x, x ∈ written wls brew_input \/ x ∈ lists b' brew_list
                  <-> x ∈ lists b brew_list)
    /\ (forall n, n <> brew_list -> lists b' n = lists b n).
Proof.
  induction snapshot as [|p rest IH]; intros df b HD Hnd Hsub.
  - exists df, [], b. split; [apply Writes_ret|]. split; [done|].
    split; [constructor|]. split; [done|]. split; [done|]. split; [|done].
    intros x. unfold written. simpl. set_solver.
  - simpl. apply NoDup_cons in Hnd as [Hp Hnd].
    assert (Hin : p ∈ lists b brew_list) by set_solver.
    case_bool_decide as Htp.
    + destruct HD as (Hnd0 & Hopt & Hcask).
      destruct (Hopt p Hin) as (Hname & opt & Hl & Hok).
      destruct (list_remove_perm p _ Hin) as (l' & Hrm & Hperm).
      set (b1 := set_list brew_list l' b).
      set (b2 := set_dict brew_list_opt (delete p (dicts b1 brew_list_opt)) b1).
      assert (Hnd1 : NoDup (p :: l')) by (by rewrite <- Hperm).
      apply NoDup_cons in Hnd1 as [Hpl' Hnd1].
      assert (HD2 : Doc env o b2).
      { split; [exact Hnd1|]. split; [|exact Hcask].
        intros q Hq. simpl in Hq.
        assert (q ∈ lists b brew_list) by (rewrite Hperm; set_solver).
        destruct (Hopt q) as (Hn & opt' & Hl' & Hok'); [done|].
        split; [done|]. exists opt'. split; [|done].
        simpl. rewrite lookup_delete_ne; [done|]. intros ->. done. }
      destruct (IH false b2 HD2 Hnd) as (df' & wls & b' & HW & HD' & Hall & Ht & Hc & Hx & Hn).
      { intros q Hq. simpl. assert (q ∈ lists b brew_list) by set_solver.
        rewrite Hperm in H. apply elem_of_cons in H as [->|H]; [done|done]. }
      exists df', ((if df then [WBlank; WBanner "## Direct install"] else [])
                   ++ [WBrew p opt] ++ wls), b'.
      split; [|split; [done|split; [|split; [|split; [|split]]]]].
      * eapply Writes_bind.
        { destruct df; [apply Writes_emit; reflexivity|apply Writes_ret]. }
        eapply (Writes_bind _ _ _ _ _ [] b); [by apply Writes_list_opt_of|].
        eapply (Writes_bind _ _ _ _ _ [WBrew p opt] b).
        { apply Writes_emit. by rewrite text_single. }
        eapply (Writes_bind _ _ _ _ _ [] b1); [by apply Writes_remove|].
        eapply (Writes_bind _ _ _ _ _ [] b2); [apply Writes_upd_info|].
        exact HW.
      * apply Forall_app. split.
        { destruct df; repeat constructor. }
        constructor; [done|done].
      * rewrite !written_app, Ht. by destruct df.
      * rewrite !written_app, Hc. by destruct df.
      * intros x. rewrite !written_app.
        assert (E : written (if df then [WBlank; WBanner "## Direct install"] else [])
                      brew_input = []) by (by destruct df).
        rewrite E. change (written [WBrew p opt] brew_input) with [p].
        rewrite Hperm. specialize (Hx x). simpl in Hx. set_solver.
      * intros n Hn'. rewrite Hn by done. simpl.
        by destruct (decide (n = brew_list)).
    + apply IH; [done|done|set_solver].
Qed.

(** The casks of one tap, once the tap itself is written. *)
Lemma write_tap_casks_spec env o t tc : forall snapshot b,
  Doc env o b -> is_mac env = true -> snapshot ⊆+ lists b cask_list ->
  exists wls b',
    Writes o (write_tap_casks o t tc snapshot false false) b (false, false) wls b'
    /\ Doc env o b' /\ Forall (wline_ok o) wls
    /\ written wls tap_input = [] /\ written wls brew_input = []
    /\ (forall x, x ∈ written wls cask_input \/ x ∈ lists b' cask_list
                  <-> x ∈ lists b cask_list)
    /\ (forall n, n <> cask_list -> lists b' n = lists b n).
Proof.
  intros snapshot b HD Hmac. revert b HD.
  induction snapshot as [|p rest IH]; intros b HD Hsub.
  - exists [], b. split; [apply Writes_ret|]. split; [done|].
    split; [constructor|]. split; [done|]. split; [done|]. split; [|done].
    intros x. unfold written. simpl. set_solver.
  - simpl.
    assert (Hin : p ∈ lists b cask_list).
    { eapply elem_of_submseteq; [|exact Hsub]. set_solver. }
    case_bool_decide as Htp.
    + destruct HD as (Hnd0 & Hopt & Hcask).
      destruct (Hcask Hmac p Hin) as [Hw Hcmd].
      destruct (list_remove_perm p _ Hin) as (l' & Hrm & Hperm).
      set (b1 := set_list cask_list l' b).
      assert (HD1 : Doc env o b1).
      { split; [exact Hnd0|]. split; [exact Hopt|].
        intros _ c Hc. simpl in Hc. apply (Hcask Hmac). rewrite Hperm. set_solver. }
      destruct (IH b1 HD1) as (wls & b' & HW & HD' & Hall & Ht & Hb & Hx & Hn).
      { simpl. rewrite Hperm in Hsub. by apply (submseteq_app_inv_l _ _ [p]). }
      exists ([WCask p] ++ wls), b'.
      split; [|split; [done|split; [|split; [|split; [|split]]]]].
      * eapply (Writes_bind _ _ _ _ _ [] b); [by apply Writes_emit|].
        eapply (Writes_bind _ _ _ _ _ [WCask p] b).
        { apply Writes_emit. by rewrite text_single. }
        eapply (Writes_bind _ _ _ _ _ [] b1); [by apply Writes_remove|].
        exact HW.
      * constructor; [done|done].
      * by rewrite !written_app, Ht.
      * by rewrite !written_app, Hb.
      * intros x. rewrite !written_app.
        change (written [WCask p] cask_input) with [p].
        rewrite Hperm. specialize (Hx x). simpl in Hx. set_solver.
      * intros n Hn'. rewrite Hn by done. simpl.
        by destruct (decide (n = cask_list)).
    + apply IH; [done|]. etrans; [|exact Hsub]. by apply submseteq_cons.
Qed.

(** The section of the taps. *)
Lemma write_taps_spec env o : caskonly o = false -> forall taps isfirst b,
  Doc env o b -> Forall (fun t => word t = true) taps ->
  exists wls b',
    Writes o (write_taps env o taps isfirst) b tt wls b'
    /\ Doc env o b' /\ Forall (wline_ok o) wls
    /\ written wls tap_input = List.filter (fun t => negb (bool_decide (t = "direct"))) taps
    /\ (forall x, x ∈ written wls brew_input \/ x ∈ lists b' brew_list
                  <-> x ∈ lists b brew_list)
    /\ (forall x, x ∈ written wls cask_input \/ x ∈ lists b' cask_list
                  <-> x ∈ lists b cask_list)
    /\ (is_mac env = false -> written wls cask_input = [])
    /\ (forall n, n <> brew_list -> n <> cask_list -> lists b' n = lists b n).
Proof.
  intros Hco. induction taps as [|t rest IH]; intros isfirst b HD Hw.
  - exists [], b. split; [apply Writes_ret|]. split; [done|].
    split; [constructor|]. split; [done|].
    split; [intros x; unfold written; simpl; set_solver|].
    split; [intros x; unfold written; simpl; set_solver|]. done.
  - apply Forall_cons in Hw as [Hwt Hw]. simpl.
    destruct (bool_decide (t = "direct") && bool_decide (get_tap_packs env t = [])) eqn:Hskip.
    { apply andb_true_iff in Hskip as [Hd _].
      destruct (IH isfirst b HD Hw) as (wls & b' & HW & HD' & Hall & Ht & Hb & Hc & Hm & Hn).
      exists wls, b'. simpl. rewrite Hd. simpl. done. }
    rewrite Hco. simpl negb. cbv iota.
    set (head := (if isfirst then [WBlank; WBanner "# tap repositories and their packages"] else [])
                 ++ (if bool_decide (t = "direct") then [] else [WBlank; WTap t])).
    assert (Hhead : first_tap_pack_write o isfirst (bool_decide (t = "direct")) true t
                    = text_of o head).
    { unfold first_tap_pack_write, head. rewrite text_app.
      f_equal; [by destruct isfirst|].
      destruct (bool_decide (t = "direct")); [done|]. simpl.
      unfold text_of. simpl. unfold ln at 2. by rewrite str_app_nil_r. }
    destruct (write_tap_brews_spec env o (get_tap_packs env t) (lists b brew_list)
                (bool_decide (t = "direct")) b HD) as
      (df' & w1 & b1 & HW1 & HD1 & Hall1 & Ht1 & Hc1 & Hx1 & Hn1);
      [by destruct HD|done|].
    assert (Hheadok : Forall (wline_ok o) head).
    { unfold head. apply Forall_app. split; [destruct isfirst; repeat constructor|].
      destruct (bool_decide (t = "direct")); repeat constructor. done. }
    assert (Hheadt : written head tap_input
                     = if bool_decide (t = "direct") then [] else [t]).
    { unfold head. rewrite written_app.
      destruct isfirst, (bool_decide (t = "direct")); done. }
    assert (Hheadb : forall n, n <> tap_input -> written head n = []).
    { intros n Hn. unfold head. rewrite written_app.
      destruct isfirst, (bool_decide (t = "direct")); try done;
        unfold written; simpl; by destruct (decide (n = tap_input)). }
    destruct (is_mac env) eqn:Hmac; simpl negb; cbv iota.
    + destruct (write_tap_casks_spec env o t (get_tap_casks env t)
                  (lists b1 cask_list) b1 HD1 Hmac) as
        (w2 & b2 & HW2 & HD2 & Hall2 & Ht2 & Hb2 & Hx2 & Hn2); [done|].
      destruct (IH false b2 HD2 Hw) as (w3 & b3 & HW3 & HD3 & Hall3 & Ht3 & Hb3 & Hc3 & Hm3 & Hn3).
      exists (head ++ w1 ++ w2 ++ w3), b3.
      split; [|split; [done|split; [|split; [|split; [|split; [|split]]]]]].
      * rewrite app_assoc. eapply Writes_bind.
        { eapply Writes_bind; [apply Writes_emit; exact Hhead|].
          apply Writes_get. intros out.
          rewrite <- (app_nil_r w1).
          eapply Writes_bind; [exact HW1|]. apply Writes_ret. }
        cbv beta. simpl fst. simpl snd.
        apply Writes_get. intros out. simpl.
        eapply Writes_bind; [exact HW2|]. exact HW3.
      * apply Forall_app; split; [done|]. apply Forall_app; split; [done|].
        apply Forall_app; split; done.
      * rewrite !written_app, Hheadt, Ht1, Ht2, Ht3. simpl.
        by destruct (bool_decide (t = "direct")).
      * intros x. rewrite !written_app, Hheadb, Hb2 by done.
        specialize (Hx1 x). specialize (Hb3 x).
        rewrite (Hn2 brew_list) in Hb3 by done. set_solver.
      * intros x. rewrite !written_app, Hheadb, Hc1 by done.
        specialize (Hx2 x). specialize (Hc3 x).
        rewrite (Hn1 cask_list) in Hx2 by done. set_solver.
      * done.
      * intros n Hn Hn'. by rewrite Hn3, Hn2, Hn1.
    + destruct (IH false b1 HD1 Hw) as (w3 & b3 & HW3 & HD3 & Hall3 & Ht3 & Hb3 & Hc3 & Hm3 & Hn3).
      exists (head ++ w1 ++ w3), b3.
      split; [|split; [done|split; [|split; [|split; [|split; [|split]]]]]].
      * rewrite app_assoc. eapply Writes_bind.
        { eapply Writes_bind; [apply Writes_emit; exact Hhead|].
          apply Writes_get. intros out.
          rewrite <- (app_nil_r w1).
          eapply Writes_bind; [exact HW1|]. apply Writes_ret. }
        exact HW3.
      * apply Forall_app; split; [done|]. apply Forall_app; split; done.
      * rewrite !written_app, Hheadt, Ht1, Ht3. simpl.
        by destruct (bool_decide (t = "direct")).
      * intros x. rewrite !written_app, Hheadb by done.
        specialize (Hx1 x). specialize (Hb3 x). set_solver.
      * intros x. rewrite !written_app, Hheadb, Hc1 by done.
        specialize (Hc3 x). rewrite (Hn1 cask_list) in Hc3 by done. set_solver.
      * intros _. rewrite !written_app, Hheadb, Hc1, Hm3 by done. done.
      * intros n Hn Hn'. by rewrite Hn3, Hn1.
Qed.

(** The packages of no tap. *)
Lemma write_brews_spec o b : forall l,
  (forall p, p ∈ l ->
     package_name p = true
     /\ exists opt, dicts b brew_list_opt !! p = Some opt /\ opt_ok opt = true) ->
  exists wls,
    Writes o (write_brews o l) b tt wls b
    /\ Forall (wline_ok o) wls
    /\ written wls brew_input = l
    /\ written wls tap_input = [] /\ written wls cask_input = [].
Proof.
  induction l as [|p l IH]; intros H.
  - exists []. split; [apply Writes_ret|]. by repeat split.
  - destruct (H p) as (Hn & opt & Hl & Hok); [set_solver|].
    destruct IH as (wls & HW & Hall & Hb & Ht & Hc); [intros q Hq; apply H; set_solver|].
    exists ([WBrew p opt] ++ wls). split; [|split; [|split; [|split]]].
    + simpl write_brews.
      eapply (Writes_bind _ _ _ _ _ [] b); [by apply Writes_list_opt_of|].
      eapply (Writes_bind _ _ _ _ _ [WBrew p opt] b); [|exact HW].
      apply Writes_emit. by rewrite text_single.
    + by constructor.
    + by rewrite written_app, Hb.
    + by rewrite written_app, Ht.
    + by rewrite written_app, Hc.
Qed.

Lemma concat_lines (f : string -> string) l :
  String.concat "" (map (fun c => ln (f c)) l) = unlines (map f l).
Proof.
  induction l as [|x l IH]; [done|]. destruct l as [|y l].
  - simpl. by rewrite str_app_nil_r.
  - change (ln (f x) +:+ "" +:+ String.concat "" (map (fun c => ln (f c)) (y :: l))
            = ln (f x) +:+ unlines (map f (y :: l))).
    by rewrite IH.
Qed.

Lemma written_casks l n :
  written (map WCask l) n = if decide (n = cask_input) then l else [].
Proof.
  induction l as [|c l IH]; [by destruct (decide _)|].
  change (written (map WCask (c :: l)) n) with (contrib (WCask c) n ++ written (map WCask l) n).
  rewrite IH. simpl. by destruct (decide (n = cask_input)).
Qed.

(** *** Sorting *)

Lemma insert_by_perm {K} (le : K -> K -> bool) key x l :
  Py.insert_by le key x l ≡ₚ x :: l.
Proof.
  induction l as [|y l IH]; [done|]. simpl.
  destruct (le (key x) (key y)); [done|]. rewrite IH. apply Permutation_swap.
Qed.

Lemma sort_by_perm {K} (le : K -> K -> bool) key l : Py.sort_by le key l ≡ₚ l.
Proof.
  induction l as [|x l IH]; [done|]. simpl. by rewrite insert_by_perm, IH.
Qed.

Lemma sort_perm l : Py.sort l ≡ₚ l.
Proof. apply sort_by_perm. Qed.

Lemma elem_of_taps_of o c l x :
  x ∈ taps_of o c l <-> x ∈ l /\ classify_tap o x = c.
Proof.
  unfold taps_of. rewrite !list_elem_of_In, filter_In.
  by rewrite bool_decide_eq_true.
Qed.

Lemma elem_of_sort_taps o l x : x ∈ sort_taps o l <-> x ∈ l.
Proof.
  unfold sort_taps. rewrite !elem_of_app, !sort_perm, !elem_of_taps_of.
  destruct (classify_tap o x); naive_solver.
Qed.

Lemma sort_done o b :
  lists b appstore_list = [] ->
  exists bs,
    sort o b = (Done tt, bs)
    /\ lists bs tap_list = sort_taps o (lists b tap_list)
    /\ lists bs brew_list = Py.sort (lists b brew_list)
    /\ lists bs cask_list = Py.sort (lists b cask_list)
    /\ dicts bs = dicts b
    /\ (forall n, lists b n = [] -> lists bs n = []).
Proof.
  intros H. unfold sort. simpl. rewrite H. simpl.
  eexists. split; [reflexivity|]. repeat split.
  intros n Hn. destruct n; simpl; try done; by rewrite Hn.
Qed.

Lemma Writes_sort o b bs :
  sort o b = (Done tt, bs) -> Writes o (lift_info (sort o)) b tt [] bs.
Proof.
  intros H out. unfold lift_info. simpl. rewrite H. simpl.
  unfold text_of. simpl. by rewrite str_app_nil_r.
Qed.

Lemma Writes_skip o c (m : M WS unit) b :
  c = false -> Writes o (when c m) b tt [] b.
Proof. intros ->. apply Writes_ret. Qed.

(** The text of a document that declares packages, taps and casks. *)
Lemma write_output_spec env o b :
  caskonly o = false -> Doc env o b ->
  Forall (fun t => word t = true) (lists b tap_list) ->
  (forall n, n ∈ [appstore_list; main_list; file_list; cask_nocask_list;
                  before_input; after_input; cmd_input] -> lists b n = []) ->
  exists wls b',
    write_output env o ("", b) = (Done tt, (text_of o wls, b'))
    /\ Forall (wline_ok o) wls
    /\ (forall x, x ∈ written wls brew_input <-> x ∈ lists b brew_list)
    /\ (forall x, x ∈ written wls tap_input <-> x ∈ lists b tap_list /\ x <> "direct")
    /\ (is_mac env = true ->
        forall x, x ∈ written wls cask_input <-> x ∈ lists b cask_list)
    /\ (is_mac env = false -> written wls cask_input = []).
Proof.
  intros Hco HD Htap Hempty.
  destruct (sort_done o b) as (bs & Hsort & Hst & Hsb & Hsc & Hsd & Hse);
    [apply Hempty; set_solver|].
  assert (HDs : Doc env o bs).
  { destruct HD as (Hnd & Hopt & Hcask). split; [|split].
    - by rewrite Hsb, sort_perm.
    - intros p. rewrite Hsb, sort_perm, Hsd. apply Hopt.
    - intros Hmac c. rewrite Hsc, sort_perm. by apply Hcask. }
  assert (Htaps : Forall (fun t => word t = true) (lists bs tap_list)).
  { rewrite Hst. apply Forall_forall. intros t Ht%elem_of_sort_taps.
    by eapply Forall_forall in Htap. }
  assert (Hes : forall n, n ∈ [appstore_list; main_list; file_list; cask_nocask_list;
                              before_input; after_input; cmd_input] -> lists bs n = [])
    by (intros n Hn; by apply Hse, Hempty).
  destruct (write_taps_spec env o Hco (lists bs tap_list) true bs HDs Htaps)
    as (w1 & b1 & HW1 & HD1 & Hall1 & Ht1 & Hb1 & Hc1 & Hm1 & Hn1).
  assert (He1 : forall n, n ∈ [appstore_list; main_list; file_list; cask_nocask_list;
                              before_input; after_input; cmd_input] -> lists b1 n = []).
  { intros n Hn. rewrite Hn1; [by apply Hes| |]; intros ->; set_solver. }
  destruct HD1 as (Hnd1 & Hopt1 & Hcask1).
  destruct (write_brews_spec o b1 (lists b1 brew_list) Hopt1)
    as (w2 & HW2 & Hall2 & Hb2 & Ht2 & Hc2).
  set (wb := if nonempty (lists b1 brew_list)
             then [WBlank; WBanner "# Other Homebrew packages"] ++ w2 else []).
  set (wc := if is_mac env && nonempty (lists b1 cask_list)
             then [WBlank; WBanner "# Other Cask applications"]
                  ++ map WCask (lists b1 cask_list) else []).
  assert (HW : Writes o (write_output env o) b tt (w1 ++ wb ++ wc) b1).
  { unfold write_output.
    eapply (Writes_bind _ _ _ _ _ [] bs); [by apply Writes_sort|].
    apply Writes_get. intros out0. simpl snd.
    eapply (Writes_bind _ _ _ _ _ [] bs).
    { apply Writes_skip. rewrite Hes; [done|set_solver]. }
    apply Writes_get. intros out1. simpl snd.
    eapply Writes_bind; [exact HW1|].
    apply Writes_get. intros out2. simpl snd.
    eapply (Writes_bind _ _ _ _ _ wb b1).
    { rewrite Hco. simpl negb. simpl andb. unfold wb.
      destruct (lists b1 brew_list) as [|p l] eqn:El; [apply Writes_ret|].
      simpl nonempty. cbv iota.
      eapply Writes_bind; [|exact HW2]. apply Writes_emit. reflexivity. }
    rewrite <- (app_nil_r wc).
    eapply (Writes_bind _ _ _ _ _ wc b1).
    { unfold wc. destruct (is_mac env && nonempty (lists b1 cask_list)); [|apply Writes_ret].
      apply Writes_emit. unfold section. rewrite concat_lines.
      rewrite text_app. f_equal. unfold text_of. by rewrite map_map. }
    eapply (Writes_bind _ _ _ _ _ [] b1).
    { apply Writes_skip. rewrite (He1 cask_nocask_list) by set_solver. by rewrite andb_false_r. }
    eapply (Writes_bind _ _ _ _ _ [] b1).
    { apply Writes_skip. rewrite (He1 appstore_list) by set_solver. by rewrite andb_false_r. }
    eapply (Writes_bind _ _ _ _ _ [] b1).
    { apply Writes_skip. by rewrite (He1 main_list) by set_solver. }
    eapply (Writes_bind _ _ _ _ _ [] b1).
    { apply Writes_skip. by rewrite (He1 main_list), (He1 file_list) by set_solver. }
    eapply (Writes_bind _ _ _ _ _ [] b1).
    { apply Writes_skip. by rewrite (He1 cmd_input) by set_solver. }
    apply Writes_skip. by rewrite (He1 after_input) by set_solver. }
  assert (Hwb : written wb brew_input = lists b1 brew_list
                /\ written wb tap_input = [] /\ written wb cask_input = []
                /\ Forall (wline_ok o) wb).
  { unfold wb. destruct (lists b1 brew_list) as [|p l] eqn:El; [by repeat split|].
    simpl nonempty. cbv iota. rewrite !written_app, Hb2, Ht2, Hc2.
    repeat split. by repeat constructor. }
  destruct Hwb as (Hwb1 & Hwb2 & Hwb3 & Hwb4).
  assert (Hwc : written wc brew_input = [] /\ written wc tap_input = []
                /\ (is_mac env = true -> written wc cask_input = lists b1 cask_list)
                /\ (is_mac env = false -> written wc cask_input = [])
                /\ Forall (wline_ok o) wc).
  { unfold wc. destruct (is_mac env) eqn:Hmac; simpl andb; [|by repeat split].
    destruct (lists b1 cask_list) as [|c l] eqn:El; [by repeat split|].
    simpl nonempty. cbv iota. rewrite !written_app, !written_casks.
    repeat split; try done.
    apply Forall_app. split; [by repeat constructor|].
    apply Forall_forall. intros w Hw. apply list_elem_of_In, in_map_iff in Hw.
    destruct Hw as (c' & <- & Hc'%list_elem_of_In).
    by apply Hcask1. }
  destruct Hwc as (Hwc1 & Hwc2 & Hwc3 & Hwc4 & Hwc5).
  exists (w1 ++ wb ++ wc), b1. split; [exact (HW "")|].
  split; [|split; [|split; [|split]]].
  - apply Forall_app; split; [done|]. apply Forall_app; split; done.
  - intros x. rewrite !written_app, Hwb1, Hwc1, app_nil_r.
    rewrite elem_of_app, Hb1, Hsb, sort_perm. done.
  - intros x. rewrite !written_app, Hwb2, Hwc2, !app_nil_r, Ht1.
    rewrite list_elem_of_In, filter_In, <- list_elem_of_In, Hst, elem_of_sort_taps.
    rewrite negb_true_iff, bool_decide_eq_false. done.
  - intros Hmac x. rewrite !written_app, Hwb3, Hwc3 by done. simpl.
    rewrite elem_of_app, Hc1, Hsc, sort_perm. done.
  - intros Hmac. by rewrite !written_app, Hwb3, Hwc4, Hm1.
Qed.

(** ** Reading what [write] has written *)

Lemma one_line_app a b : one_line (a +:+ b) = one_line a && one_line b.
Proof. apply forallb_str_app. Qed.

Lemma split_go_no_space s : forall tok,
  no_space tok = true ->
  Forall (fun t => no_space t = true) (Py.split_go tok s).
Proof.
  induction s as [|c s IH]; intros tok H; simpl.
  - destruct (Py.is_empty tok); by repeat constructor.
  - destruct (Py.is_space c) eqn:Hc.
    + destruct (Py.is_empty tok); [by apply IH|]. constructor; [done|by apply IH].
    + apply IH. unfold no_space. rewrite forallb_str_app. fold (no_space tok).
      rewrite H. simpl. by rewrite Hc.
Qed.

Lemma split_no_space s : Forall (fun t => no_space t = true) (Py.split s).
Proof. by apply split_go_no_space. Qed.

Lemma one_line_join sep l :
  one_line sep = true -> Forall (fun t => one_line t = true) l ->
  one_line (Py.join sep l) = true.
Proof.
  intros Hsep. induction 1 as [|x l Hx Hl IH]; [done|]. destruct l as [|y l]; [done|].
  change (one_line (x +:+ sep +:+ Py.join sep (y :: l)) = true).
  by rewrite !one_line_app, Hx, Hsep, IH.
Qed.

Lemma forallb_str_drop P n : forall s,
  Py.forallb_str P s = true -> Py.forallb_str P (Py.drop n s) = true.
Proof.
  induction n as [|n IH]; intros s H; [done|]. destruct s as [|c s]; [done|].
  simpl in *. apply andb_true_iff in H as [_ H]. by apply IH.
Qed.

Lemma opt_ok_one_line opt : opt_ok opt = true -> one_line opt = true.
Proof.
  destruct opt as [|c r]; [done|]. simpl.
  intros [->%Ascii.eqb_eq H]%andb_true_iff. done.
Qed.

Lemma convert_option_one_line o opt :
  opt_ok opt = true -> one_line (convert_option o opt) = true.
Proof.
  intros H. unfold convert_option.
  destruct (negb (Py.is_empty opt) && is_bundle o); [|by apply opt_ok_one_line].
  rewrite !one_line_app. rewrite one_line_join; [done|done|].
  apply Forall_forall. intros x Hx. apply list_elem_of_In, in_map_iff in Hx.
  destruct Hx as (t & <- & Ht%list_elem_of_In).
  rewrite !one_line_app. simpl. rewrite andb_true_r.
  apply no_space_one_line. unfold PyMore.sub_dashes.
  pose proof (split_no_space opt) as Hs. rewrite Forall_forall in Hs.
  specialize (Hs _ Ht). destruct (String.prefix "--" t); [|done].
  by apply forallb_str_drop.
Qed.

Lemma packout_one_line o w : word w = true -> one_line (packout o w) = true.
Proof.
  intros H%word_no_space%no_space_one_line. unfold packout.
  destruct (is_bundle o); [|done]. by rewrite !one_line_app, H.
Qed.

Lemma render_one_line o w : wline_ok o w -> one_line (render o w) = true.
Proof.
  intros H. destruct w as [|s|t|p opt|c]; simpl in *.
  - done.
  - unfold banners in H.
    repeat (apply elem_of_cons in H as [->|H]; [reflexivity|]).
    by apply elem_of_nil in H.
  - rewrite one_line_app, packout_one_line by done.
    unfold cmds_of. by destruct (is_bundle o), (is_command o).
  - destruct H as [[Hw _]%andb_true_iff Ho].
    rewrite !one_line_app, packout_one_line, convert_option_one_line by done.
    unfold cmds_of. by destruct (is_bundle o), (is_command o).
  - destruct H as [Hw _]. rewrite one_line_app, packout_one_line by done.
    unfold cmds_of. by destruct (is_bundle o), (is_command o).
Qed.

(** [read] of the lines that [write] builds. *)
Lemma read_rendered_all env o wls :
  Forall (wline_ok o) wls -> forall o' b,
  exists o'' b'',
    read_lines env false (map ln (map (render o) wls)) (o', b) = (Done tt, (o'', b''))
    /\ forall n, lists b'' n = lists b n ++ written wls n.
Proof.
  induction 1 as [|w wls Hw _ IH]; intros o' b.
  - exists o', b. split; [done|]. intros n. by rewrite app_nil_r.
  - destruct (read_rendered env o w (map ln (map (render o) wls)) o' b Hw)
      as (o1 & b1 & E1 & L1).
    destruct (IH o1 b1) as (o2 & b2 & E2 & L2).
    exists o2, b2. split.
    + change (map ln (map (render o) (w :: wls)))
        with (ln (render o w) :: map ln (map (render o) wls)).
      by rewrite E1.
    + intros n. rewrite L2, L1.
      change (written (w :: wls) n) with (contrib w n ++ written wls n).
      by rewrite app_assoc.
Qed.

Lemma command_prefix_unlines : command_prefix = unlines command_prefix_lines.
Proof. reflexivity. Qed.

Lemma output_prefix_unlines o : output_prefix o = unlines (prefix_lines o).
Proof.
  unfold output_prefix, prefix_lines.
  destruct (is_bundle o); [done|]. by destruct (is_command o).
Qed.

Lemma read_prefix_lines env o rest s :
  read_lines env false (map ln (prefix_lines o) ++ rest) s
  = read_lines env false rest s.
Proof.
  unfold prefix_lines. destruct (is_bundle o); [done|].
  destruct (is_command o); [|done]. reflexivity.
Qed.

Lemma prefix_one_line o : Forall (fun l => one_line l = true) (prefix_lines o).
Proof.
  unfold prefix_lines. destruct (is_bundle o); [constructor|].
  destruct (is_command o); [|constructor]. by repeat constructor.
Qed.

(** [read] of the file that [write] leaves. *)
Lemma read_written env o wls s :
  Forall (wline_ok o) wls ->
  exists o'' b'',
    read env (Some (output_prefix o +:+ text_of o wls)) s = (Done None, (o'', b''))
    /\ forall n, lists b'' n
                 = lists (append tap_input "direct" (clear_input s.2)) n
                   ++ written wls n.
Proof.
  intros Hok. rewrite read_some.
  unfold text_of. rewrite output_prefix_unlines, <- unlines_app.
  rewrite readlines_unlines.
  - unfold mbind, M_bind, bind. rewrite map_app, read_prefix_lines.
    destruct (read_rendered_all env o wls Hok s.1
                (append tap_input "direct" (clear_input s.2)))
      as (o2 & b2 & E & L).
    exists o2, b2. split; [|exact L]. by rewrite E.
  - apply Forall_app. split; [apply prefix_one_line|].
    apply Forall_forall. intros l Hl. apply list_elem_of_In, in_map_iff in Hl.
    destruct Hl as (w & <- & Hw%list_elem_of_In).
    apply render_one_line. by eapply Forall_forall in Hok.
Qed.

(** ** What [read] keeps *)

Section stable.
Variable env : Env.
Variable R : RS -> RS -> Prop.
Hypothesis R_refl : forall s, R s s.
Hypothesis R_trans : forall s1 s2 s3, R s1 s2 -> R s2 s3 -> R s1 s3.
Hypothesis R_form : forall f s,
  f ∈ ["cmd"; "bundle"] -> form s.1 = "none" -> R s (set_form f s.1, s.2).
Hypothesis R_brew : forall line p s,
  R s (s.1, dict_set brew_input_opt p (line_opt (final_args line))
              (append brew_input p s.2)).
Hypothesis R_append : forall n x s, n <> brew_input -> R s (s.1, append n x s.2).
Hypothesis R_tapall : forall p s, R s (s.1, read_tapall env p s.2).

Lemma Stable_ret {A} (a : A) : Stable R (mret a : M RS A).
Proof. intros s. apply R_refl. Qed.

Lemma Stable_raise {A} e : Stable R (raise e : M RS A).
Proof. intros s. apply R_refl. Qed.

Lemma Stable_bind {A B} (m : M RS A) (k : A -> M RS B) :
  Stable R m -> (forall a, Stable R (k a)) -> Stable R (m ≫= k).
Proof.
  intros Hm Hk s. specialize (Hm s).
  destruct (m s) as [[a|e|c] s'] eqn:E.
  - rewrite (bind_done _ _ _ _ _ E). eapply R_trans; [exact Hm | apply Hk].
  - by rewrite (bind_raised _ _ _ _ _ E).
  - by rewrite (bind_exited _ _ _ _ _ E).
Qed.

Lemma Stable_form_if_none f :
  f ∈ ["cmd"; "bundle"] -> Stable R (form_if_none f).
Proof.
  intros Hf s. unfold form_if_none, modify. simpl.
  destruct (decide (form s.1 = "none")); [by apply R_form|apply R_refl].
Qed.

Lemma Stable_when c (m : M RS unit) : Stable R m -> Stable R (when c m).
Proof. intros H. destruct c; [exact H | apply Stable_ret]. Qed.

Lemma Stable_dispatch line line' cmd p excmd :
  Stable R (dispatch env line cmd p (line_opt (final_args line')) excmd).
Proof.
  unfold dispatch.
  repeat match goal with
         | |- Stable R (if ?c then _ else _) => destruct c
         | |- Stable R (match ?x with _ => _ end) => destruct x
         | |- Stable R (_ ≫= _) => apply Stable_bind; [|intros ?]
         | |- Stable R (form_if_none _) =>
             apply Stable_form_if_none, list_elem_of_further, list_elem_of_here
         | |- Stable R (raise _) => apply Stable_raise
         end.
  all: intros st; unfold upd, modify; simpl;
    try apply R_brew; try apply R_tapall; try (by apply R_append).
  eapply R_trans; [apply (R_append main_input p); done|].
  by apply (R_append file_input p (st.1, append main_input p st.2)).
Qed.

Lemma Stable_parse_line line : Stable R (parse_line env line).
Proof.
  unfold parse_line. destruct (line_args line) as [|cmd rest]; [apply Stable_raise|].
  repeat (apply Stable_bind;
            [apply Stable_when, Stable_form_if_none;
             repeat first [apply list_elem_of_here | apply list_elem_of_further]
            | intros _]).
  apply Stable_dispatch.
Qed.

Lemma Stable_read_lines lines : forall ig, Stable R (read_lines env ig lines).
Proof.
  induction lines as [|line rest IH]; intros ig; simpl; [apply Stable_ret|].
  repeat match goal with
         | |- Stable R (if ?c then _ else _) => destruct c
         end; try apply IH.
  all: apply Stable_bind; [apply Stable_parse_line | intros _; apply IH].
Qed.
End stable.

(** *** The options that [read] records *)

Lemma forallb_lstrip P Q s :
  Py.forallb_str P s = true -> Py.forallb_str P (Py.lstrip_of Q s) = true.
Proof.
  induction s as [|c s IH]; [done|]. simpl. intros H.
  destruct (Q c); [|done]. apply andb_true_iff in H as [_ H]. by apply IH.
Qed.

Lemma forallb_rstrip P Q s :
  Py.forallb_str P s = true -> Py.forallb_str P (Py.rstrip_of Q s) = true.
Proof.
  induction s as [|c s IH]; [done|]. simpl. intros [Hc Hs]%andb_true_iff.
  destruct (Q c && Py.is_empty (Py.rstrip_of Q s)); [done|]. simpl.
  by rewrite Hc, IH.
Qed.

Lemma one_line_strip s : one_line s = true -> one_line (Py.strip s) = true.
Proof. intros H. by apply forallb_rstrip, forallb_lstrip. Qed.

Lemma final_args_no_space line :
  Forall (fun t => no_space t = true) (final_args line).
Proof.
  assert (H0 : Forall (fun t => no_space t = true) (line_args line))
    by apply split_no_space.
  assert (H1 : Forall (fun t => no_space t = true) (drop_command (line_args line)).1).
  { unfold drop_command. destruct (_ && _); [|done]. simpl.
    destruct (line_args line); [done|]. by apply Forall_cons in H0 as [_ H0]. }
  unfold final_args, drop_install. destruct (_ && _); [|done]. simpl.
  constructor; [|by apply Forall_drop].
  destruct (drop_command (line_args line)).1; [done|]. by apply Forall_cons in H1 as [H1 _].
Qed.

Lemma line_opt_ok line : opt_ok (line_opt (final_args line)) = true.
Proof.
  pose proof (final_args_no_space line) as H. unfold line_opt.
  destruct (bool_decide (2 < length (final_args line))%nat); [|done].
  assert (J : forall l, Forall (fun t => no_space t = true) l ->
                        opt_ok (" " +:+ Py.strip (Py.join " " l)) = true).
  { intros l Hl. change (one_line (Py.strip (Py.join " " l)) = true).
    apply one_line_strip, one_line_join; [done|].
    eapply Forall_impl; [exact Hl|]. intros t. apply no_space_one_line. }
  destruct (bool_decide _).
  - apply J. apply Forall_forall. intros x Hx. apply list_elem_of_In, in_map_iff in Hx.
    destruct Hx as (t & <- & Ht%list_elem_of_In).
    unfold no_space. rewrite forallb_str_app. simpl.
    apply (Forall_drop _ 3) in H. rewrite Forall_forall in H. by apply H.
  - apply J. by apply Forall_drop.
Qed.

Lemma kept_refl s : read_keeps s s.
Proof. by split. Qed.

Lemma kept_trans s1 s2 s3 : read_keeps s1 s2 -> read_keeps s2 s3 -> read_keeps s1 s3.
Proof. intros [H1 K1] [H2 K2]. split; [by rewrite H2|auto]. Qed.

Lemma keyed_brew p opt b :
  opt_ok opt = true -> keyed b ->
  keyed (dict_set brew_input_opt p opt (append brew_input p b)).
Proof.
  intros Ho [Hk Hv]. split.
  - intros q. unfold dict_set. rewrite lists_set_dict, lists_append. simpl.
    intros [Hq|Hq]%elem_of_app.
    + destruct (decide (q = p)) as [->|Hne]; [by rewrite lookup_insert_eq|].
      rewrite lookup_insert_ne by done. by apply Hk.
    + apply list_elem_of_singleton in Hq as ->. by rewrite lookup_insert_eq.
  - intros q v. simpl. intros [[_ <-]|[_ H]]%lookup_insert_Some; [done|].
    by eapply Hv.
Qed.

Lemma keyed_append n x b : n <> brew_input -> keyed b -> keyed (append n x b).
Proof.
  intros Hn [Hk Hv]. split.
  - intros q. rewrite lists_append. destruct (decide (brew_input = n)); [done|].
    rewrite app_nil_r. apply Hk.
  - exact Hv.
Qed.

Lemma keyed_tapall env p b : keyed b -> keyed (read_tapall env p b).
Proof.
  intros H. unfold read_tapall.
  assert (H1 : forall l b0, keyed b0 -> keyed
            (foldl (fun b tp => dict_set brew_input_opt tp "" (append brew_input tp b)) b0 l)).
  { induction l as [|x l IH]; intros b0 H0; simpl; [done|]. by apply IH, keyed_brew. }
  assert (H2 : forall l b0, keyed b0 ->
                            keyed (foldl (fun b tp => append cask_input tp b) b0 l)).
  { induction l as [|x l IH]; intros b0 H0; simpl; [done|]. by apply IH, keyed_append. }
  by apply H2, H1, keyed_append.
Qed.

Lemma kept_read_lines env lines ig : Stable read_keeps (read_lines env ig lines).
Proof.
  apply Stable_read_lines.
  - apply kept_refl.
  - apply kept_trans.
  - intros f s _ _. by split.
  - intros line p s. split; [done|]. apply keyed_brew, line_opt_ok.
  - intros n x s Hn. split; [done|]. by apply keyed_append.
  - intros p s. split; [done|]. apply keyed_tapall.
Qed.

(** What the first [read] leaves. *)
Lemma read_kept env content s :
  caskonly (read env (Some content) s).2.1 = caskonly s.1
  /\ keyed (read env (Some content) s).2.2.
Proof.
  rewrite read_some.
  set (s0 := (s.1, append tap_input "direct" (clear_input s.2))).
  assert (K0 : keyed s0.2).
  { split; [intros p Hp; by apply elem_of_nil in Hp|]. intros p opt. simpl.
    by rewrite lookup_empty. }
  pose proof (kept_read_lines env (Py.readlines content) false s0) as [H1 H2].
  destruct (read_lines env false (Py.readlines content) s0) as [[u|e|c] s1] eqn:E.
  - rewrite (bind_done _ _ _ _ _ E). split; [exact H1|by apply H2].
  - rewrite (bind_raised _ _ _ _ _ E). split; [exact H1|by apply H2].
  - rewrite (bind_exited _ _ _ _ _ E). split; [exact H1|by apply H2].
Qed.

(** *** [read] starts from the file alone *)

Lemma same_inputs_refl b : same_inputs b b.
Proof. by intros n _. Qed.

Lemma same_inputs_append n x b b' :
  same_inputs b b' -> same_inputs (append n x b) (append n x b').
Proof.
  intros H m Hm. rewrite !lists_append. rewrite (H m Hm). done.
Qed.

Lemma same_inputs_dict_set n k v b b' :
  same_inputs b b' -> same_inputs (dict_set n k v b) (dict_set n k v b').
Proof. intros H m Hm. apply (H m Hm). Qed.

Lemma same_inputs_tapall env p b b' :
  same_inputs b b' -> same_inputs (read_tapall env p b) (read_tapall env p b').
Proof.
  intros H. unfold read_tapall.
  assert (H1 : forall l b0 b0', same_inputs b0 b0' -> same_inputs
            (foldl (fun b tp => dict_set brew_input_opt tp "" (append brew_input tp b)) b0 l)
            (foldl (fun b tp => dict_set brew_input_opt tp "" (append brew_input tp b)) b0' l)).
  { induction l as [|x l IH]; intros b0 b0' H0; simpl; [done|].
    by apply IH, same_inputs_dict_set, same_inputs_append. }
  assert (H2 : forall l b0 b0', same_inputs b0 b0' -> same_inputs
            (foldl (fun b tp => append cask_input tp b) b0 l)
            (foldl (fun b tp => append cask_input tp b) b0' l)).
  { induction l as [|x l IH]; intros b0 b0' H0; simpl; [done|].
    by apply IH, same_inputs_append. }
  by apply H2, H1, same_inputs_append.
Qed.

Lemma Sim_ret {A} (a : A) : Sim (mret a : M RS A).
Proof. by intros s s' H. Qed.

Lemma Sim_raise {A} e : Sim (raise e : M RS A).
Proof. by intros s s' H. Qed.

Lemma Sim_bind {A B} (m : M RS A) (k : A -> M RS B) :
  Sim m -> (forall a, Sim (k a)) -> Sim (m ≫= k).
Proof.
  intros Hm Hk s s' H. destruct (Hm s s' H) as [E1 E2].
  unfold mbind, M_bind, bind.
  destruct (m s) as [[a|e|c] s1], (m s') as [[a'|e'|c'] s1']; simpl in *;
    try discriminate E1; injection E1 as <-; [by apply Hk|by split|by split].
Qed.

Lemma Sim_form_if_none f : Sim (form_if_none f).
Proof.
  intros s s' H. unfold form_if_none, modify. simpl.
  by destruct (decide (form s.1 = "none")), (decide (form s'.1 = "none")).
Qed.

Lemma Sim_when c (m : M RS unit) : Sim m -> Sim (when c m).
Proof. intros H. destruct c; [exact H | apply Sim_ret]. Qed.

Lemma Sim_upd f :
  (forall b b', same_inputs b b' -> same_inputs (f b) (f b')) -> Sim (upd f).
Proof. intros Hf s s' H. split; [done|]. by apply Hf. Qed.

Lemma Sim_dispatch env line cmd p opt excmd :
  Sim (dispatch env line cmd p opt excmd).
Proof.
  unfold dispatch.
  repeat match goal with
         | |- Sim (if ?c then _ else _) => destruct c
         | |- Sim (match ?x with _ => _ end) => destruct x
         | |- Sim (_ ≫= _) => apply Sim_bind; [|intros ?]
         | |- Sim (form_if_none _) => apply Sim_form_if_none
         | |- Sim (raise _) => apply Sim_raise
         | |- Sim (upd _) => apply Sim_upd; intros ? ? ?
         end;
    repeat first [ apply same_inputs_dict_set | apply same_inputs_append
                 | apply same_inputs_tapall ]; done.
Qed.

Lemma Sim_parse_line env line : Sim (parse_line env line).
Proof.
  unfold parse_line. destruct (line_args line) as [|cmd rest]; [apply Sim_raise|].
  repeat (apply Sim_bind; [apply Sim_when, Sim_form_if_none | intros _]).
  apply Sim_dispatch.
Qed.

Lemma Sim_read_lines env lines : forall ig, Sim (read_lines env ig lines).
Proof.
  induction lines as [|line rest IH]; intros ig; simpl; [apply Sim_ret|].
  repeat match goal with
         | |- Sim (if ?c then _ else _) => destruct c
         end; try apply IH.
  all: apply Sim_bind; [apply Sim_parse_line | intros _; apply IH].
Qed.

Lemma read_from_file env content s s' :
  (read env (Some content) s).1 = (read env (Some content) s').1
  /\ same_inputs (read env (Some content) s).2.2 (read env (Some content) s').2.2.
Proof.
  rewrite !read_some.
  apply (Sim_bind (read_lines env false (Py.readlines content)) (fun _ => mret None));
    [apply Sim_read_lines|intros _; apply Sim_ret|].
  simpl. apply same_inputs_append. intros n Hn. unfold input_names in Hn.
  repeat (apply elem_of_cons in Hn as [->|Hn]; [reflexivity|]).
  by apply elem_of_nil in Hn.
Qed.

(** ** The round trip *)

Lemma read_tap_direct env content s :
  "direct" ∈ lists (read env (Some content) s).2.2 tap_input.
Proof.
  rewrite read_some.
  set (s0 := (s.1, append tap_input "direct" (clear_input s.2))).
  destruct (read_lines_tap_head env (Py.readlines content) false
              s.1 (append tap_input "direct" (clear_input s.2)) [])
    as [l Hl]; [reflexivity|].
  fold s0 in Hl.
  destruct (read_lines env false (Py.readlines content) s0) as [[u|e|c] s1] eqn:E.
  - rewrite (bind_done _ _ _ _ _ E). simpl in *. rewrite Hl. set_solver.
  - rewrite (bind_raised _ _ _ _ _ E). simpl in *. rewrite Hl. set_solver.
  - rewrite (bind_exited _ _ _ _ _ E). simpl in *. rewrite Hl. set_solver.
Qed.

Lemma simple_manifest_spec env o b :
  simple_manifest env o b = true ->
  NoDup (lists b brew_input)
  /\ (forall p, p ∈ lists b brew_input -> package_name p = true)
  /\ Forall (fun t => word t = true) (lists b tap_input)
  /\ (is_mac env = true -> forall c, c ∈ lists b cask_input ->
        word c = true /\ is_command o = false)
  /\ (forall n, n ∈ [appstore_input; main_input; file_input; before_input;
                     after_input; cmd_input] -> lists b n = []).
Proof.
  unfold simple_manifest. rewrite !andb_true_iff.
  intros ((((H1 & H2) & H3) & H4) & H5).
  split; [by apply bool_decide_eq_true in H1|].
  split; [intros p Hp%list_elem_of_In; rewrite forallb_forall in H2; by apply H2|].
  split; [apply Forall_forall; intros t Ht%list_elem_of_In;
          rewrite forallb_forall in H3; by apply H3|].
  split.
  - intros Hmac c Hc%list_elem_of_In. rewrite Hmac in H4. simpl in H4.
    rewrite forallb_forall in H4. specialize (H4 c Hc).
    apply andb_true_iff in H4 as [Hw Hcmd]. by apply negb_true_iff in Hcmd.
  - intros n Hn%list_elem_of_In. rewrite forallb_forall in H5.
    specialize (H5 n Hn). by apply bool_decide_eq_true in H5.
Qed.

Lemma entries_eq b b' n :
  (forall x, x ∈ lists b n <-> x ∈ lists b' n) -> entries b n = entries b' n.
Proof.
  intros H. unfold entries. apply set_eq. intros x.
  by rewrite !elem_of_list_to_set.
Qed.

Ltac solve_elem :=
  repeat first [apply list_elem_of_here | apply list_elem_of_further].

Ltac solve_not_elem :=
  let H := fresh in
  intros H; repeat (apply elem_of_cons in H as [H|H]; [discriminate H|]);
  by apply elem_of_nil in H.

Lemma but_casks_inputs n : n ∈ but_casks -> n ∈ input_names.
Proof. unfold but_casks, input_names. set_solver. Qed.

Lemma input_to_list_lists b :
  lists (input_to_list b) brew_list = lists b brew_input
  /\ lists (input_to_list b) tap_list = lists b tap_input
  /\ lists (input_to_list b) cask_list = lists b cask_input
  /\ lists (input_to_list b) appstore_list = lists b appstore_input
  /\ lists (input_to_list b) main_list = lists b main_input
  /\ lists (input_to_list b) file_list = lists b file_input
  /\ lists (input_to_list b) cask_nocask_list = []
  /\ lists (input_to_list b) brew_full_list = []
  /\ dicts (input_to_list b) brew_list_opt = dicts b brew_input_opt.
Proof.
  repeat split.
  change (dicts (input_to_list b) brew_list_opt) with (dicts b brew_input_opt ∪ ∅).
  by rewrite (right_id_L ∅ (∪)).
Qed.

Lemma input_to_list_empty b :
  (forall n, n ∈ [appstore_input; main_input; file_input; before_input;
                  after_input; cmd_input] -> lists b n = []) ->
  forall n, n ∈ [appstore_list; main_list; file_list; cask_nocask_list;
                 before_input; after_input; cmd_input] ->
            lists (input_to_list b) n = [].
Proof.
  intros H n Hn.
  destruct (input_to_list_lists b) as (_ & _ & _ & E1 & E2 & E3 & E4 & _).
  repeat (apply elem_of_cons in Hn as [->|Hn]).
  - rewrite E1. apply H. solve_elem.
  - rewrite E2. apply H. solve_elem.
  - rewrite E3. apply H. solve_elem.
  - exact E4.
  - change (lists (input_to_list b) before_input) with (lists b before_input).
    apply H. solve_elem.
  - change (lists (input_to_list b) after_input) with (lists b after_input).
    apply H. solve_elem.
  - change (lists (input_to_list b) cmd_input) with (lists b cmd_input).
    apply H. solve_elem.
  - by apply elem_of_nil in Hn.
Qed.

(** What the second [read] finds in a domain that [write] has no line
    for. *)
Lemma reread_other (L : list string) wls n :
  n ∉ [brew_input; tap_input; cask_input] -> L = [] ++ written wls n -> L = [].
Proof. intros Hn ->. by rewrite written_other. Qed.

(** X1. When a file that [read] accepts declares packages, taps and casks
    only, each package once and every name one plain word, then in each of
    the three dialects [write] ends and [read] of the file it leaves
    returns and gives back the same sets of packages and of taps and, on a
    Mac, the same set of casks; the other domains stay empty. In the
    command dialect this needs a manifest that declares no cask on a Mac,
    since a cask is written there as a package. *)
Theorem round_trip_of_packages_taps_and_casks (env : Env) (o : Opt)
    (content : string) :
  (first_read env o content).1 = Done None ->
  caskonly o = false ->
  simple_manifest env (first_read env o content).2.1
    (first_read env o content).2.2 = true ->
  reproduces env o content but_casks
  /\ (is_mac env = true -> reproduces env o content [cask_input]).
Proof.
  intros Hr Hco Hs. unfold reproduces, round_trip. rewrite Hr.
  destruct (read_kept env content (o, new_BrewInfo "Brewfile")) as [Hco1 [Hk Hv]].
  fold (first_read env o content) in Hco1, Hk, Hv.
  pose proof (read_tap_direct env content (o, new_BrewInfo "Brewfile")) as Hdirect.
  fold (first_read env o content) in Hdirect.
  simpl fst in Hco1. rewrite Hco in Hco1.
  destruct (first_read env o content) as [r1 [o1 b1]] eqn:E1.
  simpl fst in *. simpl snd in *.
  apply simple_manifest_spec in Hs as (Hnd & Hname & Htap & Hcask & Hempty).
  destruct (input_to_list_lists b1) as (Lb & Lt & Lc & _ & _ & _ & _ & _ & Ld).
  assert (HD : Doc env o1 (input_to_list b1)).
  { split; [by rewrite Lb|]. split; [|rewrite Lc; exact Hcask].
    intros p. rewrite Lb, Ld. intros Hp. split; [by apply Hname|].
    destruct (Hk p Hp) as [opt Ho]. exists opt. split; [done|]. by eapply Hv. }
  destruct (write_output_spec env o1 (input_to_list b1) Hco1 HD)
    as (wls & bW & EW & Hok & Hb & Ht & Hc & Hnc);
    [by rewrite Lt|by apply input_to_list_empty|].
  rewrite Lb in Hb. rewrite Lt in Ht. rewrite Lc in Hc.
  unfold write. rewrite EW. cbv beta iota zeta. simpl fst. simpl snd.
  destruct (Py.is_empty (text_of o1 wls)).
  - simpl default.
    destruct (read_from_file env content (o1, bW) (o, new_BrewInfo "Brewfile"))
      as [H1 H2].
    fold (first_read env o content) in H1, H2. rewrite E1 in H1, H2.
    simpl fst in H1. simpl snd in H2.
    rewrite H1, Hr.
    assert (J : forall n, n ∈ input_names ->
                  entries (read env (Some content) (o1, bW)).2.2 n = entries b1 n).
    { intros n Hn. unfold entries. by rewrite (H2 n Hn). }
    split; [split; [done|]|intros _; split; [done|]]; intros n Hn; apply J.
    + by apply but_casks_inputs.
    + apply list_elem_of_singleton in Hn as ->. unfold input_names. solve_elem.
  - simpl default.
    destruct (read_written env o1 wls (o1, bW) Hok) as (o2 & b2 & E2 & L2).
    simpl snd in L2. rewrite E2. simpl fst. simpl snd.
    split; [split; [done|]|intros Hmac; split; [done|]].
    + intros n Hn. unfold but_casks in Hn.
      repeat (apply elem_of_cons in Hn as [->|Hn]);
        try (by apply elem_of_nil in Hn).
      * apply entries_eq. intros x. rewrite L2.
        change (lists (append tap_input "direct" (clear_input bW)) brew_input)
          with (@nil string).
        by rewrite Hb.
      * apply entries_eq. intros x. rewrite L2.
        change (lists (append tap_input "direct" (clear_input bW)) tap_input)
          with ["direct"].
        rewrite elem_of_app, Ht, list_elem_of_singleton.
        destruct (decide (x = "direct")) as [->|]; naive_solver.
      * unfold entries. rewrite (Hempty appstore_input) by solve_elem.
        by rewrite (reread_other _ wls appstore_input) by (solve_not_elem || apply L2).
      * unfold entries. rewrite (Hempty main_input) by solve_elem.
        by rewrite (reread_other _ wls main_input) by (solve_not_elem || apply L2).
      * unfold entries. rewrite (Hempty file_input) by solve_elem.
        by rewrite (reread_other _ wls file_input) by (solve_not_elem || apply L2).
      * unfold entries. rewrite (Hempty before_input) by solve_elem.
        by rewrite (reread_other _ wls before_input) by (solve_not_elem || apply L2).
      * unfold entries. rewrite (Hempty after_input) by solve_elem.
        by rewrite (reread_other _ wls after_input) by (solve_not_elem || apply L2).
      * unfold entries. rewrite (Hempty cmd_input) by solve_elem.
        by rewrite (reread_other _ wls cmd_input) by (solve_not_elem || apply L2).
    + intros n Hn. apply list_elem_of_singleton in Hn as ->.
      apply entries_eq. intros x. rewrite L2.
      change (lists (append tap_input "direct" (clear_input bW)) cask_input)
        with (@nil string).
      by rewrite Hc.
Qed.

Lemma round_trip_witness :
  reproduces tap_with_package default_opt bundle_manifest but_casks
  /\ (is_mac tap_with_package = true ->
      reproduces tap_with_package default_opt bundle_manifest [cask_input]).
Proof.
  apply (round_trip_of_packages_taps_and_casks tap_with_package default_opt
           bundle_manifest).
  - vm_compute. reflexivity.
  - reflexivity.
  - vm_compute. reflexivity.
Defined.



(** What the text of the example becomes. *)
Lemma bundle_with_command_written :
  (write quiet_env (first_read quiet_env default_opt bundle_with_command).2.1
    (input_to_list (first_read quiet_env default_opt bundle_with_command).2.2)).1
  = Done (Some (ln "" +:+ ln "# Other Homebrew packages" +:+ ln "brew 'vim'"
                 +:+ ln "" +:+ ln "# Other commands" +:+ ln "#echo hello")).
Proof. vm_compute. reflexivity. Qed.

(** In the command dialect a cask is written as a package and read as
    one. *)
Lemma command_dialect_reads_cask_as_package :
  lists (first_read quiet_env command_opt (ln "cask firefox")).2.2 brew_input = []
  /\ lists (first_read quiet_env command_opt (ln "cask firefox")).2.2 cask_input
     = ["firefox"]
  /\ lists (round_trip quiet_env command_opt (ln "cask firefox")).2.2 brew_input
     = ["firefox"]
  /\ lists (round_trip quiet_env command_opt (ln "cask firefox")).2.2 cask_input = [].
Proof. vm_compute. by repeat split. Qed.

(** X2. What [read] returns and the input lists it leaves depend on the
    file alone: not on the options, nor on what the document held before,
    also when a line makes it raise. *)
Theorem read_depends_on_the_file_only (env : Env) (content : string) (s s' : RS) :
  (read env (Some content) s).1 = (read env (Some content) s').1
  /\ forall n, n ∈ input_names ->
       lists (read env (Some content) s).2.2 n
       = lists (read env (Some content) s').2.2 n.
Proof. apply read_from_file. Qed.

(** X3. After [read], however it ends, every package of [brew_input] has
    its options in [brew_input_opt], and the options recorded there are
    empty or a space followed by text without a line end; the option
    [caskonly] is what it was. *)
Theorem read_records_the_options (env : Env) (content : string) (s : RS) :
  (forall p, p ∈ lists (read env (Some content) s).2.2 brew_input ->
     exists opt,
       dicts (read env (Some content) s).2.2 brew_input_opt !! p = Some opt
       /\ opt_ok opt = true)
  /\ caskonly (read env (Some content) s).2.1 = caskonly s.1.
Proof.
  destruct (read_kept env content s) as [Hc [Hk Hv]]. split; [|exact Hc].
  intros p Hp. destruct (Hk p Hp) as [opt Ho]. exists opt. split; [done|].
  by eapply Hv.
Qed.

(** ** The order of [sort] *)

Lemma leb_refl s : String.leb s s = true.
Proof. apply Is_true_true. apply (reflexivity (R := String.le)). Qed.

Lemma leb_trans a b c :
  String.leb a b = true -> String.leb b c = true -> String.leb a c = true.
Proof.
  intros H1%Is_true_true H2%Is_true_true. apply Is_true_true.
  exact (transitivity (R := String.le) H1 H2).
Qed.

Lemma leb_false_le a b : String.leb a b = false -> String.leb b a = true.
Proof. intros H. destruct (String.leb_total a b) as [E|E]; [congruence|done]. Qed.

Lemma insert_by_ascending x l :
  ascending l -> ascending (Py.insert_by String.leb (fun x => x) x l).
Proof.
  induction l as [|y l IH]; intros H; simpl.
  - split; [|done]. intros z Hz. by apply elem_of_nil in Hz.
  - destruct H as [Hy Hl]. destruct (String.leb x y) eqn:E.
    + split; [|by split]. intros z [->|Hz]%elem_of_cons; [done|].
      eapply leb_trans; [exact E|by apply Hy].
    + split; [|by apply IH]. intros z Hz.
      rewrite insert_by_perm in Hz. apply elem_of_cons in Hz as [->|Hz].
      * by apply leb_false_le.
      * by apply Hy.
Qed.

Lemma sort_ascending l : ascending (Py.sort l).
Proof.
  induction l as [|x l IH]; [done|]. by apply insert_by_ascending.
Qed.

Lemma ascending_perm_eq l1 : forall l2,
  ascending l1 -> ascending l2 -> l1 ≡ₚ l2 -> l1 = l2.
Proof.
  induction l1 as [|x l1 IH]; intros l2 H1 H2 Hp.
  - by apply Permutation_nil_l in Hp.
  - destruct l2 as [|y l2]; [by apply Permutation_nil_r in Hp|].
    destruct H1 as [Hx H1], H2 as [Hy H2].
    assert (x = y) as <-.
    { assert (Hxin : x ∈ y :: l2) by (rewrite <- Hp; apply list_elem_of_here).
      assert (Hyin : y ∈ x :: l1) by (rewrite Hp; apply list_elem_of_here).
      apply elem_of_cons in Hxin as [?|Hxin]; [done|].
      apply elem_of_cons in Hyin as [?|Hyin]; [done|].
      apply String.leb_antisym; [by apply Hx|by apply Hy]. }
    f_equal. apply IH; [done|done|]. by apply (Permutation_cons_inv (a := x)).
Qed.

Lemma sort_perm_eq l1 l2 : l1 ≡ₚ l2 -> Py.sort l1 = Py.sort l2.
Proof.
  intros H. apply ascending_perm_eq; [apply sort_ascending..|].
  by rewrite !sort_perm.
Qed.

Lemma taps_of_perm o l :
  taps_of o CoreTap l ++ taps_of o BrewTap l
  ++ taps_of o CaskTap l ++ taps_of o OtherTap l ≡ₚ l.
Proof.
  induction l as [|x l IH]; [done|]. unfold taps_of in *. simpl.
  destruct (classify_tap o x); simpl.
  - by apply perm_skip.
  - etrans; [|apply perm_skip, IH]. symmetry.
    match goal with
    | |- x :: ?A ++ ?B ++ ?C ++ ?D ≡ₚ _ =>
        rewrite (app_assoc A B (C ++ D)), (app_assoc A B (x :: C ++ D))
    end.
    apply Permutation_middle.
  - etrans; [|apply perm_skip, IH]. symmetry. apply Permutation_middle.
  - etrans; [|apply perm_skip, IH]. symmetry.
    match goal with
    | |- x :: ?A ++ ?B ++ ?C ++ ?D ≡ₚ _ =>
        rewrite (app_assoc B C D), (app_assoc A (B ++ C) D),
          (app_assoc B C (x :: D)), (app_assoc A (B ++ C) (x :: D))
    end.
    apply Permutation_middle.
Qed.

Lemma sort_taps_perm o l : sort_taps o l ≡ₚ l.
Proof. unfold sort_taps. rewrite !sort_perm. apply taps_of_perm. Qed.

(** X4. [sort] raises [IndexError] exactly when an entry of
    [appstore_list] has no word; however it ends, each list holds the
    entries it held, as often, and the options are untouched; and the lists
    sorted in place are in ascending order. *)
Theorem sort_keeps_and_orders (o : Opt) (b : BrewInfo) :
  ((sort o b).1 = Done tt
   <-> forall x, x ∈ lists b appstore_list -> Py.split x <> [])
  /\ ((sort o b).1 = Done tt \/ (sort o b).1 = Raised IndexError)
  /\ (forall n, lists (sort o b).2 n ≡ₚ lists b n)
  /\ dicts (sort o b).2 = dicts b
  /\ (forall n, n ∈ sorted_in_place -> ascending (lists (sort o b).2 n)).
Proof.
  unfold sort. simpl.
  set (ok := forallb (fun x => bool_decide (is_Some (appstore_key x)))
               (lists b appstore_list)).
  assert (Hok : ok = true
                <-> forall x, x ∈ lists b appstore_list -> Py.split x <> []).
  { unfold ok. rewrite forallb_forall. split.
    - intros H x Hx%list_elem_of_In. specialize (H x Hx).
      apply bool_decide_eq_true in H. unfold appstore_key in H.
      intros E. rewrite E in H. by destruct H.
    - intros H x Hx%list_elem_of_In. specialize (H x Hx).
      apply bool_decide_eq_true. unfold appstore_key.
      destruct (Py.split x) as [|a [|c r]]; [done|by eexists..]. }
  destruct ok eqn:E; simpl.
  - split; [by rewrite <- Hok|]. split; [by left|]. split; [|split; [done|]].
    + intros n. destruct n; simpl; try done;
        first [apply sort_perm | apply sort_taps_perm | apply sort_by_perm].
    + intros n Hn. unfold sorted_in_place in Hn.
      repeat (apply elem_of_cons in Hn as [->|Hn]; [apply sort_ascending|]).
      by apply elem_of_nil in Hn.
  - split; [split; [done|intros H; by apply Hok in H]|].
    split; [by right|]. split; [|split; [done|]].
    + intros n. destruct n; simpl; try done;
        first [apply sort_perm | apply sort_taps_perm].
    + intros n Hn. unfold sorted_in_place in Hn.
      repeat (apply elem_of_cons in Hn as [->|Hn]; [apply sort_ascending|]).
      by apply elem_of_nil in Hn.
Qed.

(** X5. The package loop of [install] compares the declared and the
    recorded options of an installed package as bags of words: it runs no
    command for the package exactly when the words of the two are the same,
    as often, in whatever order. *)
Theorem install_compares_options_as_bags (f : BrewFile) (p io lo : string) :
  p ∈ get f brew_full_list false ->
  get_dict f brew_list_opt false !! p = Some lo ->
  get_dict f brew_input_opt false !! p = Some io ->
  (install_verb f p = Done None <-> Py.split io ≡ₚ Py.split lo)
  /\ (install_verb f p = Done None \/ install_verb f p = Done (Some "reinstall")).
Proof.
  intros Hp Hlo Hio. unfold install_verb.
  rewrite (bool_decide_eq_true_2 _ Hp), Hlo, Hio. unfold sorted_tokens.
  case_bool_decide as E.
  - split; [|by left]. split; [intros _|done].
    by rewrite <- (sort_perm (Py.split io)), E, sort_perm.
  - split; [|by right]. split; [done|]. intros H. destruct E. by apply sort_perm_eq.
Qed.

Lemma install_compares_options_witness :
  (install_verb (vim_declared " --with-lua --HEAD" " --HEAD --with-lua") "vim"
   = Done None
   <-> Py.split " --with-lua --HEAD" ≡ₚ Py.split " --HEAD --with-lua")
  /\ (install_verb (vim_declared " --with-lua --HEAD" " --HEAD --with-lua") "vim"
      = Done None
      \/ install_verb (vim_declared " --with-lua --HEAD" " --HEAD --with-lua") "vim"
         = Done (Some "reinstall")).
Proof.
  apply (install_compares_options_as_bags
           (vim_declared " --with-lua --HEAD" " --HEAD --with-lua") "vim").
  - vm_compute. apply list_elem_of_here.
  - vm_compute. reflexivity.
  - vm_compute. reflexivity.
Defined.

(** ** The dialect that [read] detects *)

Lemma dialect_only_refl s : dialect_only s s.
Proof. split; [by destruct s as [[] ?]|]. split; [done|by left]. Qed.

Lemma dialect_only_trans s1 s2 s3 :
  dialect_only s1 s2 -> dialect_only s2 s3 -> dialect_only s1 s3.
Proof.
  intros (E1 & K1 & F1) (E2 & K2 & F2). split; [|split].
  - rewrite E2, E1. reflexivity.
  - intros H. rewrite K2, K1; [done|done|]. by rewrite K1.
  - destruct F2 as [F2|F2]; [|by right]. rewrite F2. exact F1.
Qed.

Lemma dialect_only_lists s b : dialect_only s (s.1, b).
Proof. split; [by destruct s as [[] ?]|]. split; [done|by left]. Qed.

Lemma dialect_only_read_lines env lines ig :
  Stable dialect_only (read_lines env ig lines).
Proof.
  apply Stable_read_lines.
  - apply dialect_only_refl.
  - apply dialect_only_trans.
  - intros f s Hf Hn. split; [done|]. split; [done|by right].
  - intros line p s. apply dialect_only_lists.
  - intros n x s _. apply dialect_only_lists.
  - intros p s. apply dialect_only_lists.
Qed.

(** X6. [read] changes no option but the dialect. It changes the dialect
    only when it is [none], and then to [cmd] or [bundle]: a dialect that is
    set stays, whatever the file holds. *)
Theorem read_changes_the_dialect_only (env : Env) (file : option string) (s : RS) :
  (read env file s).2.1 = set_form (form (read env file s).2.1) s.1
  /\ (form s.1 <> "none" -> (read env file s).2.1 = s.1)
  /\ (form (read env file s).2.1 = form s.1
      \/ form (read env file s).2.1 ∈ ["cmd"; "bundle"]).
Proof.
  destruct file as [content|]; [|apply (dialect_only_refl s)].
  rewrite read_some.
  set (s0 := (s.1, append tap_input "direct" (clear_input s.2))).
  pose proof (dialect_only_read_lines env (Py.readlines content) false s0) as H.
  assert (H0 : dialect_only s s0) by apply dialect_only_lists.
  pose proof (dialect_only_trans _ _ _ H0 H) as H1.
  destruct (read_lines env false (Py.readlines content) s0) as [[u|e|c] s1] eqn:E.
  - rewrite (bind_done _ _ _ _ _ E). exact H1.
  - rewrite (bind_raised _ _ _ _ _ E). exact H1.
  - rewrite (bind_exited _ _ _ _ _ E). exact H1.
Qed.

(** ** The options of a package, written and read *)

Lemma unquote_quote_free s :
  Py.forallb_str quote_free s = true -> unquote s = s.
Proof.
  intros H. unfold unquote.
  assert (J : forall d, d ∈ ["'"; dquote; ","; "["; "]"]%char ->
                Py.forallb_str (fun c => negb (Ascii.eqb d c)) s = true).
  { intros d Hd. eapply forallb_str_impl; [|exact H]. intros c Hc.
    apply negb_true_iff, bool_decide_eq_false in Hc. apply negb_true_iff.
    destruct (Ascii.eqb_spec d c) as [->|]; done. }
  rewrite (replace_id "'") by (apply J; repeat constructor).
  rewrite (replace_id dquote) by (apply J; repeat constructor).
  rewrite (replace_id ",") by (apply J; repeat constructor).
  rewrite (replace_id "[") by (apply J; repeat constructor).
  rewrite (replace_id "]") by (apply J; repeat constructor).
  done.
Qed.

Lemma split_go_nl s : forall tok, Py.split_go tok (s +:+ Py.nl) = Py.split_go tok s.
Proof.
  induction s as [|c s IH]; intros tok; [done|].
  rewrite str_app_cons. simpl. by rewrite !IH.
Qed.

Lemma split_single w : w <> "" -> no_space w = true -> Py.split w = [w].
Proof.
  intros Hne Hw. unfold Py.split.
  rewrite <- (str_app_nil_r w) at 1. rewrite split_go_run by done.
  simpl. by destruct w.
Qed.

Lemma split_spaces sep s :
  Py.forallb_str Py.is_space sep = true -> Py.split (sep +:+ s) = Py.split s.
Proof.
  induction sep as [|c sep IH]; [done|]. simpl.
  intros [Hc Hs]%andb_true_iff. rewrite str_app_cons. unfold Py.split. simpl.
  rewrite Hc. by apply IH.
Qed.

(** The words of a text made of words and spaces. *)
Lemma split_join c sep ws :
  Py.is_space c = true -> Py.forallb_str Py.is_space sep = true ->
  Forall (fun w => w <> "" /\ no_space w = true) ws ->
  Py.split (Py.join (String c sep) ws) = ws.
Proof.
  intros Hc Hsep. induction 1 as [|w ws [Hw1 Hw2] Hws IH]; [done|].
  destruct ws as [|w' ws]; [by apply split_single|].
  change (Py.split (w +:+ String c sep +:+ Py.join (String c sep) (w' :: ws))
          = w :: w' :: ws).
  rewrite str_app_cons, split_word by done.
  by rewrite split_spaces, IH.
Qed.

Lemma unquote_join sep l :
  unquote (Py.join sep l) = Py.join (unquote sep) (map unquote l).
Proof.
  induction l as [|x l IH]; [done|]. destruct l as [|y l]; [done|].
  change (unquote (x +:+ sep +:+ Py.join sep (y :: l))
          = unquote x +:+ unquote sep +:+ Py.join (unquote sep) (map unquote (y :: l))).
  by rewrite !unquote_app, IH.
Qed.

Lemma word_solid w : word w = true -> w <> "" /\ no_space w = true.
Proof.
  intros H. split; [|by apply word_no_space].
  intros ->. done.
Qed.

Lemma dashes_word w : word w = true -> word ("--" +:+ w) = true.
Proof.
  intros [_ H]%andb_true_iff. unfold word.
  change ("--" +:+ w) with (String "-" (String "-" w)). simpl. by rewrite H.
Qed.

Lemma ends_solid_app a b : b <> "" -> ends_solid (a +:+ b) = ends_solid b.
Proof.
  intros Hb. induction a as [|c a IH]; [done|]. rewrite str_app_cons.
  simpl. destruct (a +:+ b) eqn:E; [|done].
  destruct a; [simpl in E; by subst|discriminate E].
Qed.

Lemma ends_solid_word w : no_space w = true -> ends_solid w = true.
Proof.
  induction w as [|c w IH]; [done|]. simpl.
  intros [Hc Hw]%andb_true_iff. destruct w; [done|by apply IH].
Qed.

Lemma ends_solid_join ws :
  Forall (fun w => w <> "" /\ no_space w = true) ws ->
  ends_solid (Py.join " " ws) = true.
Proof.
  induction 1 as [|w ws [Hw1 Hw2] Hws IH]; [done|].
  destruct ws as [|w' ws]; [by apply ends_solid_word|].
  change (ends_solid (w +:+ " " +:+ Py.join " " (w' :: ws)) = true).
  rewrite ends_solid_app.
  - rewrite ends_solid_app; [exact IH|].
    apply Forall_cons in Hws as [[Hw' _] _].
    destruct ws; simpl; [done|]. intros E. destruct w'; [done|discriminate E].
  - discriminate.
Qed.

Lemma rstrip_solid s : ends_solid s = true -> Py.rstrip_of Py.is_space s = s.
Proof.
  induction s as [|c s IH]; [done|]. intros H. simpl.
  destruct s as [|d s].
  - simpl in *. apply negb_true_iff in H. by rewrite H.
  - rewrite IH by exact H. by rewrite andb_false_r.
Qed.

Lemma strip_join ws :
  Forall (fun w => w <> "" /\ no_space w = true) ws ->
  Py.strip (Py.join " " ws) = Py.join " " ws.
Proof.
  intros H. unfold Py.strip, Py.strip_of.
  assert (E : Py.lstrip_of Py.is_space (Py.join " " ws) = Py.join " " ws).
  { destruct H as [|w ws [Hw1 Hw2] Hws]; [done|].
    destruct w as [|c w]; [done|]. simpl in Hw2.
    apply andb_true_iff in Hw2 as [Hc _]. apply negb_true_iff in Hc.
    destruct ws; simpl; by rewrite Hc. }
  rewrite E. by apply rstrip_solid, ends_solid_join.
Qed.

Lemma brew_line_final_args o p opt c s :
  package_name p = true ->
  convert_option o opt +:+ Py.nl = String c s -> is_sep c = true ->
  final_args (brew_line o p opt) = "brew" :: p :: line_args s
  /\ line_args (brew_line o p opt) <> [].
Proof.
  intros [Hw Hp]%andb_true_iff E Hc.
  apply negb_true_iff, bool_decide_eq_false in Hp.
  unfold brew_line, ln. rewrite !str_app_assoc, E.
  unfold final_args, cmds_of.
  destruct (is_bundle o) eqn:Hb; [|destruct (is_command o) eqn:Hcmd]; simpl cmd_install.
  - change ("brew " +:+ packout o p +:+ String c s)
      with ("brew" +:+ String " " (packout o p +:+ String c s)).
    rewrite line_args_word, line_args_packout by done.
    split; [|done].
    unfold drop_command. rewrite andb_false_intro2
      by (apply bool_decide_eq_false; simpl; set_solver).
    unfold drop_install. simpl fst.
    rewrite andb_false_intro2 by (apply bool_decide_eq_false; simpl; set_solver).
    done.
  - change ("brew install " +:+ packout o p +:+ String c s)
      with ("brew" +:+ String " " ("install" +:+ String " " (packout o p +:+ String c s))).
    rewrite !line_args_word, line_args_packout by done.
    split; [|done].
    unfold drop_command. rewrite andb_false_intro2 by done. simpl fst.
    unfold drop_install. simpl. done.
  - change ("brew " +:+ packout o p +:+ String c s)
      with ("brew" +:+ String " " (packout o p +:+ String c s)).
    rewrite line_args_word, line_args_packout by done.
    split; [|done].
    unfold drop_command. rewrite andb_false_intro2
      by (apply bool_decide_eq_false; simpl; set_solver).
    unfold drop_install. simpl fst.
    rewrite andb_false_intro2 by (apply bool_decide_eq_false; simpl; set_solver).
    done.
Qed.

Lemma unquote_words ws :
  Forall (fun w => word w = true) ws -> map unquote ws = ws.
Proof.
  induction 1 as [|w ws Hw _ IH]; [done|]. simpl. by rewrite unquote_word, IH.
Qed.

Lemma dashed_solid ws :
  Forall (fun w => word w = true) ws ->
  Forall (fun w => w <> "" /\ no_space w = true) (map (String.append "--") ws).
Proof.
  induction 1 as [|w ws Hw _ IH]; [constructor|]. simpl.
  constructor; [|done]. by apply word_solid, dashes_word.
Qed.

Lemma dashed_words ws :
  Forall (fun w => word w = true) ws ->
  Forall (fun w => word w = true) (map (String.append "--") ws).
Proof.
  induction 1 as [|w ws Hw _ IH]; [constructor|]. simpl.
  constructor; [by apply dashes_word|done].
Qed.

(** The words that follow the package on the line of the plain and
    command dialects. *)
Lemma plain_flags_args w ws :
  Forall (fun w => word w = true) (w :: ws) ->
  line_args (Py.join " " (map (String.append "--") (w :: ws)) +:+ Py.nl)
  = map (String.append "--") (w :: ws).
Proof.
  intros H.
  change (Py.split (unquote (Py.join " " (map (String.append "--") (w :: ws))
                             +:+ Py.nl))
          = map (String.append "--") (w :: ws)).
  rewrite unquote_app, unquote_join, unquote_words by (by apply dashed_words).
  change (unquote " ") with " ". change (unquote Py.nl) with Py.nl.
  unfold Py.split. rewrite split_go_nl.
  apply (split_join " " ""); [done|done|]. by apply dashed_solid.
Qed.

Lemma sub_dashes_dashed a : PyMore.sub_dashes ("--" +:+ a) = a.
Proof. by destruct a. Qed.

(** The words that follow the package on the line of the bundle dialect. *)
Lemma bundle_flags_args w ws :
  Forall (fun w => word w = true) (w :: ws) ->
  line_args (" args: [" +:+
             Py.join ", " (map (fun x => "'" +:+ PyMore.sub_dashes x +:+ "'")
                             (map (String.append "--") (w :: ws)))
             +:+ "]" +:+ Py.nl)
  = "args:" :: w :: ws.
Proof.
  intros H.
  rewrite map_map.
  rewrite (map_ext _ (fun x => "'" +:+ x +:+ "'"))
    by (intros a; by rewrite sub_dashes_dashed).
  change (Py.split (unquote (" args: [" +:+
            Py.join ", " (map (fun x => "'" +:+ x +:+ "'") (w :: ws))
            +:+ "]" +:+ Py.nl)) = "args:" :: w :: ws).
  rewrite !unquote_app, unquote_join, map_map.
  rewrite (map_ext (fun x => unquote ("'" +:+ x +:+ "'")) unquote).
  2:{ intros x. rewrite !unquote_app. change (unquote "'") with "".
      by rewrite str_app_nil_r. }
  rewrite unquote_words by done.
  change (unquote " args: [") with (" " +:+ "args:" +:+ " ").
  change (unquote ", ") with "  ". change (unquote "]") with "".
  change (unquote Py.nl) with Py.nl.
  rewrite !str_app_assoc.
  rewrite (split_spaces " ") by done.
  change ("args:" +:+ " " +:+ Py.join "  " (w :: ws) +:+ "" +:+ Py.nl)
    with ("args:" +:+ String " " (Py.join "  " (w :: ws) +:+ Py.nl)).
  rewrite split_word by done. f_equal.
  unfold Py.split. rewrite split_go_nl.
  apply (split_join " " " "); [done|done|].
  eapply Forall_impl; [exact H|]. intros x. apply word_solid.
Qed.

(** X7. In each of the three dialects, the line that [write] builds for a
    package with options that are flags (words after two dashes) is read as
    this package with these options: the bundle dialect drops the dashes of
    each flag and [read] puts them back. *)
Theorem flags_round_trip (env : Env) (o o' : Opt) (b : BrewInfo) (p : string)
    (ws : list string) :
  package_name p = true -> Forall (fun w => word w = true) ws ->
  exists o'',
    parse_line env (brew_line o p (flags ws)) (o', b)
    = (Done tt, (o'', dict_set brew_input_opt p (flags ws)
                        (append brew_input p b))).
Proof.
  intros Hp Hws.
  assert (H : exists c s,
             convert_option o (flags ws) +:+ Py.nl = String c s
             /\ is_sep c = true
             /\ line_opt ("brew" :: p :: line_args s) = flags ws).
  { destruct ws as [|w ws].
    - exists "010"%char, "". by repeat split.
    - pose proof (dashed_solid _ Hws) as Hsolid.
      unfold convert_option.
      change (Py.is_empty (flags (w :: ws))) with false. simpl negb. simpl andb.
      assert (Esplit : Py.split (flags (w :: ws))
                       = map (String.append "--") (w :: ws)).
      { change (flags (w :: ws))
          with (" " +:+ Py.join " " (map (String.append "--") (w :: ws))).
        rewrite (split_spaces " ") by done. by apply (split_join " " ""). }
      destruct (is_bundle o).
      + rewrite Esplit.
        exists ","%char,
          (" args: [" +:+
           Py.join ", " (map (fun x => "'" +:+ PyMore.sub_dashes x +:+ "'")
                           (map (String.append "--") (w :: ws)))
           +:+ "]" +:+ Py.nl).
        split; [by rewrite !str_app_assoc|]. split; [done|].
        rewrite bundle_flags_args by done.
        unfold line_opt.
        rewrite bool_decide_eq_true_2 by (simpl; lia).
        rewrite bool_decide_eq_true_2 by reflexivity.
        change (drop 3 ("brew" :: p :: "args:" :: w :: ws)) with (w :: ws).
        by rewrite strip_join.
      + eexists " "%char, _. split; [reflexivity|]. split; [done|].
        rewrite plain_flags_args by done.
        unfold line_opt.
        rewrite bool_decide_eq_true_2 by (simpl; lia).
        rewrite bool_decide_eq_false_2 by (simpl; discriminate).
        change (drop 2 ("brew" :: p :: map (String.append "--") (w :: ws)))
          with (map (String.append "--") (w :: ws)).
        by rewrite strip_join. }
  destruct H as (c & s & E & Hc & Hopt).
  destruct (brew_line_final_args o p (flags ws) c s Hp E Hc) as [Ha Hne].
  destruct (parse_line_dispatch env _ o' b Hne) as (o'' & Ep & _).
  exists o''. rewrite Ep, Ha. simpl nth. rewrite Hopt. reflexivity.
Qed.

Lemma flags_round_trip_witness :
  exists o'',
    parse_line quiet_env (brew_line bundle_opt "vim" (flags ["with-lua"; "HEAD"]))
      (bundle_opt, new_BrewInfo "Brewfile")
    = (Done tt, (o'', dict_set brew_input_opt "vim" (flags ["with-lua"; "HEAD"])
                        (append brew_input "vim" (new_BrewInfo "Brewfile")))).
Proof.
  apply (flags_round_trip quiet_env bundle_opt bundle_opt (new_BrewInfo "Brewfile")
           "vim" ["with-lua"; "HEAD"]).
  - reflexivity.
  - by repeat constructor.
Defined.

(** In the bundle dialect an option that is no flag comes back with two
    dashes that it did not have. *)
Lemma bundle_adds_dashes :
  brew_line bundle_opt "vim" " -s" = ln "brew 'vim', args: ['-s']"
  /\ line_opt (final_args (brew_line bundle_opt "vim" " -s")) = " ---s".
Proof. by vm_compute. Qed.

(** ** A dry run of [cleanup] *)

Lemma get_all_empty f n only_ext :
  (forall r, lists (heap f r) n = []) -> get f n only_ext = [].
Proof.
  intros H. unfold get. rewrite H.
  assert (E : concat (map (fun r => lists (heap f r) n) (brewinfo_ext f)) = []).
  { induction (brewinfo_ext f) as [|r l IH]; [done|]. simpl. by rewrite H, IH. }
  rewrite E. by destruct only_ext.
Qed.

(** A step on one document that leaves [appstore_list] empty keeps the
    mode. *)
Lemma dry_modify env P r (g : BrewInfo -> BrewInfo) :
  (forall b, lists b appstore_list = [] -> lists (g b) appstore_list = []) ->
  Run (dry env) P (on_doc r (modify g)).
Proof.
  intros Hg. apply Run_on_doc. intros f [Hd Hs]. split; [exact Hd|].
  destruct Hs as [Hs|[Hm Hs]]; [by left|right]. split; [exact Hm|].
  intros i. simpl. destruct (decide (i = r)) as [->|]; [|apply Hs].
  apply Hg, Hs.
Qed.

Lemma dry_remove env P r n p :
  n <> appstore_list -> Run (dry env) P (on_doc r (remove n p)).
Proof.
  intros Hn. apply Run_on_doc. intros f [Hd Hs]. split; [exact Hd|].
  destruct Hs as [Hs|[Hm Hs]]; [by left|right]. split; [exact Hm|].
  intros i. simpl. destruct (decide (i = r)) as [->|]; [|apply Hs].
  rewrite lists_remove by done. apply Hs.
Qed.

Lemma dry_remove_pack env P n p :
  n <> appstore_list -> Run (dry env) P (remove_pack n p).
Proof.
  intros Hn. unfold remove_pack. apply Run_the_file. intros f _.
  destruct (bool_decide _); [by apply dry_remove|].
  apply Run_for_each. intros r _. apply Run_the_file. intros f' _.
  apply Run_when. by apply dry_remove.
Qed.

Lemma dry_add_dependncies env P depth :
  forall p, Run (dry env) P (add_dependncies env depth p).
Proof.
  induction depth as [|depth IH]; intros p; simpl; [apply Run_raise|].
  destruct (info_of env p); [|apply Run_raise].
  apply Run_for_each. intros pac _. apply Run_the_file. intros f _.
  destruct (_ && _); [|apply Run_ret].
  apply Run_bind; [|intros _; apply IH].
  by apply dry_modify.
Qed.

(** In the mode, a command that [cleanup] decides on is printed. *)
Lemma dry_print env f cmd e :
  dry env f -> Run (dry env) no_command (print_or_proc env (opt f) cmd e).
Proof.
  intros [Hd _]. unfold print_or_proc. rewrite Hd. apply Run_event.
  intros c. discriminate.
Qed.

Lemma no_command_banner t : no_command (BannerLine t).
Proof. intros c. discriminate. Qed.

Lemma no_command_warn t : no_command (WarnLine t).
Proof. intros c. discriminate. Qed.

Lemma dry_get_list env : Run (dry env) no_command (get_list env false).
Proof.
  unfold get_list. apply Run_the_file. intros f Hf.
  apply Run_bind; [by apply dry_modify|]. intros _.
  apply Run_bind.
  { apply Run_when. apply Run_bind; [by apply dry_modify|]. intros _.
    apply Run_for_each. intros x _. apply Run_when. by apply dry_modify. }
  intros _. apply Run_bind; [by apply dry_modify|]. intros _.
  apply Run_bind; [by apply dry_modify|]. intros _.
  apply Run_bind.
  { apply Run_when. apply Run_for_each. intros p _.
    destruct (bool_decide _); [by apply dry_modify|].
    apply Run_bind; [apply Run_event, no_command_warn|]. intros _.
    apply Run_bind; [apply Run_event, no_command_warn|]. intros _.
    by apply dry_modify. }
  intros _. destruct (is_mac env) eqn:Hmac; [|apply Run_ret]. simpl.
  assert (Hset : forall v,
             Run (dry env) no_command
               (on_doc (brewinfo f) (modify (set_val appstore_list v)))).
  { intros v. apply Run_on_doc. intros f0 [Hd Hs]. split; [exact Hd|].
    destruct Hs as [Hs|[Hm _]]; [by left|congruence]. }
  rewrite andb_false_r, orb_false_r.
  destruct (bool_decide (appstore (opt f) = 1)); [apply Hset|].
  apply Run_when. apply Run_the_file. intros f' _. apply Hset.
Qed.

Lemma dry_cleanup_body env depth :
  Run (dry env) no_command (cleanup_body env depth).
Proof.
  unfold cleanup_body.
  apply Run_the_file. intros f1 _.
  apply Run_bind.
  { apply Run_for_each. intros p _.
    destruct (bool_decide _); [apply dry_add_dependncies | apply Run_ret]. }
  intros _. apply Run_the_file. intros f2 [Hd2 Hs2].
  apply Run_bind.
  { assert (E : bool_decide (appstore (opt f2) = 1)
                && nonempty (get f2 appstore_list false) = false).
    { destruct Hs2 as [Hs|[_ Hs]].
      - by rewrite bool_decide_eq_false_2.
      - rewrite (get_all_empty f2 appstore_list false Hs). apply andb_false_r. }
    rewrite E. apply Run_ret. }
  intros _. apply Run_the_file. intros f3 _.
  apply Run_bind.
  { apply Run_when. apply Run_bind; [apply Run_event, no_command_banner|].
    intros _. apply Run_for_each. intros p _. apply Run_the_file. intros f Hf.
    destruct (bool_decide _); [apply Run_ret|].
    apply Run_bind; [by apply dry_print|].
    intros _. by apply dry_remove_pack. }
  intros _. apply Run_the_file. intros f4 _.
  apply Run_bind.
  { apply Run_when. by apply dry_remove_pack. }
  intros _. apply Run_the_file. intros f5 _.
  apply Run_bind.
  { apply Run_when. apply Run_bind; [apply Run_event, no_command_banner|].
    intros _. apply Run_for_each. intros p _. unfold cleanup_pack.
    apply Run_the_file. intros f Hf.
    destruct (bool_decide _); [apply Run_ret|]. by apply dry_print. }
  intros _. apply Run_the_file. intros f6 Hf6.
  apply Run_bind.
  { apply Run_when. apply Run_bind; [apply Run_event, no_command_banner|].
    intros _. apply Run_for_each. intros p _. unfold cleanup_tap.
    apply Run_the_file. intros f Hf.
    destruct (bool_decide _); [apply Run_ret|].
    destruct (tap_in_use env f p); [apply Run_ret|]. by apply dry_print. }
  intros _. apply Run_bind; [apply Run_event, no_command_banner|].
  intros _. apply Run_bind; [by apply dry_print|].
  intros _. apply Run_bind; [by apply dry_print|].
  intros _. apply Run_when, Run_event, no_command_banner.
Qed.

(** X8. A dry run of [cleanup] on which the loop over the store
    applications has nothing to do (the App Store is not handled at
    level 1, or the machine is no Mac and no document holds a discovered
    store application) gives no command to [proc]: whatever is installed
    and declared, and however the run ends, every removal it decides on is
    printed, not run, and the mode stays set. *)
Theorem cleanup_dry_run_runs_no_removal (env : Env) (depth : nat)
    (f : BrewFile) (log : list Event) :
  dryrun (opt f) = true ->
  appstore (opt f) <> 1
  \/ (is_mac env = false /\ forall r, lists (heap f r) appstore_list = []) ->
  dryrun (opt (cleanup env depth (f, log)).2.1) = true
  /\ exists E, (cleanup env depth (f, log)).2.2 = log ++ E
               /\ Forall (fun e => forall c, e <> Proc c) E.
Proof.
  intros Hf Hs.
  assert (H : Run (dry env) no_command (cleanup env depth)).
  { unfold cleanup. apply Run_the_file. intros f0 _.
    apply Run_bind; [apply Run_when, Run_event, no_command_banner|].
    intros _. apply Run_bind; [apply dry_get_list|].
    intros _. apply dry_cleanup_body. }
  destruct (H (f, log) (conj Hf Hs)) as ([Hd _] & E & HE & HP).
  split; [exact Hd|]. by exists E.
Qed.

(** The default options on a machine that is no Mac: the package [p] and
    its tap are to go, and both removals are printed. *)
Lemma cleanup_dry_run_witness :
  dryrun (opt (cleanup mutual_dependency 3
                 (graph_of default_opt (ln "# nothing"), [])).2.1) = true
  /\ exists E, (cleanup mutual_dependency 3
                  (graph_of default_opt (ln "# nothing"), [])).2.2 = [] ++ E
               /\ Forall (fun e => forall c, e <> Proc c) E.
Proof.
  apply (cleanup_dry_run_runs_no_removal mutual_dependency 3
           (graph_of default_opt (ln "# nothing")) []).
  - reflexivity.
  - right. split; [reflexivity|]. intros r. reflexivity.
Defined.

Lemma cleanup_dry_run_prints_the_removals :
  (cleanup mutual_dependency 3
     (graph_of default_opt (ln "# nothing"), [])).2.2
  = [BannerLine "# This is dry run.";
     BannerLine "# Clean up brew packages";
     PrintLine "brew uninstall --ignore-dependencies a";
     PrintLine "brew uninstall --ignore-dependencies b";
     BannerLine "# Clean up tap packages";
     BannerLine "# Clean up cache";
     PrintLine "brew cleanup";
     PrintLine "rm -rf /cache";
     BannerLine "# This is dry run."].
Proof. by vm_compute. Qed.

(** ** [remove_pack] *)

Lemma shrinks_refl n f : shrinks n f f.
Proof. split; [apply same_graph_refl|]. by repeat split. Qed.

Lemma shrinks_trans n f1 f2 f3 : shrinks n f1 f2 -> shrinks n f2 f3 -> shrinks n f1 f3.
Proof.
  intros (G1 & L1 & D1 & S1) (G2 & L2 & D2 & S2).
  split; [by eapply same_graph_trans|]. split; [|split].
  - intros i m Hm. by rewrite L2, L1.
  - intros i. by rewrite D2, D1.
  - intros i x Hx. by apply S1, S2.
Qed.

Lemma list_remove_elem p l l' x :
  Py.list_remove p l = Some l' -> x ∈ l' -> x ∈ l.
Proof.
  revert l'. induction l as [|y l IH]; intros l' H Hx; [done|].
  simpl in H. destruct (decide (p = y)) as [->|Hne].
  - injection H as <-. by apply list_elem_of_further.
  - destruct (Py.list_remove p l) as [k|] eqn:E; [|done].
    injection H as <-. apply elem_of_cons in Hx as [->|Hx].
    + apply list_elem_of_here.
    + apply list_elem_of_further. by apply (IH k).
Qed.

Lemma list_remove_some p l : p ∈ l -> is_Some (Py.list_remove p l).
Proof.
  induction l as [|y l IH]; intros H; [by apply elem_of_nil in H|].
  simpl. destruct (decide (p = y)); [by eexists|].
  apply elem_of_cons in H as [?|H]; [done|].
  destruct (IH H) as [k ->]. by eexists.
Qed.

Lemma on_doc_remove r n p f log l' :
  Py.list_remove p (lists (heap f r) n) = Some l' ->
  on_doc r (remove n p) (f, log)
  = (Done tt, (store r (set_list n l' (heap f r)) f, log)).
Proof. intros E. unfold on_doc, remove. simpl. by rewrite E. Qed.

Lemma shrinks_store r n p f l' :
  Py.list_remove p (lists (heap f r) n) = Some l' ->
  shrinks n f (store r (set_list n l' (heap f r)) f).
Proof.
  intros E. split; [by repeat split|split; [|split]].
  - intros i m Hm. simpl. destruct (decide (i = r)) as [->|]; [|done].
    simpl. by destruct (decide (m = n)).
  - intros i. simpl. by destruct (decide (i = r)) as [->|].
  - intros i x. simpl. destruct (decide (i = r)) as [->|]; [|done].
    simpl. destruct (decide (n = n)); [|done]. intros Hx.
    by eapply list_remove_elem.
Qed.

(** The removal from one document, made under its guard. *)
Lemma guarded_remove r n p w :
  exists f',
    (f ← the_file;
     when (bool_decide (p ∈ lists (heap f r) n)) (on_doc r (remove n p))) w
    = (Done tt, (f', w.2))
    /\ shrinks n w.1 f'
    /\ (p ∉ lists (heap w.1 r) n -> f' = w.1).
Proof.
  destruct w as [f log]. rewrite the_file_bind. simpl fst.
  case_bool_decide as Hp.
  - destruct (list_remove_some p _ Hp) as [l' E].
    exists (store r (set_list n l' (heap f r)) f).
    split; [by apply on_doc_remove|]. split; [by eapply shrinks_store|done].
  - exists f. split; [done|]. split; [apply shrinks_refl|done].
Qed.

Lemma guarded_removes n p : forall l w,
  exists f',
    for_each l
      (fun r =>
         f ← the_file;
         when (bool_decide (p ∈ lists (heap f r) n)) (on_doc r (remove n p))) w
    = (Done tt, (f', w.2))
    /\ shrinks n w.1 f'
    /\ ((forall i, p ∉ lists (heap w.1 i) n) -> f' = w.1).
Proof.
  induction l as [|r l IH]; intros w.
  - exists w.1. destruct w. split; [done|]. split; [apply shrinks_refl|done].
  - destruct (guarded_remove r n p w) as (f1 & E1 & S1 & N1).
    destruct (IH (f1, w.2)) as (f2 & E2 & S2 & N2).
    exists f2. split; [|split].
    + simpl for_each. by rewrite (bind_done _ _ _ _ _ E1).
    + by eapply shrinks_trans.
    + intros Hno. rewrite N2; simpl; rewrite N1; done.
Qed.

(** X9. [remove_pack] never raises: it returns, prints nothing, keeps the
    references, the options and the dictionaries, changes no list but the
    one it is given, and that list only loses entries. When the main
    document holds the package, its first occurrence there goes and the
    other documents stay as they are; when no document holds it, nothing
    changes. *)
Theorem remove_pack_never_raises (n : lname) (p : string) (w : World) :
  exists f',
    remove_pack n p w = (Done tt, (f', w.2))
    /\ shrinks n w.1 f'
    /\ (p ∈ lists (heap w.1 (brewinfo_main w.1)) n ->
        Py.list_remove p (lists (heap w.1 (brewinfo_main w.1)) n)
        = Some (lists (heap f' (brewinfo_main w.1)) n)
        /\ forall i, i <> brewinfo_main w.1 -> heap f' i = heap w.1 i)
    /\ ((forall i, p ∉ lists (heap w.1 i) n) ->
        forall i m, lists (heap f' i) m = lists (heap w.1 i) m).
Proof.
  destruct w as [f log]. unfold remove_pack. rewrite the_file_bind. simpl fst.
  case_bool_decide as Hp.
  - destruct (list_remove_some p _ Hp) as [l' E]. simpl fst in E.
    exists (store (brewinfo_main f) (set_list n l' (heap f (brewinfo_main f))) f).
    split; [by apply on_doc_remove|]. split; [by eapply shrinks_store|].
    split.
    + intros _. simpl. rewrite E.
      destruct (decide (brewinfo_main f = brewinfo_main f)); [|done].
      simpl. destruct (decide (n = n)); [|done]. split; [done|].
      intros i Hi. by destruct (decide (i = brewinfo_main f)).
    + intros Hno. by destruct (Hno (brewinfo_main f)).
  - destruct (guarded_removes n p (brewinfo_ext f) (f, log)) as (f' & E & S & N).
    exists f'. split; [exact E|]. split; [done|]. split; [done|].
    intros Hno i m. by rewrite N.
Qed.

Lemma remove_pack_witness :
  exists f',
    remove_pack brew_list "x" (both_hold, []) = (Done tt, (f', []))
    /\ shrinks brew_list both_hold f'
    /\ (Py.list_remove "x" ["y"; "x"; "x"]
        = Some (lists (heap f' 0%nat) brew_list)
        /\ forall i, i <> 0%nat -> heap f' i = heap both_hold i).
Proof.
  destruct (remove_pack_never_raises brew_list "x" (both_hold, []))
    as (f' & E & S & H & _).
  exists f'. split; [exact E|]. split; [exact S|].
  apply H. vm_compute. set_solver.
Defined.

(** ** A file that includes itself *)

Lemma filename_append n x b : filename (append n x b) = filename b.
Proof. reflexivity. Qed.

Lemma filename_read_tapall env p b : filename (read_tapall env p b) = filename b.
Proof.
  unfold read_tapall.
  assert (H1 : forall l b0, filename
            (foldl (fun b tp => dict_set brew_input_opt tp "" (append brew_input tp b)) b0 l)
            = filename b0).
  { induction l as [|x l IH]; intros b0; simpl; [done|]. by rewrite IH. }
  assert (H2 : forall l b0,
            filename (foldl (fun b tp => append cask_input tp b) b0 l) = filename b0).
  { induction l as [|x l IH]; intros b0; simpl; [done|]. by rewrite IH. }
  by rewrite H2, H1.
Qed.

Lemma filename_read_lines env lines ig :
  Stable (fun s s' => filename s'.2 = filename s.2) (read_lines env ig lines).
Proof.
  apply Stable_read_lines; try done.
  - intros s1 s2 s3 H1 H2. by rewrite H2.
  - intros p s. apply filename_read_tapall.
Qed.

(** [read] keeps the name of the file. *)
Lemma filename_read env file s : filename (read env file s).2.2 = filename s.2.
Proof.
  destruct file as [content|]; [|done]. rewrite read_some.
  set (s0 := (s.1, append tap_input "direct" (clear_input s.2))).
  pose proof (filename_read_lines env (Py.readlines content) false s0) as H.
  simpl in H.
  destruct (read_lines env false (Py.readlines content) s0) as [[u|e|c] s1] eqn:E.
  - by rewrite (bind_done _ _ _ _ _ E).
  - by rewrite (bind_raised _ _ _ _ _ E).
  - by rewrite (bind_exited _ _ _ _ _ E).
Qed.

Lemma fails_bind {S A B} (m : M S A) (k : A -> M S B) s :
  fails (m s) -> fails ((m ≫= k) s).
Proof.
  unfold fails, mbind, M_bind, bind. by destruct (m s) as [[a|e|c] s'].
Qed.

(** What [read_doc] leaves in the document. *)
Lemma read_doc_spec env fs r f content :
  fs (filename (heap f r)) = Some content ->
  fails (read_doc env fs r f)
  \/ exists f',
       read_doc env fs r f = (Done tt, f')
       /\ lists (heap f' r) file_input = includes_of env content
       /\ filename (heap f' r) = filename (heap f r).
Proof.
  intros Hfs. unfold read_doc, fails. rewrite Hfs. simpl.
  destruct (read_from_file env content (opt f, heap f r)
              (default_opt, new_BrewInfo "")) as [_ Hsame].
  pose proof (filename_read env (Some content) (opt f, heap f r)) as Hname.
  destruct (read env (Some content) (opt f, heap f r)) as [[a|e|c] [o' b']];
    [right|by left|by left].
  eexists. split; [reflexivity|]. simpl in *.
  destruct (decide (r = r)); [|done]. split; [|done].
  apply Hsame. unfold input_names. repeat constructor.
Qed.

Lemma read_includes_fails env rec files_main name path :
  (forall b next f, filename (heap f b) = path -> fails (rec b next f)) ->
  forall l main f,
    (exists x, x ∈ l /\ include_path env name x = path) ->
    fails (read_includes env rec files_main name main l f).
Proof.
  intros Hrec. induction l as [|x0 l IH]; intros main f (x & Hx & Hp).
  - by apply elem_of_nil in Hx.
  - simpl read_includes.
    change ((get_state ≫= _) f) with
      ((rec (new_ref f)
          (bool_decide (is_Some main) && bool_decide (x0 ∈ files_main))
        ≫= fun main_tmp =>
             read_includes env rec files_main name
               match main_tmp with
               | Some m => Some m
               | None =>
                   if bool_decide (is_Some main) && bool_decide (x0 ∈ files_main)
                   then Some (new_ref f) else main
               end l)
         (new_ext (new_ref f) (include_path env name x0) f)).
    apply elem_of_cons in Hx as [->|Hx].
    + apply fails_bind, Hrec. simpl.
      destruct (decide (new_ref f = new_ref f)); [|done]. done.
    + unfold mbind, M_bind, bind.
      destruct (rec _ _ _) as [[a|e|c] f'] eqn:E; [|done|done].
      apply IH. by exists x.
Qed.

(** X10. [BrewFile.read] keeps no record of the files it has entered: when
    a file holds an entry of [file_input] that names the file itself, the
    method does not return at any depth of recursion, whatever else the
    file and the files it includes hold. *)
Theorem self_include_never_returns (env : Env) (fs : string -> option string)
    (content path : string) (depth : nat) (r : nat) (is_main : bool)
    (f : BrewFile) :
  fs path = Some content ->
  (exists x, x ∈ includes_of env content /\ include_path env path x = path) ->
  filename (heap f r) = path ->
  fails (graph_read env fs depth r is_main f).
Proof.
  intros Hfs Hself. revert r is_main f.
  induction depth as [|d IH]; intros r is_main f Hname; [done|].
  simpl graph_read. rewrite <- Hname in Hfs.
  destruct (read_doc_spec env fs r f content Hfs) as [H|(f' & E & Hl & Hn)];
    [by apply fails_bind|].
  rewrite (bind_done _ _ _ _ _ E).
  change ((get_state ≫= _) f') with
    (read_includes env (graph_read env fs d)
       (lists (heap f' r) main_input) (filename (heap f' r))
       (if is_main then Some r else None) (lists (heap f' r) file_input) f').
  rewrite Hl, Hn, Hname.
  apply (read_includes_fails env _ _ path path); [|done].
  intros b next f0 H0. by apply IH.
Qed.

Lemma self_include_witness :
  fails (graph_read quiet_env one_file 1000 0 true unread).
Proof.
  apply (self_include_never_returns quiet_env one_file
           (ln "brew git" +:+ ln "file /b/Brewfile") "/b/Brewfile").
  - reflexivity.
  - exists "/b/Brewfile". split; [vm_compute; apply list_elem_of_here|reflexivity].
  - reflexivity.
Defined.

(** The same run at a depth that can be computed: [RecursionError]. *)
Lemma self_include_raises :
  (graph_read quiet_env one_file 20 0 true unread).1 = Raised RecursionError.
Proof. vm_compute. reflexivity. Qed.

(** ** The dependencies that [cleanup] declares *)

Lemma elem_of_get f n x :
  x ∈ get f n false
  <-> exists r, (r = brewinfo_main f \/ r ∈ brewinfo_ext f)
                /\ x ∈ lists (heap f r) n.
Proof.
  unfold get. rewrite elem_of_app. split.
  - intros [H|H]; [eauto|].
    apply list_elem_of_In, in_concat in H as (l & Hl & Hx).
    apply in_map_iff in Hl as (r & <- & Hr).
    exists r. split; [right; by apply list_elem_of_In|by apply list_elem_of_In].
  - intros (r & [->|Hr] & Hx); [by left|right].
    apply list_elem_of_In, in_concat. exists (lists (heap f r) n).
    split; [apply in_map_iff; exists r; split; [done|by apply list_elem_of_In]|].
    by apply list_elem_of_In.
Qed.

(** What the graph declares once the root document has declared [p]. *)
Lemma get_declare f p x :
  rooted f ->
  x ∈ get (store (brewinfo f)
             (dict_set brew_input_opt p ""
                (append brew_input p (heap f (brewinfo f)))) f)
        brew_input false
  <-> x ∈ get f brew_input false \/ x = p.
Proof.
  intros Hr. rewrite !elem_of_get. simpl. split.
  - intros (r & Hin & Hx). destruct (decide (r = brewinfo f)) as [->|Hne].
    + simpl in Hx. apply elem_of_app in Hx as [Hx|Hx].
      * left. exists (brewinfo f). split; [|done].
        destruct Hin as [Hin|Hin]; [by left|by right].
      * right. by apply list_elem_of_singleton in Hx.
    + left. by exists r.
  - intros [(r & Hin & Hx)| ->].
    + exists r. split; [done|]. destruct (decide (r = brewinfo f)) as [->|];
        [|done]. simpl. apply elem_of_app. by left.
    + exists (brewinfo f). split.
      * destruct Hr as [Hr|Hr]; [by left|by right].
      * rewrite decide_True by done. simpl. apply elem_of_app. right.
        apply list_elem_of_here.
Qed.

Lemma installed_elem env q :
  is_Some (info_of env q) -> q ∈ (get_info env).*1.
Proof.
  unfold info_of. intros [i Hi].
  destruct (List.find _ (get_info env)) as [x|] eqn:E; [|done].
  apply find_some in E as [Hin Hx]. apply bool_decide_eq_true in Hx as <-.
  apply list_elem_of_fmap. exists x. split; [done|by apply list_elem_of_In].
Qed.

Lemma filter_length_le (P Q : string -> Prop)
    `{!forall x, Decision (P x)} `{!forall x, Decision (Q x)} l :
  (forall x, P x -> Q x) -> (length (filter P l) <= length (filter Q l))%nat.
Proof.
  intros HPQ. induction l as [|a l IH]; [done|].
  rewrite !filter_cons. destruct (decide (P a)) as [Hp|Hp].
  - rewrite decide_True by auto. simpl. lia.
  - destruct (decide (Q a)); simpl; lia.
Qed.

Lemma filter_length_lt (P Q : string -> Prop)
    `{!forall x, Decision (P x)} `{!forall x, Decision (Q x)} l q :
  (forall x, P x -> Q x) -> q ∈ l -> Q q -> ~ P q ->
  (length (filter P l) < length (filter Q l))%nat.
Proof.
  intros HPQ Hq HQ HP. induction l as [|a l IH]; [by apply elem_of_nil in Hq|].
  rewrite !filter_cons. apply elem_of_cons in Hq as [<-|Hq].
  - rewrite (decide_False (P:=P q)) by done.
    rewrite (decide_True (P:=Q q)) by done. simpl.
    pose proof (filter_length_le P Q l HPQ). lia.
  - specialize (IH Hq). destruct (decide (P a)) as [Hp|Hp].
    + rewrite decide_True by auto. simpl. lia.
    + destruct (decide (Q a)); simpl; lia.
Qed.

Lemma undeclared_le env f f' :
  get f brew_input false ⊆ get f' brew_input false ->
  (undeclared env f' <= undeclared env f)%nat.
Proof.
  intros H. apply filter_length_le. intros x Hx Hin. by apply Hx, H.
Qed.

Lemma undeclared_lt env f f' q :
  get f brew_input false ⊆ get f' brew_input false ->
  is_Some (info_of env q) ->
  q ∉ get f brew_input false -> q ∈ get f' brew_input false ->
  (undeclared env f' < undeclared env f)%nat.
Proof.
  intros H Hi Hq Hq'. apply (filter_length_lt _ _ _ q).
  - intros x Hx Hin. by apply Hx, H.
  - by apply installed_elem.
  - done.
  - intros Hn. by apply Hn.
Qed.

Lemma undeclared_bound env f : (undeclared env f <= length (get_info env))%nat.
Proof.
  unfold undeclared. etrans; [apply length_filter|]. by rewrite length_fmap.
Qed.

Lemma declares_refl env w : rooted w.1 -> declares env w w.
Proof. intros H. repeat split; [done | done | by left]. Qed.

Lemma declares_trans env w1 w2 w3 :
  declares env w1 w2 -> declares env w2 w3 -> declares env w1 w3.
Proof.
  intros (E1 & R1 & S1 & C1) (E2 & R2 & S2 & C2).
  split; [congruence|]. split; [done|]. split; [by etrans|].
  intros x Hx. destruct (C2 x Hx) as [H|H]; [|by right].
  destruct (C1 x H) as [H'|H']; [by left|right].
  intros d Hd. by apply S2, H'.
Qed.

(** A loop whose steps declare, and each of which reaches a property that
    declaring keeps. *)
Lemma for_each_declares env N (Q : string -> World -> Prop)
    (body : string -> M World unit) l :
  (forall x w w', Q x w -> declares env w w' -> Q x w') ->
  (forall x w, x ∈ l -> rooted w.1 -> (undeclared env w.1 < N)%nat ->
     exists w', body x w = (Done tt, w') /\ declares env w w' /\ Q x w') ->
  forall w, rooted w.1 -> (undeclared env w.1 < N)%nat ->
    exists w', for_each l body w = (Done tt, w') /\ declares env w w'
               /\ forall x, x ∈ l -> Q x w'.
Proof.
  intros Hmono. induction l as [|a l IH]; intros Hbody w Hr Hn.
  - exists w. split; [done|]. split; [by apply declares_refl|].
    intros x Hx. by apply elem_of_nil in Hx.
  - destruct (Hbody a w) as (w1 & E1 & D1 & Q1); [left | done | done |].
    pose proof D1 as (_ & R1 & S1 & _).
    destruct (IH (fun x w Hx => Hbody x w (list_elem_of_further _ _ _ Hx)) w1)
      as (w2 & E2 & D2 & Q2); [done | |].
    { pose proof (undeclared_le env _ _ S1). lia. }
    exists w2. split; [|split].
    + simpl. by rewrite (bind_done _ _ _ _ _ E1).
    + by apply (declares_trans env w w1 w2).
    + intros x Hx. apply elem_of_cons in Hx as [->|Hx]; [|by apply Q2].
      by apply (Hmono a w1 w2).
Qed.

(** [add_dependncies] returns when the depth of recursion is more than the
    number of installed packages that are not declared, and then the
    installed dependencies of [p] are declared. *)
Lemma add_dependncies_declares env depth :
  forall p w,
    is_Some (info_of env p) -> rooted w.1 ->
    (undeclared env w.1 < depth)%nat ->
    exists w',
      add_dependncies env depth p w = (Done tt, w') /\ declares env w w'
      /\ forall d, depends env p d -> d ∈ get w'.1 brew_input false.
Proof.
  induction depth as [|depth IH]; intros p w [i Hi] Hr Hn; [lia|].
  simpl add_dependncies. rewrite Hi.
  destruct (for_each_declares env (S depth)
              (fun pac w' =>
                 is_Some (info_of env (PyMore.after_last "/" pac)) ->
                 PyMore.after_last "/" pac ∈ get w'.1 brew_input false)
              (fun pac =>
                 let p := PyMore.after_last "/" pac in
                 f ← the_file;
                 if bool_decide (is_Some (info_of env p))
                    && bool_decide (p ∉ get f brew_input false)
                 then
                   on_doc (brewinfo f)
                     (modify (fun b => dict_set brew_input_opt p ""
                                         (append brew_input p b)));;
                   add_dependncies env depth p
                 else mret tt)
              (dependencies i)) with (w := w) as (w' & E & D & Q);
    [| |done|done|].
  - intros x w1 w2 H (_ & _ & S12 & _) Hx. by apply S12, H.
  - intros pac [f ev] _ Hrf Hnf. cbv zeta. rewrite the_file_bind.
    simpl in Hrf, Hnf. simpl fst.
    set (q := PyMore.after_last "/" pac).
    destruct (bool_decide (is_Some (info_of env q))) eqn:Eq; simpl andb.
    2:{ exists (f, ev). split; [done|]. split; [by apply declares_refl|].
        intros Hq. by apply bool_decide_eq_false in Eq. }
    apply bool_decide_eq_true in Eq.
    case_bool_decide as Hin; simpl.
    2:{ exists (f, ev). split; [done|]. split; [by apply declares_refl|].
        intros _. exact Hin. }
    set (f1 := store (brewinfo f)
                 (dict_set brew_input_opt q ""
                    (append brew_input q (heap f (brewinfo f)))) f).
    assert (H1 : forall x, x ∈ get f1 brew_input false
                           <-> x ∈ get f brew_input false \/ x = q)
      by (intros x; by apply get_declare).
    assert (S1 : get f brew_input false ⊆ get f1 brew_input false)
      by (intros x Hx; apply H1; by left).
    destruct (IH q (f1, ev)) as (w2 & E2 & (Ev2 & R2 & S2 & C2) & Q2);
      [done | done | |].
    { simpl. assert (undeclared env f1 < undeclared env f)%nat; [|lia].
      apply (undeclared_lt env f f1 q); [done | done | done |].
      apply H1. by right. }
    exists w2. split; [exact E2|]. split.
    + split; [done|]. split; [done|]. split; [by etrans|].
      intros x Hx. destruct (C2 x Hx) as [H|H]; [|by right].
      apply H1 in H as [H| ->]; [by left|by right].
    + intros _. apply S2, H1. by right.
  - exists w'. split; [exact E|]. split; [exact D|].
    intros d (i' & pac & Hi' & Hpac & -> & Hd).
    assert (i' = i) as -> by congruence. by apply Q.
Qed.

Lemma bind_assoc {S A B C} (m : M S A) (k : A -> M S B) (h : B -> M S C) s :
  ((m ≫= k) ≫= h) s = (m ≫= fun a => k a ≫= h) s.
Proof. unfold mbind, M_bind, bind. by destruct (m s) as [[a|e|c] s']. Qed.

(** The loop is the first step of [cleanup_body]. *)
Lemma cleanup_body_declares_first env depth :
  exists rest : unit -> M World unit,
    forall w, cleanup_body env depth w
              = (declare_dependencies env depth ≫= rest) w.
Proof.
  unfold cleanup_body, declare_dependencies. eexists. intros w.
  rewrite bind_assoc, !the_file_bind. reflexivity.
Qed.

(** X11. The first loop of [cleanup], run on a graph that holds its root
    document with a depth of recursion above the number of installed
    packages, returns without an event, and what the documents declared
    stays declared together with every installed package that a declared
    package needs, directly or through other installed packages; the
    package loop of [cleanup] then leaves each of them alone. *)
Theorem cleanup_keeps_what_declared_packages_need
    (env : Env) (depth : nat) (w : World) :
  rooted w.1 ->
  (length (get_info env) < depth)%nat ->
  exists f',
    declare_dependencies env depth w = (Done tt, (f', w.2))
    /\ forall p q,
         p ∈ get w.1 brew_input false -> needs env p q ->
         q ∈ get f' brew_input false
         /\ cleanup_pack env q (f', w.2) = (Done tt, (f', w.2)).
Proof.
  intros Hr Hd. unfold declare_dependencies. rewrite the_file_bind.
  pose proof (undeclared_bound env w.1) as Hb.
  destruct (for_each_declares env depth
              (fun p w' => forall d, depends env p d ->
                                     d ∈ get w'.1 brew_input false)
              (fun p => if bool_decide (is_Some (info_of env p))
                        then add_dependncies env depth p else mret tt)
              (get w.1 brew_input false)) with (w := w)
    as ([f' ev'] & E & (Ev & R & S & C) & Q); [| |done|lia|].
  - intros x w1 w2 H (_ & _ & S12 & _) d Hx. by apply S12, H.
  - intros p w0 _ Hr0 Hn0. case_bool_decide as Hp.
    + by apply add_dependncies_declares.
    + exists w0. split; [done|]. split; [by apply declares_refl|].
      intros d (i & _ & Hi & _). destruct Hp. by exists i.
  - simpl in Ev, R, S, C, Q. subst ev'. exists f'. split; [exact E|].
    assert (Hclosed : forall x d, x ∈ get f' brew_input false ->
                        depends env x d -> d ∈ get f' brew_input false).
    { intros x d Hx Hxd. destruct (C x Hx) as [H|H]; [by apply (Q x)|by apply H]. }
    intros p q Hp Hpq.
    assert (Hq : q ∈ get f' brew_input false).
    { apply S in Hp. clear -Hp Hpq Hclosed.
      induction Hpq as [|x y z Hxy _ IH]; [done|]. apply IH.
      by apply (Hclosed x). }
    split; [done|]. unfold cleanup_pack. rewrite the_file_bind. simpl fst.
    by rewrite bool_decide_eq_true_2.
Qed.

Lemma cleanup_keeps_witness :
  exists f',
    declare_dependencies mutual_dependency 3
      (graph_of default_opt (ln "brew a"), [])
    = (Done tt, (f', []))
    /\ forall p q,
         p ∈ get (graph_of default_opt (ln "brew a")) brew_input false ->
         needs mutual_dependency p q ->
         q ∈ get f' brew_input false
         /\ cleanup_pack mutual_dependency q (f', []) = (Done tt, (f', [])).
Proof.
  apply (cleanup_keeps_what_declared_packages_need mutual_dependency 3
           (graph_of default_opt (ln "brew a"), [])).
  - left. reflexivity.
  - simpl. lia.
Defined.

(** On this machine the manifest declares [a]; the loop declares [b], and
    a dry run removes nothing. *)
Lemma cleanup_keeps_the_dependency :
  get (declare_dependencies mutual_dependency 3
         (graph_of default_opt (ln "brew a"), [])).2.1 brew_input false
  = ["a"; "b"]
  /\ (cleanup mutual_dependency 3
        (graph_of default_opt (ln "brew a"), [])).2.2
     = [BannerLine "# This is dry run.";
        BannerLine "# Clean up brew packages";
        BannerLine "# Clean up tap packages";
        BannerLine "# Clean up cache";
        PrintLine "brew cleanup";
        PrintLine "rm -rf /cache";
        BannerLine "# This is dry run."].
Proof. split; by vm_compute. Qed.

(** ** The store applications that [cleanup] keeps *)

Lemma app_of_cleanup_done p :
  nonblank p ->
  exists n, app_of_cleanup p = Done (default "" (identifier_of p), n).
Proof.
  unfold nonblank, app_of_cleanup, identifier_of.
  destruct (Py.split p) as [|t ws]; [done|]. intros _.
  destruct (Py.isdigit t); simpl; eauto.
Qed.

Lemma identifier_not_empty p t : identifier_of p = Some t -> t <> "".
Proof.
  unfold identifier_of. destruct (Py.split p) as [|t' ws]; [done|].
  destruct (Py.isdigit t') eqn:E; [|done]. intros [= <-] ->. done.
Qed.

(** The search of [cleanup] finds an entry with the identifier or with the
    name it looks for, when no entry is blank. *)
Lemma app_in_input_found i n l entry i' n' :
  Forall nonblank l -> entry ∈ l ->
  app_of_cleanup entry = Done (i', n') ->
  (i <> "" /\ i = i') \/ n = n' ->
  app_in_input i n l = Done true.
Proof.
  intros Hl Hin He Hm. induction Hl as [|x l Hx Hl IH];
    [by apply elem_of_nil in Hin|].
  simpl. destruct (app_of_cleanup_done x Hx) as [nx Ex]. rewrite Ex.
  destruct (_ || _) eqn:Ec; [done|].
  apply elem_of_cons in Hin as [->|Hin]; [|by apply IH].
  rewrite Ex in He. injection He as Hi Hn. rewrite Hi, Hn in Ec.
  apply orb_false_iff in Ec as [E1 E2].
  destruct Hm as [[Hne ->]| ->].
  - rewrite bool_decide_eq_true_2 in E1 by done.
    destruct i'; [done|discriminate E1].
  - by rewrite bool_decide_eq_true_2 in E2.
Qed.

(** X12. [cleanup] keeps an installed store application when an entry of
    [appstore_input] is the same text or has the same number as its first
    word, whatever names and versions follow the number, provided that no
    declared entry is blank: nothing is run, printed or changed. *)
Theorem cleanup_keeps_declared_application
    (env : Env) (p entry : string) (w : World) :
  Forall nonblank (get w.1 appstore_input false) ->
  nonblank p ->
  entry ∈ get w.1 appstore_input false ->
  entry = p
  \/ (is_Some (identifier_of p) /\ identifier_of entry = identifier_of p) ->
  cleanup_app env p w = (Done tt, w).
Proof.
  intros Hl Hp Hin Hm. unfold cleanup_app. rewrite the_file_bind.
  destruct (app_of_cleanup_done p Hp) as [n En]. rewrite En.
  assert (Hentry : nonblank entry).
  { rewrite Forall_forall in Hl. by apply Hl. }
  destruct (app_of_cleanup_done entry Hentry) as [n' En'].
  assert (Hf : app_in_input (default "" (identifier_of p)) n
                 (get w.1 appstore_input false) = Done true).
  { apply (app_in_input_found _ _ _ entry _ n' Hl Hin En').
    destruct Hm as [->|[[t Ht] Heq]].
    - right. rewrite En in En'. by injection En'.
    - left. rewrite Heq, Ht. split; [|done]. simpl.
      by apply (identifier_not_empty p). }
  unfold lift_outcome, mbind, M_bind, bind. simpl. by rewrite Hf.
Qed.

Lemma cleanup_keeps_application_witness :
  cleanup_app quiet_env "123 Foo (2.1)"
    (graph_of default_opt (ln "appstore 123 Bar"), [])
  = (Done tt, (graph_of default_opt (ln "appstore 123 Bar"), [])).
Proof.
  apply (cleanup_keeps_declared_application quiet_env "123 Foo (2.1)" "123 Bar").
  - vm_compute. repeat constructor. discriminate.
  - vm_compute. discriminate.
  - vm_compute. apply list_elem_of_here.
  - right. split; [vm_compute; eauto|reflexivity].
Defined.

(** A blank entry of [appstore_input] that the search reaches ends
    [cleanup] with [IndexError]. *)
Lemma cleanup_app_blank_entry env p w rest :
  nonblank p ->
  get w.1 appstore_input false = "" :: rest ->
  cleanup_app env p w = (Raised IndexError, w).
Proof.
  intros Hp Hl. unfold cleanup_app. rewrite the_file_bind.
  destruct (app_of_cleanup_done p Hp) as [n En]. rewrite En, Hl.
  reflexivity.
Qed.

(** ** Raw commands, read and written *)

Lemma bind_done_inv {S A B} (m : M S A) (k : A -> M S B) s b s' :
  (m ≫= k) s = (Done b, s') ->
  exists a s1, m s = (Done a, s1) /\ k a s1 = (Done b, s').
Proof.
  unfold mbind, M_bind, bind. destruct (m s) as [[a|e|c] s1]; [eauto|done|done].
Qed.

Lemma Adds_ret {A} (a : A) : Adds (mret a : M WS A).
Proof.
  intros s a' s' [= <- <-]. split; [|done]. exists "". by rewrite str_app_nil_r.
Qed.

Lemma Adds_raise {A} e : Adds (raise e : M WS A).
Proof. intros s a s' H. discriminate H. Qed.

Lemma Adds_bind {A B} (m : M WS A) (k : A -> M WS B) :
  Adds m -> (forall a, Adds (k a)) -> Adds (m ≫= k).
Proof.
  intros Hm Hk s b s' H.
  apply bind_done_inv in H as (a & s1 & E1 & E2).
  destruct (Hm _ _ _ E1) as ([t1 H1] & H2 & H3).
  destruct (Hk a _ _ _ E2) as ([t2 H4] & H5 & H6).
  split; [|split; congruence].
  exists (t1 +:+ t2). by rewrite H4, H1, str_app_assoc.
Qed.

Lemma Adds_emit t : Adds (emit t).
Proof. intros s a s' [= <- <-]. split; [by exists t|done]. Qed.

Lemma Adds_get_state : Adds (get_state : M WS WS).
Proof. intros s a s' [= <- <-]. split; [|done]. exists "". by rewrite str_app_nil_r. Qed.

Lemma Adds_when c (m : M WS unit) : Adds m -> Adds (when c m).
Proof. intros H. destruct c; [exact H | apply Adds_ret]. Qed.

Lemma Adds_lift_info {A} (m : M BrewInfo A) :
  (forall b a b', m b = (Done a, b') ->
     lists b' cmd_input = lists b cmd_input
     /\ lists b' after_input = lists b after_input) ->
  Adds (lift_info m).
Proof.
  intros H [out b] a s'. unfold lift_info. simpl.
  destruct (m b) as [r b'] eqn:E. simpl. intros [= -> <-]. simpl.
  split; [|by apply (H b a)]. exists "". by rewrite str_app_nil_r.
Qed.

Lemma Adds_upd_info (g : BrewInfo -> BrewInfo) :
  (forall b, lists (g b) = lists b) -> Adds (upd_info g).
Proof.
  intros H s a s' [= <- <-]. simpl. rewrite H.
  split; [|done]. exists "". by rewrite str_app_nil_r.
Qed.

Lemma Adds_list_opt_of p : Adds (list_opt_of p).
Proof.
  intros s a s'. unfold list_opt_of.
  destruct (dicts s.2 brew_list_opt !! p); [|done]. intros [= <- <-].
  split; [|done]. exists "". by rewrite str_app_nil_r.
Qed.

Lemma Adds_remove n p :
  n <> cmd_input -> n <> after_input -> Adds (lift_info (remove n p)).
Proof.
  intros H1 H2. apply Adds_lift_info. intros b a b' E.
  assert (Hb : b' = (remove n p b).2) by (by rewrite E). subst b'.
  by rewrite !lists_remove.
Qed.

Lemma Adds_sort o : Adds (lift_info (sort o)).
Proof.
  apply Adds_lift_info. intros b a b'. unfold sort.
  destruct (forallb _ _); [|done]. intros [= <- <-]. done.
Qed.

Lemma Adds_write_tap_brews o tap_packs l :
  forall direct_first, Adds (write_tap_brews o tap_packs l direct_first).
Proof.
  induction l as [|p l IH]; intros d; simpl; [apply Adds_ret|].
  destruct (bool_decide _); [|apply IH].
  apply Adds_bind; [apply Adds_when, Adds_emit|]. intros _.
  apply Adds_bind; [apply Adds_list_opt_of|]. intros opt.
  apply Adds_bind; [apply Adds_emit|]. intros _.
  apply Adds_bind; [by apply Adds_remove|]. intros _.
  apply Adds_bind; [by apply Adds_upd_info|]. intros _. apply IH.
Qed.

Lemma Adds_write_tap_casks o t tap_casks l :
  forall isfirst isfirst_pack,
    Adds (write_tap_casks o t tap_casks l isfirst isfirst_pack).
Proof.
  induction l as [|p l IH]; intros i j; simpl; [apply Adds_ret|].
  destruct (bool_decide _); [|apply IH].
  apply Adds_bind; [apply Adds_emit|]. intros _.
  apply Adds_bind; [apply Adds_emit|]. intros _.
  apply Adds_bind; [by apply Adds_remove|]. intros _. apply IH.
Qed.

Lemma Adds_write_taps env o taps :
  forall isfirst, Adds (write_taps env o taps isfirst).
Proof.
  induction taps as [|t taps IH]; intros i; simpl; [apply Adds_ret|].
  destruct (_ && _); [apply IH|].
  apply Adds_bind.
  { destruct (negb (caskonly o)); [|apply Adds_ret].
    apply Adds_bind; [apply Adds_emit|]. intros _.
    apply Adds_bind; [apply Adds_get_state|]. intros s.
    apply Adds_bind; [apply Adds_write_tap_brews|]. intros _. apply Adds_ret. }
  intros flags. destruct (negb (is_mac env)); [apply IH|].
  apply Adds_bind; [apply Adds_get_state|]. intros s.
  apply Adds_bind; [apply Adds_write_tap_casks|]. intros f. apply IH.
Qed.

Lemma Adds_write_brews o l : Adds (write_brews o l).
Proof.
  induction l as [|p l IH]; simpl; [apply Adds_ret|].
  apply Adds_bind; [apply Adds_list_opt_of|]. intros opt.
  apply Adds_bind; [apply Adds_emit|]. intros _. apply IH.
Qed.

Lemma Adds_write_appstore o l : Adds (write_appstore o l).
Proof.
  induction l as [|p l IH]; simpl; [apply Adds_ret|].
  destruct (mas_pack o p); [|apply Adds_raise].
  apply Adds_bind; [apply Adds_emit|]. intros _. apply IH.
Qed.

Lemma write_other_lines o l : write_other o l = other_lines o l.
Proof.
  unfold write_other, other_lines, section, other_prefix, cmds_of.
  rewrite str_app_assoc.
  destruct (is_bundle o); [reflexivity|]. by destruct (is_command o).
Qed.

Lemma is_empty_app a b : Py.is_empty b = false -> Py.is_empty (a +:+ b) = false.
Proof. intros H. destruct a; [exact H|reflexivity]. Qed.

(** The output of [write_output] ends with the raw commands, and after
    them the commands of [after]. *)
Lemma write_output_other env o b out b' :
  write_output env o ("", b) = (Done tt, (out, b')) ->
  lists b cmd_input <> [] ->
  exists pre,
    out = pre +:+ other_lines o (lists b cmd_input)
          +:+ (if nonempty (lists b after_input)
               then write_after o (lists b after_input) else "").
Proof.
  intros H Hne. unfold write_output in H.
  apply bind_done_inv in H as ([] & s1 & E1 & H).
  destruct (Adds_sort o _ _ _ E1) as ([t1 T1] & C1 & A1).
  apply bind_done_inv in H as (s1' & s1'' & [= <- <-] & H).
  apply bind_done_inv in H as ([] & s2 & E2 & H).
  destruct (Adds_when _ _ (Adds_emit _) _ _ _ E2) as ([t2 T2] & C2 & A2).
  apply bind_done_inv in H as (s2' & s2'' & [= <- <-] & H).
  apply bind_done_inv in H as ([] & s3 & E3 & H).
  destruct (Adds_write_taps env o _ _ _ _ _ E3) as ([t3 T3] & C3 & A3).
  apply bind_done_inv in H as (s3' & s3'' & [= <- <-] & H).
  apply bind_done_inv in H as ([] & s4 & E4 & H).
  assert (K4 : Adds (when (negb (caskonly o) && nonempty (lists s3.2 brew_list))
                       (emit (Py.nl +:+ ln "# Other Homebrew packages");;
                        write_brews o (lists s3.2 brew_list)))).
  { apply Adds_when, Adds_bind; [apply Adds_emit|]. intros _. apply Adds_write_brews. }
  destruct (K4 _ _ _ E4) as ([t4 T4] & C4 & A4).
  apply bind_done_inv in H as ([] & s5 & E5 & H).
  destruct (Adds_when _ _ (Adds_emit _) _ _ _ E5) as ([t5 T5] & C5 & A5).
  apply bind_done_inv in H as ([] & s6 & E6 & H).
  destruct (Adds_when _ _ (Adds_emit _) _ _ _ E6) as ([t6 T6] & C6 & A6).
  apply bind_done_inv in H as ([] & s7 & E7 & H).
  assert (K7 : Adds (when (is_mac env && negb (bool_decide (appstore o = 0))
                           && nonempty (lists s3.2 appstore_list))
                       (emit (Py.nl +:+ ln "# App Store applications");;
                        write_appstore o (lists s3.2 appstore_list)))).
  { apply Adds_when, Adds_bind; [apply Adds_emit|]. intros _. apply Adds_write_appstore. }
  destruct (K7 _ _ _ E7) as ([t7 T7] & C7 & A7).
  apply bind_done_inv in H as ([] & s8 & E8 & H).
  destruct (Adds_when _ _ (Adds_emit _) _ _ _ E8) as ([t8 T8] & C8 & A8).
  apply bind_done_inv in H as ([] & s9 & E9 & H).
  destruct (Adds_when _ _ (Adds_emit _) _ _ _ E9) as ([t9 T9] & C9 & A9).
  apply bind_done_inv in H as ([] & s10 & E10 & H).
  assert (Hc : lists s3.2 cmd_input = lists b cmd_input)
    by (by rewrite C3, C2, C1).
  assert (Ha : lists s3.2 after_input = lists b after_input)
    by (by rewrite A3, A2, A1).
  rewrite Hc in E10. rewrite Ha in H.
  assert (N : nonempty (lists b cmd_input) = true)
    by (by destruct (lists b cmd_input)).
  rewrite N in E10. simpl in E10. injection E10 as <-.
  exists s9.1. rewrite write_other_lines in H.
  destruct (nonempty (lists b after_input)); simpl in H.
  - injection H as <- _. by rewrite str_app_assoc.
  - injection H as <- _. by rewrite str_app_nil_r.
Qed.

(** What [write] returns for a document that holds raw commands. *)
Lemma write_other_spec env o b t b' :
  write env o b = (Done t, b') ->
  lists b cmd_input <> [] ->
  exists pre,
    t = Some (pre +:+ other_lines o (lists b cmd_input)
              +:+ (if nonempty (lists b after_input)
                   then write_after o (lists b after_input) else "")).
Proof.
  unfold write. destruct (write_output env o ("", b)) as [[[]|e|c] [out b1]] eqn:E;
    [|done|done].
  intros [= <- <-] Hne.
  destruct (write_output_other env o b out b1 E Hne) as [pre ->].
  rewrite is_empty_app by reflexivity.
  exists (output_prefix o +:+ pre). by rewrite !str_app_assoc.
Qed.

(** A document that holds raw commands only. *)
Lemma write_raw_only env o c l :
  (write env o (raw_only (c :: l))).1
  = Done (Some (output_prefix o +:+ other_lines o (c :: l))).
Proof.
  unfold write, write_output, raw_only. simpl.
  destruct (negb (caskonly o)), (is_mac env),
    (negb (bool_decide (appstore o = 0))); simpl;
    by rewrite write_other_lines.
Qed.

(** C6, amended. A line with a token makes [read] return, unless it is a
    [mas] line with a comma and fewer than four words; when its directive is
    none of those [read] knows, its only effect on the document is one more
    raw command, the stripped line; and whenever [write] returns for a
    document that holds raw commands, the text it gives ends with their
    section, each raw command on a line of its own, as it was read in the
    plain and command dialects and behind a comment sign in the bundle
    dialect, followed only by the commands of [after]; for a document that
    holds raw commands and nothing else [write] returns, and that section
    is all it gives after the preamble of the dialect. *)
Theorem C6_unrecognized_line_is_raw_command (env : Env) (line d : string) :
  directive line = Some d ->
  ((d = "mas" -> Py.has_char "," line = true ->
    (4 <= length (Py.split line))%nat) ->
   forall s, exists s', parse_line env line s = (Done tt, s'))
  /\ (recognized d = false ->
      forall o b, exists o',
        parse_line env line (o, b)
        = (Done tt, (o', append cmd_input (Py.strip line) b)))
  /\ (forall o b t b',
        write env o b = (Done t, b') ->
        lists b cmd_input <> [] ->
        exists pre,
          t = Some (pre
                    +:+ (Py.nl +:+ ln "# Other commands"
                         +:+ String.concat ""
                               (map (fun c => ln (other_prefix o +:+ c))
                                  (lists b cmd_input)))
                    +:+ (if nonempty (lists b after_input)
                         then write_after o (lists b after_input) else "")))
  /\ (forall o c l,
        (write env o (raw_only (c :: l))).1
        = Done (Some (output_prefix o
                      +:+ (Py.nl +:+ ln "# Other commands"
                           +:+ String.concat ""
                                 (map (fun c => ln (other_prefix o +:+ c))
                                    (c :: l))))))
  /\ (forall o, other_prefix o = if is_bundle o then "#" else "").
Proof.
  intros Hd. unfold directive in Hd.
  destruct (line_args line) as [|c r] eqn:Ha; [done|]. injection Hd as Hd.
  assert (Hne : line_args line <> []) by (by rewrite Ha).
  split; [|split; [|split; [|split]]].
  - intros Hmas [o b].
    destruct (parse_line_dispatch env line o b Hne) as (o' & E & _).
    rewrite E, Hd. by apply dispatch_returns.
  - intros Hr o b.
    destruct (parse_line_dispatch env line o b Hne) as (o' & E & _).
    exists o'. rewrite E, Hd. by apply dispatch_unrecognized.
  - intros o b t b'. apply write_other_spec.
  - intros o c0 l. apply write_raw_only.
  - reflexivity.
Qed.

Lemma C6_witness :
  directive (ln "echo  hello ") = Some "echo"
  /\ recognized "echo" = false
  /\ (exists o',
        parse_line quiet_env (ln "echo  hello ") (default_opt, new_BrewInfo "Brewfile")
        = (Done tt, (o', append cmd_input "echo  hello" (new_BrewInfo "Brewfile"))))
  /\ (write quiet_env bundle_opt (raw_only ["echo  hello"])).1
     = Done (Some (Py.nl +:+ ln "# Other commands" +:+ ln "#echo  hello")).
Proof.
  split; [reflexivity|]. split; [reflexivity|].
  destruct (C6_unrecognized_line_is_raw_command quiet_env (ln "echo  hello ")
              "echo" eq_refl) as (_ & H & _ & W & _).
  split; [exact (H eq_refl default_opt (new_BrewInfo "Brewfile"))|].
  exact (W bundle_opt "echo  hello" []).
Defined.

(** The text that [write] gives for what [read] keeps of a file in the
    plain dialect that holds a package and a raw command. *)
Lemma write_of_read_raw_command :
  (write quiet_env default_opt
     (input_to_list
        (read quiet_env (Some (ln "brew git" +:+ ln "echo  hello ")) fresh).2.2)).1
  = Done (Some (Py.nl +:+ ln "# Other Homebrew packages" +:+ ln "brew git"
                +:+ Py.nl +:+ ln "# Other commands" +:+ ln "echo  hello")).
Proof. by vm_compute. Qed.

(** ** The taps that [cleanup] removes *)

Lemma Total_ret {A} (a : A) : Total (mret a : M World A).
Proof. intros w. by exists a, w. Qed.

Lemma Total_bind {A B} (m : M World A) (k : A -> M World B) :
  Total m -> (forall a, Total (k a)) -> Total (m ≫= k).
Proof.
  intros Hm Hk w. destruct (Hm w) as (a & w1 & E1).
  destruct (Hk a w1) as (b & w2 & E2). exists b, w2.
  by rewrite (bind_done _ _ _ _ _ E1).
Qed.

Lemma Total_the_file {A} (k : BrewFile -> M World A) :
  (forall f, Total (k f)) -> Total (the_file ≫= k).
Proof. intros H w. exact (H w.1 w). Qed.

Lemma Total_when c (m : M World unit) : Total m -> Total (when c m).
Proof. intros H. destruct c; [exact H | apply Total_ret]. Qed.

Lemma Total_for_each {A} (l : list A) (body : A -> M World unit) :
  (forall x, Total (body x)) -> Total (for_each l body).
Proof.
  intros H. induction l as [|x l IH]; simpl; [apply Total_ret|].
  apply Total_bind; [apply H | intros _; apply IH].
Qed.

Lemma Total_event e : Total (event e).
Proof. intros w. by eexists _, _. Qed.

Lemma Total_modify r (g : BrewInfo -> BrewInfo) : Total (on_doc r (modify g)).
Proof. intros w. by eexists _, _. Qed.

(** [get_list] returns. *)
Lemma Total_get_list env force : Total (get_list env force).
Proof.
  unfold get_list.
  repeat first
    [ apply Total_the_file; intros ?
    | apply Total_bind; [|intros ?]
    | apply Total_when
    | apply Total_for_each; intros ?
    | apply Total_event
    | apply Total_ret
    | apply Total_modify
    | match goal with |- Total (if ?c then _ else _) => destruct c end ].
Qed.

Lemma declared_as_refl f : declared_as f f.
Proof. split; [apply same_graph_refl|]. intros i. by repeat split. Qed.

Lemma declared_as_since f0 f : declared_as f0 f -> declared_since f0 f.
Proof.
  intros [G H]. split; [exact G|]. intros i. destruct (H i) as (H1 & H2 & H3).
  repeat split; [done | done | by rewrite H3].
Qed.

Lemma declared_since_as f0 f1 f2 :
  declared_since f0 f1 -> declared_as f1 f2 -> declared_since f0 f2.
Proof.
  intros [G1 H1] [G2 H2]. split; [by eapply same_graph_trans|].
  intros i. destruct (H1 i) as (A1 & B1 & C1). destruct (H2 i) as (A2 & B2 & C2).
  repeat split; [congruence | congruence | by rewrite C2].
Qed.

Lemma declared_as_store f0 f r b :
  declared_as f0 f ->
  lists b tap_input = lists (heap f r) tap_input ->
  lists b cask_input = lists (heap f r) cask_input ->
  lists b brew_input = lists (heap f r) brew_input ->
  declared_as f0 (store r b f).
Proof.
  intros [G H] Ht Hc Hb. split; [exact G|]. intros i. simpl.
  destruct (H i) as (H1 & H2 & H3).
  destruct (decide (i = r)) as [->|]; [|done].
  rewrite Ht, Hc, Hb. by repeat split.
Qed.

Lemma get_declared_as f0 f :
  declared_as f0 f ->
  get f tap_input false = get f0 tap_input false
  /\ get f cask_input false = get f0 cask_input false
  /\ get f brew_input false = get f0 brew_input false.
Proof.
  intros [(_ & _ & Hm & He) H]. unfold get. rewrite Hm, He.
  repeat split; (f_equal; [apply H|]; f_equal; apply map_ext; intros r; apply H).
Qed.

Lemma unused_tap_as env f0 f R :
  declared_as f0 f -> unused_tap env f0 R -> unused_tap env f R.
Proof.
  intros Hf (H1 & H2 & H3).
  destruct (get_declared_as f0 f Hf) as (Et & Ec & Eb).
  unfold unused_tap. by rewrite Et, Ec, Eb.
Qed.

Lemma late_event_as env f0 f e :
  declared_as f0 f -> late_event env f0 e -> late_event env f e.
Proof.
  intros Hf [H1 H2]. split; [exact H1|].
  intros R HR. by apply (unused_tap_as env f0), H2.
Qed.

Lemma Run_remove_as f0 P r n p :
  n ∉ [tap_input; cask_input; brew_input] ->
  Run (declared_as f0) P (on_doc r (remove n p)).
Proof.
  intros Hn. apply Run_on_doc. intros f Hf.
  apply declared_as_store; [done|..]; rewrite lists_remove; set_solver.
Qed.

Lemma Run_remove_pack_as f0 P n p :
  n ∉ [tap_input; cask_input; brew_input] ->
  Run (declared_as f0) P (remove_pack n p).
Proof.
  intros Hn. unfold remove_pack. apply Run_the_file. intros f _.
  destruct (bool_decide _); [by apply Run_remove_as|].
  apply Run_for_each. intros r _. apply Run_the_file. intros f' _.
  apply Run_when. by apply Run_remove_as.
Qed.

Lemma Run_cleanup_app_as env f0 p :
  Run (declared_as f0) no_untap (cleanup_app env p).
Proof.
  unfold cleanup_app. apply Run_the_file. intros f _.
  apply Run_bind; [apply Run_lift_outcome | intros a].
  apply Run_bind; [apply Run_lift_outcome | intros isinput].
  destruct isinput; [apply Run_ret|].
  assert (Hrm : Run (declared_as f0) no_untap (remove_pack appstore_list p))
    by (apply Run_remove_pack_as; set_solver).
  destruct (_ && _).
  - apply Run_bind; [|done]. apply Run_queue_no_untap. intros R E. discriminate E.
  - apply Run_bind; [apply Run_proc_no_untap; intros R E; discriminate E|].
    intros _. cbv zeta.
    destruct (rm_command_starts env a.2 (appdirlist (opt f)) "sudo rm -rf" _ eq_refl)
      as [y Hy].
    rewrite Hy. destruct (bool_decide _).
    + apply Run_bind; [apply Run_event, no_untap_warn | done].
    + apply Run_bind; [|done]. apply Run_queue_no_untap. intros R E. discriminate E.
Qed.

Lemma Run_cleanup_pack_as env f0 p :
  Run (declared_as f0) no_untap (cleanup_pack env p).
Proof.
  unfold cleanup_pack. apply Run_the_file. intros f _.
  destruct (bool_decide _); [apply Run_ret|].
  apply Run_queue_no_untap. intros R E. discriminate E.
Qed.

(** A tap is removed only if nothing that it holds is declared in the
    state in which the loop over the taps looks. *)
Lemma Run_cleanup_tap_as env f0 p :
  Run (declared_as f0) (late_event env f0) (cleanup_tap env p).
Proof.
  unfold cleanup_tap. apply Run_the_file. intros f Hf.
  destruct (get_declared_as f0 f Hf) as (Ht & Hc & Hb).
  case_bool_decide as Hp; [apply Run_ret|].
  destruct (tap_in_use env f p) eqn:Hu; [apply Run_ret|].
  apply Run_queue_late.
  - intros P E. discriminate E.
  - intros R E. unfold untap in E. cbv in E. injection E as E. subst p.
    unfold tap_in_use in Hu. apply orb_false_iff in Hu as [Hu1 Hu2].
    split; [by rewrite <- Ht|]. split.
    + intros tp Htp Hin.
      pose proof (existsb_false _ _ tp Hu1 Htp) as Hf'.
      apply bool_decide_eq_false in Hf'. apply Hf'. by rewrite Hb.
    + intros Hmac tc Htc Hin. rewrite Hmac in Hu2. simpl in Hu2.
      pose proof (existsb_false _ _ tc Hu2 Htc) as Hf'.
      apply bool_decide_eq_false in Hf'. apply Hf'. by rewrite Hc.
Qed.

(** After its first loop [cleanup] changes no declaration; it removes
    applications, casks and packages, then taps. *)
Lemma Run2_cleanup_rest env f0 :
  Run2 (declared_as f0) no_untap (late_event env f0) (cleanup_rest env).
Proof.
  unfold cleanup_rest.
  apply Run2_the_file. intros f2 _.
  apply Run2_bind.
  { apply Run_when. apply Run_bind; [apply Run_event, no_untap_banner|].
    intros _. apply Run_for_each. intros p _. apply Run_cleanup_app_as. }
  intros _. apply Run2_the_file. intros f3 _.
  apply Run2_bind.
  { apply Run_when. apply Run_bind; [apply Run_event, no_untap_banner|].
    intros _. apply Run_for_each. intros p _. apply Run_the_file. intros f _.
    destruct (bool_decide _); [apply Run_ret|].
    apply Run_bind;
      [apply Run_queue_no_untap; intros R E; discriminate E|].
    intros _. apply Run_remove_pack_as. set_solver. }
  intros _. apply Run2_the_file. intros f4 _.
  apply Run2_bind.
  { apply Run_when. apply Run_remove_pack_as. set_solver. }
  intros _. apply Run2_the_file. intros f5 _.
  apply Run2_bind.
  { apply Run_when. apply Run_bind; [apply Run_event, no_untap_banner|].
    intros _. apply Run_for_each. intros p _. apply Run_cleanup_pack_as. }
  intros _. apply Run2_late. apply Run_the_file. intros f6 _.
  apply Run_bind.
  { apply Run_when. apply Run_bind; [apply Run_event, late_banner|].
    intros _. apply Run_for_each. intros p _. apply Run_cleanup_tap_as. }
  intros _. apply Run_bind; [apply Run_event, late_banner|].
  intros _. apply Run_bind.
  { apply Run_queue_late; intros ? E; discriminate E. }
  intros _. apply Run_bind.
  { apply Run_queue_late; intros ? E; discriminate E. }
  intros _. apply Run_when, Run_event, late_banner.
Qed.

(** [cleanup_body] is the first loop, then the other steps. *)
Lemma cleanup_body_phases env depth w :
  cleanup_body env depth w
  = (declare_dependencies env depth ≫= fun _ => cleanup_rest env) w.
Proof.
  unfold cleanup_body, declare_dependencies, cleanup_rest.
  rewrite bind_assoc, !the_file_bind. reflexivity.
Qed.

Lemma Run_declare_dependencies env f0 P depth :
  Run (declared_since f0) P (declare_dependencies env depth).
Proof.
  unfold declare_dependencies. apply Run_the_file. intros f _.
  apply Run_for_each. intros p _.
  destruct (bool_decide _); [apply Run_add_dependncies | apply Run_ret].
Qed.

(** The first loop returns when the depth of recursion is above the number
    of installed packages, and then what the declared packages need is
    declared. *)
Lemma declare_dependencies_closed env depth w :
  rooted w.1 ->
  (length (get_info env) < depth)%nat ->
  exists f',
    declare_dependencies env depth w = (Done tt, (f', w.2))
    /\ forall p q,
         p ∈ get w.1 brew_input false -> needs env p q ->
         q ∈ get f' brew_input false.
Proof.
  intros Hr Hd. unfold declare_dependencies. rewrite the_file_bind.
  pose proof (undeclared_bound env w.1) as Hb.
  destruct (for_each_declares env depth
              (fun p w' => forall d, depends env p d ->
                                     d ∈ get w'.1 brew_input false)
              (fun p => if bool_decide (is_Some (info_of env p))
                        then add_dependncies env depth p else mret tt)
              (get w.1 brew_input false)) with (w := w)
    as ([f' ev'] & E & (Ev & R & S & C) & Q); [| |done|lia|].
  - intros x w1 w2 H (_ & _ & S12 & _) d Hx. by apply S12, H.
  - intros p w0 _ Hr0 Hn0. case_bool_decide as Hp.
    + by apply add_dependncies_declares.
    + exists w0. split; [done|]. split; [by apply declares_refl|].
      intros d (i & _ & Hi & _). destruct Hp. by exists i.
  - simpl in Ev, R, S, C, Q. subst ev'. exists f'. split; [exact E|].
    assert (Hclosed : forall x d, x ∈ get f' brew_input false ->
                        depends env x d -> d ∈ get f' brew_input false).
    { intros x d Hx Hxd. destruct (C x Hx) as [H|H]; [by apply (Q x)|by apply H]. }
    intros p q Hp Hpq. apply S in Hp. clear -Hp Hpq Hclosed.
    induction Hpq as [|x y z Hxy _ IH]; [done|]. apply IH.
    by apply (Hclosed x).
Qed.

(** The events of [cleanup] against the declarations it ends with. *)
Lemma cleanup_spec env depth f log :
  exists E1 E2,
    (cleanup env depth (f, log)).2.2 = log ++ E1 ++ E2
    /\ Forall no_untap E1
    /\ Forall (late_event env (cleanup env depth (f, log)).2.1) E2
    /\ declared_since f (cleanup env depth (f, log)).2.1
    /\ (rooted f -> (length (get_info env) < depth)%nat ->
        forall p q,
          p ∈ get f brew_input false -> needs env p q ->
          q ∈ get (cleanup env depth (f, log)).2.1 brew_input false).
Proof.
  unfold cleanup. rewrite the_file_bind. simpl fst.
  set (m0 := when (dryrun (opt f))
               (event (BannerLine "# This is dry run."))).
  assert (R0 : Run (declared_since f) no_untap m0)
    by apply Run_when, Run_event, no_untap_banner.
  assert (T0 : Total m0) by apply Total_when, Total_event.
  destruct (T0 (f, log)) as ([] & w1 & E0).
  destruct (R0 (f, log) (declared_since_refl f)) as (I1 & L0 & HL0 & P0).
  rewrite E0 in I1, HL0. simpl in I1, HL0.
  rewrite (bind_done _ _ _ _ _ E0).
  destruct (Total_get_list env false w1) as ([] & w2 & E1).
  destruct (Run_get_list env f false w1 I1) as (I2 & L1 & HL1 & P1).
  rewrite E1 in I2, HL1. simpl in I2, HL1.
  rewrite (bind_done _ _ _ _ _ E1), cleanup_body_phases.
  destruct (Run_declare_dependencies env f no_untap depth w2 I2)
    as (I3 & L2 & HL2 & P2).
  assert (Hr2 : rooted f -> rooted w2.1).
  { destruct I2 as [(_ & Hb & Hm & He) _]. unfold rooted.
    by rewrite Hb, Hm, He. }
  assert (Hsub : get f brew_input false ⊆ get w2.1 brew_input false)
    by apply (get_declared_since f w2.1 I2).
  destruct (declare_dependencies env depth w2) as [[[]|e|c] w3] eqn:E2;
    simpl in I3, HL2.
  - rewrite (bind_done _ _ _ _ _ E2).
    destruct (Run2_cleanup_rest env w3.1 w3 (declared_as_refl _))
      as (I4 & L3 & L4 & HL & P3 & P4).
    exists (L0 ++ L1 ++ L2 ++ L3), L4. split; [|split; [|split; [|split]]].
    + rewrite HL, HL2, HL1, HL0. by rewrite <- !app_assoc.
    + by repeat (apply Forall_app; split).
    + eapply Forall_impl; [exact P4|]. intros e. by apply late_event_as.
    + by apply (declared_since_as f w3.1).
    + intros Hr Hd p q Hp Hpq.
      destruct (declare_dependencies_closed env depth w2 (Hr2 Hr) Hd)
        as (f' & E' & Hcl).
      rewrite E2 in E'. injection E' as E'.
      destruct (get_declared_as _ _ I4) as (_ & _ & ->).
      rewrite E'. simpl. apply (Hcl p q); [by apply Hsub|done].
  - rewrite (bind_raised _ _ _ _ _ E2).
    exists (L0 ++ L1 ++ L2), []. split; [|split; [|split; [|split]]].
    + simpl. rewrite HL2, HL1, HL0. by rewrite app_nil_r, <- !app_assoc.
    + by repeat (apply Forall_app; split).
    + constructor.
    + exact I3.
    + intros Hr Hd.
      destruct (declare_dependencies_closed env depth w2 (Hr2 Hr) Hd)
        as (f' & E' & _).
      rewrite E2 in E'. discriminate E'.
  - rewrite (bind_exited _ _ _ _ _ E2).
    exists (L0 ++ L1 ++ L2), []. split; [|split; [|split; [|split]]].
    + simpl. rewrite HL2, HL1, HL0. by rewrite app_nil_r, <- !app_assoc.
    + by repeat (apply Forall_app; split).
    + constructor.
    + exact I3.
    + intros Hr Hd.
      destruct (declare_dependencies_closed env depth w2 (Hr2 Hr) Hd)
        as (f' & E' & _).
      rewrite E2 in E'. discriminate E'.
Qed.

(** C3, amended. The events that a run of [cleanup] adds are such that a
    tap [R] is removed only if it is unused in the declarations the run
    ends with, which are those of the documents with the packages that
    the first loop of [cleanup] has added: [R] is not declared, no formula
    that it holds is declared and, on a Mac, no cask that it holds is
    declared. When the graph holds its root document and the depth of
    recursion is above the number of installed packages, those declarations
    hold every installed package that a declared package needs, so that no
    tap that holds one of them is removed. Every removal of a package
    comes before every removal of a tap. *)
Theorem C3_taps_go_last_and_only_if_unused
    (env : Env) (depth : nat) (f : BrewFile) (log : list Event) :
  exists E,
    (cleanup env depth (f, log)).2.2 = log ++ E
    /\ declared_since f (cleanup env depth (f, log)).2.1
    /\ (forall R, queued (untap R) E ->
          unused_tap env (cleanup env depth (f, log)).2.1 R)
    /\ (rooted f -> (length (get_info env) < depth)%nat ->
        (forall p q,
           p ∈ get f brew_input false -> needs env p q ->
           q ∈ get (cleanup env depth (f, log)).2.1 brew_input false)
        /\ (forall R p q,
              queued (untap R) E ->
              p ∈ get f brew_input false -> needs env p q ->
              q ∉ get_tap_packs env R))
    /\ (forall i j P R,
          E !! i = Some (PrintLine (uninstall P))
          \/ E !! i = Some (Proc (uninstall P)) ->
          E !! j = Some (PrintLine (untap R))
          \/ E !! j = Some (Proc (untap R)) ->
          (i < j)%nat).
Proof.
  destruct (cleanup_spec env depth f log) as (E1 & E2 & HE & H1 & H2 & HD & HN).
  exists (E1 ++ E2). split; [exact HE|]. split; [exact HD|].
  assert (HU : forall R, queued (untap R) (E1 ++ E2) ->
                 unused_tap env (cleanup env depth (f, log)).2.1 R).
  { intros R Hq.
    assert (He : exists e, e ∈ E1 ++ E2
                   /\ (e = PrintLine (untap R) \/ e = Proc (untap R))).
    { destruct Hq as [Hq|Hq]; eauto. }
    destruct He as (e & Hin & He).
    apply elem_of_app in Hin as [Hin|Hin].
    + exfalso. rewrite Forall_forall in H1.
      destruct (H1 e Hin R) as [Ha Hb]. by destruct He.
    + rewrite Forall_forall in H2. by apply (H2 e Hin). }
  split; [exact HU|]. split.
  - intros Hr Hd. split; [by apply HN|].
    intros R p q Hq Hp Hpq Hin.
    destruct (HU R Hq) as (_ & Hb & _). apply (Hb q Hin). by apply (HN Hr Hd p).
  - intros i j P R Hi Hj.
    assert (Hi' : (i < length E1)%nat).
    { destruct (decide (i < length E1)%nat) as [|Hge]; [done|]. exfalso.
      assert (Hl : exists e, E2 !! (i - length E1)%nat = Some e
                     /\ (e = PrintLine (uninstall P) \/ e = Proc (uninstall P))).
      { rewrite lookup_app_r in Hi by lia. destruct Hi as [Hi|Hi]; eauto. }
      destruct Hl as (e & Hl & He).
      destruct (Forall_lookup_1 _ _ _ _ H2 Hl) as [Hno _].
      destruct (Hno P). by destruct He. }
    assert (Hj' : (length E1 <= j)%nat).
    { destruct (decide (length E1 <= j)%nat) as [|Hlt]; [done|]. exfalso.
      assert (Hl : exists e, E1 !! j = Some e
                     /\ (e = PrintLine (untap R) \/ e = Proc (untap R))).
      { rewrite lookup_app_l in Hj by lia. destruct Hj as [Hj|Hj]; eauto. }
      destruct Hl as (e & Hl & He).
      destruct (Forall_lookup_1 _ _ _ _ H1 Hl R). by destruct He. }
    lia.
Qed.

(** The manifest declares [a], which depends on the formula [b] of the
    tap [u/r]: neither [b] nor the tap is removed, although no document
    names them. *)
Lemma cleanup_keeps_tap_of_dependency :
  (cleanup tap_of_dependency 5 (graph_of default_opt (ln "brew a"), [])).2.2
  = [BannerLine "# This is dry run.";
     BannerLine "# Clean up brew packages";
     BannerLine "# Clean up tap packages";
     BannerLine "# Clean up cache";
     PrintLine "brew cleanup";
     PrintLine "rm -rf /cache";
     BannerLine "# This is dry run."]
  /\ get (cleanup tap_of_dependency 5
            (graph_of default_opt (ln "brew a"), [])).2.1 brew_input false
     = ["a"; "b"].
Proof. split; by vm_compute. Qed.

(** ** The commands of [install] *)


























(** The manifest declares [git], [bad] and [jq]; [git] is installed. On a
    machine that runs every command the run installs [bad] and [jq]; when
    the installation of [bad] fails the run ends there. *)
Lemma install_three_packages :
  commands
    (install (machine true [("git", pack "")] ["git"] ["git"] [] all_succeed)
       (graph_of default_opt
          (ln "brew git" +:+ ln "brew bad" +:+ ln "brew jq"), [])).2.2
  = ["brew install bad"; "brew install jq"]
  /\ commands
       (install (machine true [("git", pack "")] ["git"] ["git"] [] bad_fails)
          (graph_of default_opt
             (ln "brew git" +:+ ln "brew bad" +:+ ln "brew jq"), [])).2.2
     = ["brew install bad"].
Proof. split; by vm_compute. Qed.

(** ** The round trip of the specification *)




(** What the manifest of the example becomes: the tap with its package,
    then the other package and the cask. *)
Lemma plain_manifest_written :
  (write tap_with_package
     (first_read tap_with_package default_opt plain_manifest).2.1
     (input_to_list
        (first_read tap_with_package default_opt plain_manifest).2.2)).1
  = Done (Some (ln "" +:+ ln "# tap repositories and their packages"
                +:+ ln "" +:+ ln "tap u/r" +:+ ln "brew p --with-x"
                +:+ ln "" +:+ ln "# Other Homebrew packages" +:+ ln "brew git"
                +:+ ln "" +:+ ln "# Other Cask applications"
                +:+ ln "cask firefox")).
Proof. vm_compute. reflexivity. Qed.
